(** * k8s_gateway: the resolution pipeline of the CoreDNS plugin

    A shallow embedding of [kubernetes.go] (the controller, the hostname
    indexers, the per-kind lookup closures) and of the plugin handler that
    follows it in the same file (the key-set derivation, the probe loop,
    [ServeDNS], [split255]).

    Conventions of the embedding.
    - A Go [string] is a [string] of the standard library: a sequence of
      bytes, [String.length] is Go's [len].
    - A Go [map[string][]string] is [option (gmap string (list string))]:
      [None] is the nil map.  A nil slice and an empty slice are both the
      empty list: the code only ever observes slices through [len],
      [append], [range] and the test [m[k] == nil], and never stores a nil
      slice under a key.
    - A run-time panic (nil dereference, slice bounds out of range) is the
      [Panic] outcome of the [go] monad.
    - Library functions whose code is not part of the repository
      ([netip.ParseAddr], [net.ParseIP], [net.LookupIP],
      [dns.IsDomainName], the informer stores, [plugin.Zones.Matches],
      ...) are Section variables or arguments.
    - A [*resourceWithIndex] is a position in a store of
      [resourceWithIndex] values; an assignment through the pointer
      updates the store. *)

From Stdlib Require Import Ascii String Arith Lia.
From Equations Require Import Equations.
From stdpp Require Import base option list strings gmap.

Local Open Scope string_scope.
Local Open Scope list_scope.

(** ** The [go] monad: a value or a panic *)

Inductive go (A : Type) : Type :=
| Ret (a : A)
| Panic.
Arguments Ret {A} a.
Arguments Panic {A}.

Definition go_bind {A B : Type} (m : go A) (k : A -> go B) : go B :=
  match m with
  | Ret a => k a
  | Panic => Panic
  end.

Notation "'let!' x ':=' m 'in' k" := (go_bind m (fun x => k))
  (at level 10, x name, m at level 100, k at level 200).

(** ** Go strings *)

Module GoString.

(** [s[:n]] for [n <= len(s)]. *)
Fixpoint prefix (n : nat) (s : string) : string :=
  match n, s with
  | S n', String c s' => String c (prefix n' s')
  | _, _ => EmptyString
  end.

(** [s[n:]] for [n <= len(s)]. *)
Fixpoint from (n : nat) (s : string) : string :=
  match n, s with
  | S n', String _ s' => from n' s'
  | _, _ => s
  end.

(** [s[p:i]] for [p <= i <= len(s)]. *)
Definition slice (p i : nat) (s : string) : string :=
  prefix (i - p) (from p s).

(** [strings.Join(parts, sep)]. *)
Fixpoint Join (parts : list string) (sep : string) : string :=
  match parts with
  | [] => ""
  | [p] => p
  | p :: rest => p +:+ sep +:+ Join rest sep
  end.

(** [strings.Split(s, sep)] for a one-byte separator: the pieces between
    the separators, always at least one piece. *)
Fixpoint Split_aux (sep : ascii) (s : string) (cur : string) : list string :=
  match s with
  | EmptyString => [cur]
  | String c s' =>
      if Ascii.eqb c sep then cur :: Split_aux sep s' ""
      else Split_aux sep s' (cur +:+ String c "")
  end.

Definition Split (s : string) (sep : ascii) : list string :=
  Split_aux sep s "".

(** [strings.ReplaceAll(s, old, "")] for a one-byte [old]. *)
Fixpoint RemoveAll (s : string) (old : ascii) : string :=
  match s with
  | EmptyString => EmptyString
  | String c s' =>
      if Ascii.eqb c old then RemoveAll s' old else String c (RemoveAll s' old)
  end.

(** [strings.TrimSuffix(s, ".")]. *)
Fixpoint TrimSuffixDot (s : string) : string :=
  match s with
  | EmptyString => EmptyString
  | String c EmptyString => if Ascii.eqb c "." then EmptyString else s
  | String c s' => String c (TrimSuffixDot s')
  end.

Definition lower_byte (c : ascii) : ascii :=
  let n := nat_of_ascii c in
  if (65 <=? n)%nat && (n <=? 90)%nat then ascii_of_nat (n + 32) else c.

(** [strings.ToLower] as it acts on a string of ASCII bytes, byte by
    byte.  On a string with other bytes Go lowers by Unicode code point
    (the Kelvin sign becomes [k]); here such bytes are left as they are,
    so the definition stands for Go's on ASCII strings only. *)
Fixpoint ToLower (s : string) : string :=
  match s with
  | EmptyString => EmptyString
  | String c s' => String (lower_byte c) (ToLower s')
  end.

Fixpoint replicate (n : nat) (c : ascii) : string :=
  match n with
  | O => EmptyString
  | S n' => String c (replicate n' c)
  end.

(** The concatenation of a list of strings. *)
Fixpoint concat (l : list string) : string :=
  match l with
  | [] => ""
  | s :: l' => s +:+ concat l'
  end.

End GoString.

(** ** [split255] *)

(** The [for] loop of [split255]: [p] and [i] are the loop variables, [sx]
    the chunks appended so far.  The loop ends because [i] grows by 255 in
    every round and the round is only entered while [i <= len(s)]. *)
Equations? split255_loop (s : string) (p i : nat) (sx : list string) : list string
  by wf (String.length s + 1 - i) lt :=
  split255_loop s p i sx with le_lt_dec i (String.length s) := {
    | right _ => sx ++ [GoString.from p s]
    | left _ => split255_loop s (p + 255) (i + 255) (sx ++ [GoString.slice p i s]) }.
Proof. lia. Qed.

Definition split255 (s : string) : list string :=
  if (String.length s <? 255)%nat then [s] else split255_loop s 0 255 [].

(** ** Address bundles: [map[string][]string] *)

Notation Bundle := (option (gmap string (list string))).

(** [m[k]], also on a nil map. *)
Definition mget (m : Bundle) (k : string) : list string :=
  match m with
  | None => []
  | Some g => default [] (g !! k)
  end.

(** [if m[k] == nil { m[k] = make([]string, 0) }] on a non-nil map. *)
Definition ensure (k : string) (g : gmap string (list string)) : gmap string (list string) :=
  match g !! k with
  | None => <[k := []]> g
  | Some _ => g
  end.

(** [m[k] = append(m[k], vs...)] on a non-nil map. *)
Definition append_at (k : string) (vs : list string) (g : gmap string (list string))
  : gmap string (list string) :=
  <[k := default [] (g !! k) ++ vs]> g.

(** [if result == nil { result = make(map[string][]string, 0) }]. *)
Definition make_if_nil (result : Bundle) : gmap string (list string) :=
  match result with
  | None => ∅
  | Some g => g
  end.

Definition appenddnsResults (result fetchedResults : Bundle) : Bundle :=
  let result := make_if_nil result in
  let result := append_at "A" (mget fetchedResults "A") (ensure "A" result) in
  let result := append_at "AAAA" (mget fetchedResults "AAAA") (ensure "AAAA" result) in
  let result := append_at "TXT" (mget fetchedResults "TXT") (ensure "TXT" result) in
  Some result.

(** All three keys are there. *)
Definition has_all_keys (m : Bundle) : Prop :=
  match m with
  | None => False
  | Some g => is_Some (g !! "A") /\ is_Some (g !! "AAAA") /\ is_Some (g !! "TXT")
  end.

(** What a caller can count on: a nil bundle, or one with all three keys. *)
Definition nil_or_all_keys (r : go Bundle) : Prop :=
  match r with
  | Ret (Some g) => has_all_keys (Some g)
  | _ => True
  end.

(** A bundle that has a key exactly where it has a value to give. *)
Definition only_filled_keys (g : gmap string (list string)) : Prop :=
  forall k, is_Some (g !! k) <-> mget (Some g) k <> [].

(** ** Cluster objects *)

Inductive Family := V4 | V6.

(** A parsed [netip.Addr]: its family and its canonical text ([addr.String()]). *)
Record Addr := { addr_family : Family; addr_String : string }.

Definition Is4 (a : Addr) : bool :=
  match addr_family a with V4 => true | V6 => false end.
Definition Is6 (a : Addr) : bool :=
  match addr_family a with V4 => false | V6 => true end.

(** [core.LoadBalancerIngress] and [networking.IngressLoadBalancerIngress]:
    the two fields the code reads. *)
Record LoadBalancerIngress := { lb_Hostname : string; lb_IP : string }.

Inductive ServiceType := ClusterIP | NodePort | LoadBalancer | ExternalName.

Record Service := {
  svc_Name : string;
  svc_Namespace : string;
  svc_Annotations : gmap string string;
  svc_Type : ServiceType;
  svc_ExternalIPs : list string;
  svc_Ingress : list LoadBalancerIngress   (* Status.LoadBalancer.Ingress *)
}.

Record Ingress := {
  ing_Name : string;
  ing_Hosts : list string;                 (* Spec.Rules[].Host *)
  ing_IngressClassName : option string;    (* *string, nil when unset *)
  ing_Ingress : list LoadBalancerIngress   (* Status.LoadBalancer.Ingress *)
}.

(** The types of [sigs.k8s.io/gateway-api/apis/v1] the code reads. *)
Module gatewayapi_v1.

Inductive AddressType := IPAddressType | HostnameAddressType | NamedAddressType.

Record GatewayStatusAddress := {
gsa_Type : option AddressType;           (* *AddressType *)
gsa_Value : string
}.

Record Gateway := {
gw_GatewayClassName : string;
gw_Addresses : list gatewayapi_v1.GatewayStatusAddress (* Status.Addresses *)
}.

Record ParentReference := {
pr_Namespace : option string;            (* *Namespace, nil when unset *)
pr_Name : string
}.

End gatewayapi_v1.
Import gatewayapi_v1.

(** HTTPRoute, TLSRoute and GRPCRoute: the fields the three lookups read. *)
Record Route := {
  rt_Namespace : string;
  rt_Hostnames : list string;
  rt_ParentRefs : list ParentReference
}.

(** What an index function is handed: [obj interface{}]. *)
Inductive Object :=
| ObjService (s : Service)
| ObjIngress (i : Ingress)
| ObjRoute (r : Route)
| ObjGateway (g : gatewayapi_v1.Gateway).

Definition hostnameAnnotationKey : string := "coredns.io/hostname".
Definition externalDnsHostnameAnnotationKey : string :=
  "external-dns.alpha.kubernetes.io/hostname".

(** ** Host name validation *)

Definition is_lower_alnum (c : ascii) : bool :=
  let n := nat_of_ascii c in
  ((97 <=? n)%nat && (n <=? 122)%nat) || ((48 <=? n)%nat && (n <=? 57)%nat).

Definition is_label_byte (c : ascii) : bool :=
  is_lower_alnum c || Ascii.eqb c "-".

Fixpoint last_byte (c : ascii) (s : string) : ascii :=
  match s with
  | EmptyString => c
  | String c' s' => last_byte c' s'
  end.

Fixpoint all_bytes (f : ascii -> bool) (s : string) : bool :=
  match s with
  | EmptyString => true
  | String c s' => f c && all_bytes f s'
  end.

(** One label of [dns1123ValueFmt]: [[a-z0-9]([-a-z0-9]*[a-z0-9])?]. *)
Definition dns1123Label (l : string) : bool :=
  match l with
  | EmptyString => false
  | String c rest =>
      is_lower_alnum c && all_bytes is_label_byte rest && is_lower_alnum (last_byte c rest)
  end.

(** [dns1123SubdomainRegexp.MatchString]: the anchored expression matches
    exactly the dot-separated sequences of labels. *)
Definition isdns1123Hostname (value : string) : bool :=
  forallb dns1123Label (GoString.Split value ".").

Definition splitHostnameAnnotation (annotation : string) : list string :=
  GoString.Split (GoString.RemoveAll annotation " ") ",".

Definition checkServiceAnnotation (annotation : string) (service : Service)
  : string * bool :=
  match svc_Annotations service !! annotation with
  | Some annotationValue => (GoString.ToLower annotationValue, true)
  | None => ("", false)
  end.

(** [slices.Contains] on strings. *)
Definition slices_Contains (l : list string) (x : string) : bool :=
  existsb (String.eqb x) l.

(** ** Indexers and address extractors

    The library calls are the Section's variables:
    [ParseAddr] is [netip.ParseAddr] ([None] for an error),
    [LookupIP] is [net.LookupIP] followed by [ip.String()] on every
    address found ([None] for an error), and [IsDomainName] is the
    boolean of [dns.IsDomainName]. *)

Section Extractors.

Variable ParseAddr : string -> option Addr.
Variable LookupIP : string -> option (list string).
Variable IsDomainName : string -> bool.

Definition checkDomainValid (domain : string) : bool :=
  if IsDomainName domain then
    if isdns1123Hostname domain then true else false
  else false.

Definition serviceHostnameIndexFunc (obj : Object) : list string :=
  match obj with
  | ObjService service =>
      match svc_Type service with
      | LoadBalancer =>
          let hostname := svc_Name service +:+ "." +:+ svc_Namespace service in
          let hostnames : list string := [] in
          let '(annotation, exists_) :=
            checkServiceAnnotation hostnameAnnotationKey service in
          if exists_ then
            if checkDomainValid annotation then [annotation] else hostnames
          else
            let '(annotation, exists_) :=
              checkServiceAnnotation externalDnsHostnameAnnotationKey service in
            if exists_ then
              fold_left
                (fun hostnames hostname =>
                   if checkDomainValid hostname then hostnames ++ [hostname]
                   else hostnames)
                (splitHostnameAnnotation annotation) hostnames
            else [hostname]
      | _ => []
      end
  | _ => []
  end.

Definition ingressHostnameIndexFunc (obj : Object) : list string :=
  match obj with
  | ObjIngress ingress => ing_Hosts ingress
  | _ => []
  end.

(** The body shared by every place that files an address under its
    family:
    [if addr.Is4() { ... results["A"] = append(results["A"], addr.String()) }]
    [if addr.Is6() { ... results["AAAA"] = append(...) }]. *)
Definition classify (addr : Addr) (results : gmap string (list string))
  : gmap string (list string) :=
  let results :=
    if Is4 addr then append_at "A" [addr_String addr] (ensure "A" results)
    else results in
  if Is6 addr then append_at "AAAA" [addr_String addr] (ensure "AAAA" results)
  else results.

(** [for _, ip := range ips { addr, err := netip.ParseAddr(ip); if err != nil
    { continue }; ... }]. *)
Fixpoint classify_all (ips : list string) (results : gmap string (list string))
  : gmap string (list string) :=
  match ips with
  | [] => results
  | ip :: rest =>
      match ParseAddr ip with
      | None => classify_all rest results
      | Some addr => classify_all rest (classify addr results)
      end
  end.

Fixpoint fetchLoadBalancerIPs_loop (ingresses : list LoadBalancerIngress)
  (results : gmap string (list string)) : gmap string (list string) :=
  match ingresses with
  | [] => results
  | address :: rest =>
      if negb (String.eqb (lb_Hostname address) "") then
        match LookupIP (lb_Hostname address) with
        | None => fetchLoadBalancerIPs_loop rest results
        | Some ips => fetchLoadBalancerIPs_loop rest (classify_all ips results)
        end
      else if negb (String.eqb (lb_IP address) "") then
        match ParseAddr (lb_IP address) with
        | None => fetchLoadBalancerIPs_loop rest results
        | Some addr => fetchLoadBalancerIPs_loop rest (classify addr results)
        end
      else fetchLoadBalancerIPs_loop rest results
  end.

Definition fetchServiceLoadBalancerIPs (ingresses : list LoadBalancerIngress) : Bundle :=
  Some (fetchLoadBalancerIPs_loop ingresses ∅).

Definition fetchIngressLoadBalancerIPs (ingresses : list LoadBalancerIngress) : Bundle :=
  Some (fetchLoadBalancerIPs_loop ingresses ∅).

Fixpoint fetchGatewayIPs_loop (addrs : list gatewayapi_v1.GatewayStatusAddress)
  (results : gmap string (list string)) : go (gmap string (list string)) :=
  match addrs with
  | [] => Ret results
  | addr :: rest =>
      match gsa_Type addr with
      | None => Panic
      | Some IPAddressType =>
          match ParseAddr (gsa_Value addr) with
          | None => fetchGatewayIPs_loop rest results
          | Some a => fetchGatewayIPs_loop rest (classify a results)
          end
      | Some HostnameAddressType =>
          match LookupIP (gsa_Value addr) with
          | None => fetchGatewayIPs_loop rest results
          | Some ips => fetchGatewayIPs_loop rest (classify_all ips results)
          end
      | Some NamedAddressType => fetchGatewayIPs_loop rest results
      end
  end.

Definition fetchGatewayIPs (gw : gatewayapi_v1.Gateway) : go Bundle :=
  let! results := fetchGatewayIPs_loop (gw_Addresses gw) ∅ in
  Ret (Some results).

(** The objects of one informer matched by the keys:
    [for _, key := range indexKeys { obj, _ := ctrl.GetIndexer().ByIndex(index,
    strings.ToLower(key)); objs = append(objs, obj...) }].
    [ctrl] is [ByIndex] of that informer at its host name index. *)
Definition matched {T : Type} (ctrl : string -> list T) (indexKeys : list string)
  : list T :=
  flat_map (fun key => ctrl (GoString.ToLower key)) indexKeys.

(** The loop of [lookupServiceIndex] over the matched objects; [result] is
    the non-nil map made at the top of the closure. *)
Fixpoint lookupServiceIndex_loop (objs : list Service)
  (result : gmap string (list string)) : gmap string (list string) :=
  match objs with
  | [] => result
  | service :: rest =>
      if (0 <? length (svc_ExternalIPs service))%nat then
        (* in case externalIPs are defined, ignoring status field completely *)
        classify_all (svc_ExternalIPs service) result
      else
        let fetchedResults := fetchServiceLoadBalancerIPs (svc_Ingress service) in
        lookupServiceIndex_loop rest
          (make_if_nil (appenddnsResults (Some result) fetchedResults))
  end.

Definition lookupServiceIndex (ctrl : string -> list Service)
  (indexKeys : list string) : go Bundle :=
  Ret (Some (lookupServiceIndex_loop (matched ctrl indexKeys) ∅)).

(** The inner loop of [lookupGateways], over the Gateways found under one
    key. *)
Fixpoint lookupGateways_objs (gwclasses : list string) (gwObjs : list gatewayapi_v1.Gateway)
  (result : Bundle) : go Bundle :=
  match gwObjs with
  | [] => Ret result
  | gw :: rest =>
      if (0 <? length gwclasses)%nat
         && negb (slices_Contains gwclasses (gw_GatewayClassName gw))
      then lookupGateways_objs gwclasses rest result
      else
        let! fetchedResults := fetchGatewayIPs gw in
        lookupGateways_objs gwclasses rest (appenddnsResults result fetchedResults)
  end.

(** The outer loop of [lookupGateways]: [ns] is the function's parameter,
    assigned inside the loop. *)
Fixpoint lookupGateways_refs (gw : string -> list gatewayapi_v1.Gateway)
  (refs : list ParentReference) (ns : string) (gwclasses : list string)
  (result : Bundle) : go Bundle :=
  match refs with
  | [] => Ret result
  | gwRef :: rest =>
      let ns := match pr_Namespace gwRef with
                | Some n => n
                | None => ns
                end in
      let gwKey := ns +:+ "/" +:+ pr_Name gwRef in
      let gwObjs := gw gwKey in
      let! result := lookupGateways_objs gwclasses gwObjs result in
      lookupGateways_refs gw rest ns gwclasses result
  end.

Definition lookupGateways (gw : string -> list gatewayapi_v1.Gateway)
  (refs : list ParentReference) (ns : string) (gwclasses : list string) : go Bundle :=
  lookupGateways_refs gw refs ns gwclasses None.

Fixpoint lookupRouteIndex_loop (gw : string -> list gatewayapi_v1.Gateway) (gwclasses : list string)
  (objs : list Route) (result : Bundle) : go Bundle :=
  match objs with
  | [] => Ret result
  | route :: rest =>
      let! fetchedResults :=
        lookupGateways gw (rt_ParentRefs route) (rt_Namespace route) gwclasses in
      lookupRouteIndex_loop gw gwclasses rest (appenddnsResults result fetchedResults)
  end.

Definition lookupHttpRouteIndex (http : string -> list Route)
  (gw : string -> list gatewayapi_v1.Gateway) (gwclasses : list string)
  (indexKeys : list string) : go Bundle :=
  lookupRouteIndex_loop gw gwclasses (matched http indexKeys) None.

Definition lookupTLSRouteIndex (tls : string -> list Route)
  (gw : string -> list gatewayapi_v1.Gateway) (gwclasses : list string)
  (indexKeys : list string) : go Bundle :=
  lookupRouteIndex_loop gw gwclasses (matched tls indexKeys) None.

Definition lookupGRPCRouteIndex (grpc : string -> list Route)
  (gw : string -> list gatewayapi_v1.Gateway) (gwclasses : list string)
  (indexKeys : list string) : go Bundle :=
  lookupRouteIndex_loop gw gwclasses (matched grpc indexKeys) None.

Fixpoint lookupIngressIndex_loop (ingclasses : list string) (objs : list Ingress)
  (result : Bundle) : go Bundle :=
  match objs with
  | [] => Ret result
  | ingress :: rest =>
      let! skip :=
        if (0 <? length ingclasses)%nat then
          match ing_IngressClassName ingress with
          | None => Panic          (* *ingress.Spec.IngressClassName *)
          | Some class => Ret (negb (slices_Contains ingclasses class))
          end
        else Ret false in
      if skip then lookupIngressIndex_loop ingclasses rest result
      else
        let fetchedResults := fetchIngressLoadBalancerIPs (ing_Ingress ingress) in
        lookupIngressIndex_loop ingclasses rest (appenddnsResults result fetchedResults)
  end.

Definition lookupIngressIndex (ctrl : string -> list Ingress)
  (ingclasses : list string) (indexKeys : list string) : go Bundle :=
  lookupIngressIndex_loop ingclasses (matched ctrl indexKeys) None.

End Extractors.

(** ** The query engine *)

(** Strips the closing dot unless it's ["."]. *)
Definition stripClosingDot (s : string) : string :=
  if (1 <? String.length s)%nat then GoString.TrimSuffixDot s else s.

(** [qname[:len(qname)-len(zone)]] panics when the zone is longer than the
    name. *)
Definition stripDomain (qname zone : string) : go string :=
  if (String.length zone <=? String.length qname)%nat then
    let hostname := GoString.prefix (String.length qname - String.length zone) qname in
    Ret (stripClosingDot hostname)
  else Panic.

Definition getQueryIndexKeys (qName zone : string) : go (list string) :=
  let! zonelessQuery := stripDomain qName zone in
  let strippedQName := stripClosingDot qName in
  if negb (String.length zonelessQuery =? 0)%nat
     && negb (String.eqb zonelessQuery strippedQName)
  then Ret [strippedQName; zonelessQuery]
  else Ret [strippedQName].

Definition toWildcardQName (qName zone : string) : go string :=
  let! zonelessQuery := stripDomain qName zone in
  let parts := GoString.Split zonelessQuery "." in
  if (length parts =? 0)%nat then Ret ""
  else
    let parts := <[0%nat := "*"]> parts in
    let parts := parts ++ [zone] in
    Ret (GoString.Join parts ".").

Definition getQueryIndexKeySets (qName zone : string) : go (list (list string)) :=
  let! specificIndexKeys := getQueryIndexKeys qName zone in
  let! wildcardQName := toWildcardQName qName zone in
  if String.eqb wildcardQName "" then Ret [specificIndexKeys]
  else
    let! wildcardIndexKeys := getQueryIndexKeys wildcardQName zone in
    Ret [specificIndexKeys; wildcardIndexKeys].

(** ** The registry and the probe loop *)

Definition lookupFunc : Type := list string -> go Bundle.

Record resourceWithIndex := { name : string; lookup : lookupFunc }.

Definition noop : lookupFunc := fun _ => Ret None.

(** The slices [staticResources] and [gw.Resources] hold pointers to
    [resourceWithIndex] values.  The six values are allocated once, by
    the declaration of [staticResources]; [newKubeController] and the
    tests assign their [lookup] fields through the pointers.  A pointer
    is the position of its value in the store [Cells]. *)
Notation ResourcePtr := nat.

Notation Cells := (list resourceWithIndex).

(** The six values as the declaration initialises them. *)
Definition declared : Cells :=
  [ {| name := "HTTPRoute"; lookup := noop |};
    {| name := "TLSRoute"; lookup := noop |};
    {| name := "GRPCRoute"; lookup := noop |};
    {| name := "Ingress"; lookup := noop |};
    {| name := "Service"; lookup := noop |};
    {| name := "DNSEndpoint"; lookup := noop |} ].

Definition staticResources : list ResourcePtr := [0; 1; 2; 3; 4; 5]%nat.

(** [resource.lookup = f] through the pointer [resource]. *)
Definition set_lookup (cells : Cells) (resource : ResourcePtr) (f : lookupFunc) : Cells :=
  match cells !! resource with
  | Some r => <[resource := {| name := name r; lookup := f |}]> cells
  | None => cells
  end.

(** The values that a slice of pointers leads to. *)
Definition entries (cells : Cells) (resources : list ResourcePtr)
  : list resourceWithIndex :=
  flat_map (fun resource =>
              match cells !! resource with
              | Some r => [r]
              | None => []
              end) resources.

(** One call [resource.lookup(indexKeys)]: the kind called and the keys
    it was given. *)
Definition Probe : Type := string * list string.

(** The four tests on [addrs] in the loop body of [getMatchingAddresses]. *)
Definition fill_keys (addrs : Bundle) : gmap string (list string) :=
  ensure "TXT" (ensure "AAAA" (ensure "A" (make_if_nil addrs))).

(** How a loop was left. *)
Inductive Flow :=
| Returned (addrs : Bundle)
| Finished
| Panicked.

(** The inner loop of [getMatchingAddresses], over [gw.Resources]; [log]
    collects the calls made. *)
Fixpoint probe_resources (indexKeys : list string) (resources : list resourceWithIndex)
  (log : list Probe) : Flow * list Probe :=
  match resources with
  | [] => (Finished, log)
  | resource :: rest =>
      let log := log ++ [(name resource, indexKeys)] in
      match lookup resource indexKeys with
      | Panic => (Panicked, log)
      | Ret addrs =>
          let addrs := fill_keys addrs in
          if (0 <? length (mget (Some addrs) "A"))%nat then (Returned (Some addrs), log)
          else if (0 <? length (mget (Some addrs) "AAAA"))%nat then (Returned (Some addrs), log)
          else if (0 <? length (mget (Some addrs) "TXT"))%nat then (Returned (Some addrs), log)
          else probe_resources indexKeys rest log
      end
  end.

(** The outer loop, over the key sets. *)
Fixpoint probe_keysets (indexKeySets : list (list string))
  (resources : list resourceWithIndex) (log : list Probe) : Flow * list Probe :=
  match indexKeySets with
  | [] => (Finished, log)
  | indexKeys :: rest =>
      match probe_resources indexKeys resources log with
      | (Finished, log) => probe_keysets rest resources log
      | stopped => stopped
      end
  end.

(** [getMatchingAddresses]: the bundle returned (nil when both loops run
    to their end) and the calls made, in order. *)
Definition getMatchingAddresses (resources : list resourceWithIndex)
  (indexKeySets : list (list string)) : go Bundle * list Probe :=
  match probe_keysets indexKeySets resources [] with
  | (Returned addrs, log) => (Ret addrs, log)
  | (Finished, log) => (Ret None, log)
  | (Panicked, log) => (Panic, log)
  end.

(** The calls the two loops would make if none of them stopped the
    search: key sets in order, and for each the kinds in registry order. *)
Definition all_probes (resources : list resourceWithIndex)
  (indexKeySets : list (list string)) : list (resourceWithIndex * list string) :=
  flat_map (fun indexKeys => map (fun r => (r, indexKeys)) resources) indexKeySets.

Definition run_probe (p : resourceWithIndex * list string) : go Bundle :=
  lookup (fst p) (snd p).

Definition probe_tag (p : resourceWithIndex * list string) : Probe :=
  (name (fst p), snd p).

(** A bundle with nothing in it for any of the three record types. *)
Definition all_empty (b : Bundle) : Prop :=
  mget b "A" = [] /\ mget b "AAAA" = [] /\ mget b "TXT" = [].

(** The three tests that end the search, as one. *)
Definition some_nonempty (addrs : Bundle) : bool :=
  (0 <? length (mget addrs "A"))%nat
  || (0 <? length (mget addrs "AAAA"))%nat
  || (0 <? length (mget addrs "TXT"))%nat.

(** The search the two nested loops amount to, over the calls laid out in
    one sequence. *)
Fixpoint search (probes : list (resourceWithIndex * list string)) (log : list Probe)
  : Flow * list Probe :=
  match probes with
  | [] => (Finished, log)
  | p :: rest =>
      let log := log ++ [probe_tag p] in
      match run_probe p with
      | Panic => (Panicked, log)
      | Ret addrs =>
          if some_nonempty addrs then (Returned (Some (fill_keys addrs)), log)
          else search rest log
      end
  end.

(** ** The controller *)

(** Of the fields of [KubeController] only the flag is kept;
    [newKubeController] leaves it at its zero value, [false]. *)
Record KubeController := { hasSynced : bool }.

Definition HasSynced (ctrl : KubeController) : bool := hasSynced ctrl.

(** How a call of [cache.WaitForCacheSync] stands: it has returned, or
    it is still polling. *)
Inductive Wait :=
| WaitReturned (ok : bool)
| Waiting.

(** [cache.WaitForCacheSync(stopCh, synced...)] of client-go polls until
    every informer reports that it has synced, and then returns [true],
    or until [stopCh] is closed, and then returns [false].  [synced t]
    and [closed t] tell how the informers and the channel stand at poll
    [t]; the call is followed from poll [now] through [polls] polls. *)
Fixpoint WaitForCacheSync (closed synced : nat -> bool) (now polls : nat) : Wait :=
  match polls with
  | O => Waiting
  | S polls' =>
      if synced now then WaitReturned true
      else if closed now then WaitReturned false
      else WaitForCacheSync closed synced (S now) polls'
  end.

(** [run], followed through [polls] polls of the wait.  [stopCh] is made
    by [run] and handed to the informers and to the wait, which only
    receive from it; the one [close] is the deferred one, which would run
    when [run] returns, after the receive [<-stopCh] that ends it.  So the
    wait finds the channel open at every poll.  While the wait has not
    returned, the flag is as [run] found it; once it has, the assignments
    to [ctrl.hasSynced] follow in program order and the goroutine stays
    blocked on the receive. *)
Definition run (synced : nat -> bool) (polls : nat) (ctrl : KubeController)
  : KubeController :=
  let stopCh : nat -> bool := fun _ => false in
  match WaitForCacheSync stopCh synced 0 polls with
  | Waiting => ctrl
  | WaitReturned ok =>
      let ctrl := if negb ok then {| hasSynced := false |} else ctrl in
      let ctrl := {| hasSynced := true |} in
      ctrl
  end.

(** ** The responder *)

Inductive QType := TypeA | TypeAAAA | TypeTXT | TypeSOA | TypeNS | TypeOther.

(** The response codes of [miekg/dns] the handler uses. *)
Definition RcodeSuccess : N := 0.
Definition RcodeServerFailure : N := 2.
Definition RcodeNameError : N := 3.

(** [net.IP]: the nil slice, or the bytes of the address. *)
Definition IP : Type := option (list N).

Inductive RR :=
| RR_A (Name : string) (Ttl : N) (A : IP)
| RR_AAAA (Name : string) (Ttl : N) (AAAA : IP)
| RR_TXT (Name : string) (Ttl : N) (Txt : list string)
| RR_SOA (Name : string) (Ttl : N) (Ns Mbox : string)
| RR_NS (Name : string) (Ttl : N) (Ns : string).

(** [rr.Header().Ttl = ttl]. *)
Definition set_Ttl (ttl : N) (rr : RR) : RR :=
  match rr with
  | RR_A n _ a => RR_A n ttl a
  | RR_AAAA n _ a => RR_AAAA n ttl a
  | RR_TXT n _ t => RR_TXT n ttl t
  | RR_SOA n _ ns mbox => RR_SOA n ttl ns mbox
  | RR_NS n _ ns => RR_NS n ttl ns
  end.

Record Msg := {
  Rcode : N;
  Authoritative : bool;
  Answer : list RR;
  Ns : list RR;
  Extra : list RR
}.

(** [request.Request]: what [state.QName()], [state.Name()] and
    [state.QType()] return, and the [Zone] field the handler sets. *)
Record Request := {
  QName : string;
  Name : string;
  QType_ : QType;
  Zone : string
}.

(** [Resources] holds the values that the pointers of [gw.Resources]
    lead to when the plugin is used. *)
Record Gateway := {
  Zones : list string;
  Resources : list resourceWithIndex;
  ttlLow : N;
  ttlSOA : N;
  Controller : KubeController;
  apex : string;
  hostmaster : string;
  secondNS : string
}.

(** The loop shared by [A], [AAAA] and [TXT]: one record per distinct
    value, in first-seen order; [dup] is the map used as a set. *)
Fixpoint dedup_records (mk : string -> RR) (results : list string)
  (dup : gset string) (records : list RR) : list RR :=
  match results with
  | [] => records
  | result :: rest =>
      if bool_decide (result ∈ dup) then dedup_records mk rest dup records
      else dedup_records mk rest ({[result]} ∪ dup) (records ++ [mk result])
  end.

(** [A] and [AAAA] store [net.ParseIP(result)] in the record: the nil IP
    for a text that does not parse, and one and the same IP for two texts
    of one address.  The set [dup] is keyed by the text. *)
Definition A (ParseIP : string -> IP) (gw : Gateway) (name : string)
  (results : list string) : list RR :=
  dedup_records (fun result => RR_A name (ttlLow gw) (ParseIP result)) results ∅ [].

Definition AAAA (ParseIP : string -> IP) (gw : Gateway) (name : string)
  (results : list string) : list RR :=
  dedup_records (fun result => RR_AAAA name (ttlLow gw) (ParseIP result)) results ∅ [].

Definition TXT (gw : Gateway) (name : string) (results : list string) : list RR :=
  dedup_records (fun result => RR_TXT name (ttlLow gw) (split255 result)) results ∅ [].

(** [state.Zone = zone]. *)
Definition set_Zone (zone : string) (state : Request) : Request :=
  {| QName := QName state; Name := Name state; QType_ := QType_ state; Zone := zone |}.

(** What [ServeDNS] does with a query. *)
Inductive Outcome :=
| NextOrFailure              (* return plugin.NextOrFailure(...) *)
| ServerFailure              (* return dns.RcodeServerFailure, plugin.Error(...) *)
| SubApex (state : Request)  (* return gw.serveSubApex(state) *)
| Replied (m : Msg)          (* w.WriteMsg(m); return dns.RcodeSuccess, nil *)
| Crashed.                   (* a panic *)

(** How the loop over [gw.Zones] in [ServeDNS] was left. *)
Inductive ZoneScan := ApexQuery | SubApexQuery | NoApex.

Section Handler.

(** [net.ParseIP] belongs to the Go library;
    [plugin.Zones(zones).Matches(qname)], [dns.IsSubDomain] and
    [gw.Fall.Through] belong to CoreDNS and miekg/dns; [soa],
    [nameservers] and the [ExternalAddrFunc] field build records from
    the request and the zone. *)
Variable ParseIP : string -> IP.
Variable Matches : list string -> string -> string.
Variable IsSubDomain : string -> string -> bool.
Variable Through : string -> bool.
Variable soa : Gateway -> Request -> RR.
Variable nameservers : Gateway -> Request -> list RR.
Variable ExternalAddrFunc : Request -> list RR.

Fixpoint scan_zones (gw : Gateway) (zones : list string) (state : Request) : ZoneScan :=
  match zones with
  | [] => NoApex
  | z :: rest =>
      if String.eqb (Name state) z then ApexQuery
      else if IsSubDomain (apex gw +:+ "." +:+ z) (Name state) then SubApexQuery
      else scan_zones gw rest state
  end.

(** The [switch state.QType()] of [ServeDNS], on the message made by
    [m.SetReply]. *)
Definition build_reply (gw : Gateway) (state : Request) (isRootZoneQuery : bool)
  (addrs : Bundle) : Msg :=
  let m := {| Rcode := RcodeSuccess; Authoritative := false;
              Answer := []; Ns := []; Extra := [] |} in
  let nxdomain_unless_root (m : Msg) : Msg :=
    if negb isRootZoneQuery then
      {| Rcode := RcodeNameError; Authoritative := Authoritative m;
         Answer := Answer m; Ns := Ns m; Extra := Extra m |}
    else m in
  let with_Ns (ns : list RR) (m : Msg) : Msg :=
    {| Rcode := Rcode m; Authoritative := Authoritative m;
       Answer := Answer m; Ns := ns; Extra := Extra m |} in
  let with_Answer (an : list RR) (m : Msg) : Msg :=
    {| Rcode := Rcode m; Authoritative := Authoritative m;
       Answer := an; Ns := Ns m; Extra := Extra m |} in
  let m :=
    match QType_ state with
    | TypeA =>
        if (length (mget addrs "A") =? 0)%nat then
          with_Ns [soa gw state] (nxdomain_unless_root m)
        else with_Answer (A ParseIP gw (Name state) (mget addrs "A")) m
    | TypeAAAA =>
        if (length (mget addrs "AAAA") =? 0)%nat then
          let m := nxdomain_unless_root m in
          (* as per rfc4074 #3 *)
          let m :=
            if (0 <? length (mget addrs "A"))%nat then
              {| Rcode := RcodeSuccess; Authoritative := Authoritative m;
                 Answer := Answer m; Ns := Ns m; Extra := Extra m |}
            else m in
          with_Ns [soa gw state] m
        else with_Answer (AAAA ParseIP gw (Name state) (mget addrs "AAAA")) m
    | TypeTXT =>
        if (length (mget addrs "TXT") =? 0)%nat then
          with_Ns [soa gw state] (nxdomain_unless_root m)
        else with_Answer (TXT gw (Name state) (mget addrs "TXT")) m
    | TypeSOA => with_Answer [soa gw state] m
    | TypeNS =>
        if isRootZoneQuery then
          let m := with_Answer (nameservers gw state) m in
          {| Rcode := Rcode m; Authoritative := Authoritative m;
             Answer := Answer m; Ns := Ns m;
             Extra := Extra m ++ map (set_Ttl (ttlSOA gw)) (ExternalAddrFunc state) |}
        else with_Ns [soa gw state] m
    | TypeOther => with_Ns [soa gw state] m
    end in
  {| Rcode := Rcode m; Authoritative := true;
     Answer := Answer m; Ns := Ns m; Extra := Extra m |}.

(** [qname[len(qname)-len(zone):]], the matched zone in the letter case
    of the query. *)
Definition query_zone (gw : Gateway) (state : Request) : string :=
  let qname := QName state in
  let zone := Matches (Zones gw) qname in
  GoString.from (String.length qname - String.length zone) qname.

(** [ServeDNS]; [state] arrives with an empty [Zone]. *)
Definition ServeDNS (gw : Gateway) (state : Request) : Outcome :=
  let qname := QName state in
  let zone := Matches (Zones gw) qname in
  if String.eqb zone "" then NextOrFailure
  else if negb (String.length zone <=? String.length qname)%nat then Crashed
  else
    (* maintain case of original query *)
    let zone := query_zone gw state in
    let state := set_Zone zone state in
    match getQueryIndexKeySets qname zone with
    | Panic => Crashed
    | Ret indexKeySets =>
        if negb (HasSynced (Controller gw)) then ServerFailure
        else
          match scan_zones gw (Zones gw) state with
          | SubApexQuery => SubApex state
          | scan =>
              let isRootZoneQuery :=
                match scan with ApexQuery => true | _ => false end in
              match fst (getMatchingAddresses (Resources gw) indexKeySets) with
              | Panic => Crashed
              | Ret addrs =>
                  if (length (mget addrs "A") =? 0)%nat
                     && (length (mget addrs "AAAA") =? 0)%nat
                     && (length (mget addrs "TXT") =? 0)%nat
                     && Through qname
                  then NextOrFailure
                  else Replied (build_reply gw state isRootZoneQuery addrs)
              end
          end
    end.

End Handler.

(** ** DNSEndpoint objects *)

(** [externaldnsv1.Endpoint] and [externaldnsv1.DNSEndpoint]: the fields
    the code reads. *)
Record Endpoint := {
  ep_DNSName : string;
  ep_RecordType : string;
  ep_Targets : list string
}.

Record DNSEndpoint := {
  de_Name : string;
  de_Endpoints : list Endpoint             (* Spec.Endpoints *)
}.

(** [dnsEndpointTargetIndexFunc] on an object that is a DNSEndpoint. *)
Definition dnsEndpointTargetIndexFunc (dnsEndpoint : DNSEndpoint) : list string :=
  map ep_DNSName (de_Endpoints dnsEndpoint).

Section DNSEndpoints.

Variable ParseAddr : string -> option Addr.

(** The body of [for _, target := range endpoint.Targets]: three tests on
    the record type in a row; [continue] leaves the body. *)
Definition lookupDNSEndpoint_target (recordType target : string)
  (result : gmap string (list string)) : gmap string (list string) :=
  let after_A :=
    if String.eqb recordType "A" then
      match ParseAddr target with
      | None => None                                           (* continue *)
      | Some addr => Some (append_at "A" [addr_String addr] (ensure "A" result))
      end
    else Some result in
  match after_A with
  | None => result
  | Some result =>
      let after_AAAA :=
        if String.eqb recordType "AAAA" then
          match ParseAddr target with
          | None => None                                       (* continue *)
          | Some addr => Some (append_at "AAAA" [addr_String addr] (ensure "AAAA" result))
          end
        else Some result in
      match after_AAAA with
      | None => result
      | Some result =>
          if String.eqb recordType "TXT" then
            append_at "TXT" [target] (ensure "TXT" result)
          else result
      end
  end.

Definition lookupDNSEndpoint_endpoint (endpoint : Endpoint)
  (result : gmap string (list string)) : gmap string (list string) :=
  fold_left (fun result target =>
               lookupDNSEndpoint_target (ep_RecordType endpoint) target result)
    (ep_Targets endpoint) result.

Definition lookupDNSEndpoint_object (dnsEndpoint : DNSEndpoint)
  (result : gmap string (list string)) : gmap string (list string) :=
  fold_left (fun result endpoint => lookupDNSEndpoint_endpoint endpoint result)
    (de_Endpoints dnsEndpoint) result.

Definition lookupDNSEndpoint (ctrl : string -> list DNSEndpoint)
  (indexKeys : list string) : go Bundle :=
  Ret (Some (fold_left (fun result dnsEndpoint =>
                          lookupDNSEndpoint_object dnsEndpoint result)
               (matched ctrl indexKeys) ∅)).

End DNSEndpoints.

(** ** The gateway index *)

(** What [meta.Accessor] reads of an object. *)
Record ObjectMeta := { meta_Namespace : string; meta_Name : string }.

(** [gatewayIndexFunc]: [None] stands for an object without metadata, for
    which the function returns the key [""] together with an error. *)
Definition gatewayIndexFunc (obj : option ObjectMeta) : list string * bool :=
  match obj with
  | None => ([""], false)
  | Some metaObj => ([meta_Namespace metaObj +:+ "/" +:+ meta_Name metaObj], true)
  end.

(** ** The registry of enabled kinds *)

Definition lookupResource (resources : list resourceWithIndex) (resource : string)
  : option resourceWithIndex :=
  List.find (fun r => String.eqb (name r) resource) resources.

(** [updateResources]: the new value of [gw.Resources], a slice of
    pointers of [staticResources]; [cells] is read for the names. *)
Definition updateResources (cells : Cells) (newResources : list string)
  : list ResourcePtr :=
  let resourceLookup : gmap string ResourcePtr :=
    fold_left (fun m resource =>
                 match cells !! resource with
                 | Some r => <[name r := resource]> m
                 | None => m
                 end) staticResources ∅ in
  fold_left (fun resources n =>
               match resourceLookup !! n with
               | Some resource => resources ++ [resource]
               | None => resources
               end)
    newResources [].

(** The informers [newKubeController] can create. *)
Inductive Informer :=
| GatewayInformer
| HTTPRouteInformer
| TLSRouteInformer
| GRPCRouteInformer
| IngressInformer
| ServiceInformer
| DNSEndpointInformer.

(** What [newKubeController] has built so far: [ctrl.controllers], and the
    kinds whose [lookup] field it has assigned. *)
Record Built := { controllers : list Informer; assigned : list string }.

Definition routeInformer (resourceName : string) : option Informer :=
  if String.eqb resourceName "HTTPRoute" then Some HTTPRouteInformer
  else if String.eqb resourceName "TLSRoute" then Some TLSRouteInformer
  else if String.eqb resourceName "GRPCRoute" then Some GRPCRouteInformer
  else None.

Definition coreInformer (resourceName : string) : option Informer :=
  if String.eqb resourceName "Ingress" then Some IngressInformer
  else if String.eqb resourceName "Service" then Some ServiceInformer
  else None.

(** One pass of a loop of [newKubeController] over resource names: a kind
    that is configured and found by [lookupResource] gets its informer
    and its lookup. *)
Definition build_kinds (informerOf : string -> option Informer)
  (configuredResources : list string) (resources : list resourceWithIndex)
  (names : list string) (b : Built) : Built :=
  fold_left
    (fun b resourceName =>
       if negb (slices_Contains configuredResources resourceName) then b
       else
         match lookupResource resources resourceName with
         | None => b
         | Some _ =>
             match informerOf resourceName with
             | Some informer =>
                 {| controllers := controllers b ++ [informer];
                    assigned := assigned b ++ [resourceName] |}
             | None => b
             end
         end)
    names b.

(** [newKubeController]; the two booleans are the answers of [crdExists]
    for [gatewayclasses.gateway.networking.k8s.io] and
    [dnsendpoints.externaldns.k8s.io], [configuredResources] is
    [dereferenceStrings(originalGateway.ConfiguredResources)] and
    [resources] is [originalGateway.Resources]. *)
Definition newKubeController (crdGatewayClasses crdDNSEndpoints : bool)
  (configuredResources : list string) (resources : list resourceWithIndex) : Built :=
  let routingResources := ["HTTPRoute"; "TLSRoute"; "GRPCRoute"] in
  let shouldInitGateway :=
    existsb (fun r => slices_Contains configuredResources r) routingResources in
  let b := {| controllers := []; assigned := [] |} in
  let b :=
    if crdGatewayClasses && shouldInitGateway then
      let b := {| controllers := controllers b ++ [GatewayInformer];
                  assigned := assigned b |} in
      build_kinds routeInformer configuredResources resources routingResources b
    else b in
  let b := build_kinds coreInformer configuredResources resources ["Ingress"; "Service"] b in
  if crdDNSEndpoints && slices_Contains configuredResources "DNSEndpoint" then
    match lookupResource resources "DNSEndpoint" with
    | Some _ => {| controllers := controllers b ++ [DNSEndpointInformer];
                   assigned := assigned b ++ ["DNSEndpoint"] |}
    | None => b
    end
  else b.

(** ** The plugin's own address *)

(** The loop of [SelfAddress] over [gw.Resources]: the addresses found
    under the apex label and under the second name-server label. *)
Fixpoint SelfAddress_loop (gw : Gateway) (resources : list resourceWithIndex)
  (addrs1 addrs2 : list string) : go (list string * list string) :=
  match resources with
  | [] => Ret (addrs1, addrs2)
  | resource :: rest =>
      let! results := lookup resource [apex gw] in
      let addrs1 :=
        if (0 <? length (mget results "A"))%nat then addrs1 ++ mget results "A"
        else addrs1 in
      let addrs1 :=
        if (0 <? length (mget results "AAAA"))%nat then addrs1 ++ mget results "AAAA"
        else addrs1 in
      let! results := lookup resource [secondNS gw] in
      let addrs2 :=
        if (0 <? length (mget results "A"))%nat then addrs2 ++ mget results "A"
        else addrs2 in
      let addrs2 :=
        if (0 <? length (mget results "AAAA"))%nat then addrs2 ++ mget results "AAAA"
        else addrs2 in
      SelfAddress_loop gw rest addrs1 addrs2
  end.

Definition SelfAddress (ParseIP : string -> IP) (gw : Gateway) (state : Request)
  : go (list RR) :=
  let! found := SelfAddress_loop gw (Resources gw) [] [] in
  let '(addrs1, addrs2) := found in
  let records := A ParseIP gw (apex gw +:+ "." +:+ Zone state) addrs1 in
  match QType_ state with
  | TypeNS => Ret (records ++ A ParseIP gw (secondNS gw +:+ "." +:+ Zone state) addrs2)
  | _ => Ret records
  end.

(** ** Values in first-seen order *)

(** The values of a list, each once, in the order of their first
    occurrence; [seen] holds the values met before. *)
Fixpoint first_seen (l : list string) (seen : gset string) : list string :=
  match l with
  | [] => []
  | x :: rest =>
      if bool_decide (x ∈ seen) then first_seen rest seen
      else x :: first_seen rest ({[x]} ∪ seen)
  end.

(** ** The key chain of a Service, as the indexing rule words it *)

(** The keys of a LoadBalancer Service read as a chain of fall-backs: the
    [coredns.io/hostname] annotation when present and valid; else the
    entries of the [external-dns] annotation that are valid; else
    ["<name>.<namespace>"].  An invalid first annotation falls through to
    the rest of the chain. *)
Definition chained_serviceHostnameKeys (IsDomainName : string -> bool)
  (service : Service) : list string :=
  let valid := checkDomainValid IsDomainName in
  let rest_of_chain :=
    match svc_Annotations service !! externalDnsHostnameAnnotationKey with
    | Some v => List.filter valid (splitHostnameAnnotation (GoString.ToLower v))
    | None => [svc_Name service +:+ "." +:+ svc_Namespace service]
    end in
  match svc_Annotations service !! hostnameAnnotationKey with
  | Some v => if valid (GoString.ToLower v) then [GoString.ToLower v] else rest_of_chain
  | None => rest_of_chain
  end.

(** ** Fixtures

    The lookups and tables of [gateway_test.go], and stand-ins for the
    library calls, used to run the definitions on concrete queries. *)

Module gateway_test.

(** [testServiceLookup], [testIngressLookup], [testRouteLookup] and
    [testDNSEndpointLookup] share this body; a key missing from the table
    reads as the nil map. *)
Definition testLookup (indexes : gmap string (gmap string (list string)))
  : lookupFunc :=
  fun keys =>
    Ret (fold_left
           (fun results key =>
              appenddnsResults results (indexes !! GoString.ToLower key))
           keys None).

Definition testServiceIndexes : gmap string (gmap string (list string)) :=
  <["svc1.ns1" := <["A" := ["192.0.1.1"; "192.0.1.2"]]>
                    (<["AAAA" := ["fd12:3456:789a:1::"]]> ∅)]>
  (<["svc2.ns1" := <["A" := ["192.0.1.3"]]> ∅]>
  (<["svc3.ns1" := ∅]>
  (<["dns1.kube-system" := <["A" := ["192.0.1.53"]]> ∅]> ∅))).

Definition testIngressIndexes : gmap string (gmap string (list string)) :=
  <["domain.example.com" := <["A" := ["192.0.0.1"]]> ∅]>
  (<["svc2.ns1.example.com" := <["A" := ["192.0.0.2"]]> ∅]>
  (<["example.com" := <["A" := ["192.0.0.3"]]> ∅]>
  (<["shadow.example.com" := <["A" := ["192.0.0.4"]]> ∅]>
  (<["shadow-vs.example.com" := <["A" := ["192.0.0.5"]]> ∅]>
  (<["*.wildcard.example.com" := <["A" := ["192.0.0.6"]]> ∅]>
  (<["specific-subdomain.wildcard.example.com" := <["A" := ["192.0.0.7"]]> ∅]>
   ∅)))))).

Definition testRouteIndexes : gmap string (gmap string (list string)) :=
  <["domain.gw.example.com" := <["A" := ["192.0.2.1"]]> ∅]>
  (<["shadow.example.com" := <["A" := ["192.0.2.4"]]> ∅]> ∅).

Definition testDNSEndpointIndexes : gmap string (gmap string (list string)) :=
  <["domain.endpoint.example.com" := <["A" := ["192.0.4.1"]]> ∅]>
  (<["endpoint.example.com" := <["A" := ["192.0.4.4"]]>
                                (<["TXT" := ["challenge"]]> ∅)]> ∅).

(** The values of [staticResources] after [setupLookupFuncs]. *)
Definition testResources : list resourceWithIndex :=
  [ {| name := "HTTPRoute"; lookup := testLookup testRouteIndexes |};
    {| name := "TLSRoute"; lookup := testLookup testRouteIndexes |};
    {| name := "GRPCRoute"; lookup := testLookup testRouteIndexes |};
    {| name := "Ingress"; lookup := testLookup testIngressIndexes |};
    {| name := "Service"; lookup := testLookup testServiceIndexes |};
    {| name := "DNSEndpoint"; lookup := testLookup testDNSEndpointIndexes |} ].

(** The plugin of [TestPlugin]: [newGateway()] with the zone
    [example.com.] and a synced controller. *)
Definition testGateway : Gateway :=
  {| Zones := ["example.com."];
     Resources := testResources;
     ttlLow := 60;
     ttlSOA := 60;
     Controller := {| hasSynced := true |};
     apex := "dns1.kube-system";
     hostmaster := "hostmaster";
     secondNS := "" |}.

(** The key sets of the query [svc2.ns1.example.com.] in the zone
    [example.com.] (Test 15 asks it for AAAA). *)
Definition svc2_specific : list string := ["svc2.ns1.example.com"; "svc2.ns1"].
Definition svc2_wildcard : list string := ["*.ns1.example.com"; "*.ns1"].

(** What [testLookup] returns for two keys of which one is in the table,
    and for two keys that are not. *)
Definition two_keys (found : Bundle) : Bundle :=
  appenddnsResults (appenddnsResults None found) None.

Definition svc2_query (qtype : QType) : Request :=
  {| QName := "svc2.ns1.example.com."; Name := "svc2.ns1.example.com.";
     QType_ := qtype; Zone := "" |}.

End gateway_test.

Module Fixture.

(** [suffix] ends [s]. *)
Definition has_suffix (s suffix : string) : bool :=
  (String.length suffix <=? String.length s)%nat
  && String.eqb (GoString.from (String.length s - String.length suffix) s) suffix.

(** Stand-in for [plugin.Zones.Matches]: the longest configured zone that
    ends the lower-cased name; the empty string when there is none. *)
Definition Matches (zones : list string) (qname : string) : string :=
  fold_left
    (fun best z =>
       if has_suffix (GoString.ToLower qname) z
          && (String.length best <? String.length z)%nat
       then z else best)
    zones "".

(** Stand-in for [dns.IsSubDomain]: [child] ends with [parent]. *)
Definition IsSubDomain (parent child : string) : bool :=
  has_suffix child parent.

(** No fallthrough zones are configured. *)
Definition Through (qname : string) : bool := false.

(** Modelled from the spec: [soa] is defined outside the files at hand.
    "The SOA is formed from the zone, [<apex-label>.<zone>] as MNAME, a
    configured hostmaster local-part", with the SOA TTL. *)
Definition soa (gw : Gateway) (state : Request) : RR :=
  RR_SOA (Zone state) (ttlSOA gw)
    (apex gw +:+ "." +:+ Zone state)
    (hostmaster gw +:+ "." +:+ apex gw +:+ "." +:+ Zone state).

(** Modelled from the spec: [nameservers] is defined outside the files at
    hand.  "Answer = NS record(s) for [<apex-label>.<zone>]". *)
Definition nameservers (gw : Gateway) (state : Request) : list RR :=
  [RR_NS (Zone state) (ttlSOA gw) (apex gw +:+ "." +:+ Zone state)].

Definition ExternalAddrFunc (state : Request) : list RR := [].

Definition is_digit_or (extra : ascii -> bool) (c : ascii) : bool :=
  let n := nat_of_ascii c in
  ((48 <=? n)%nat && (n <=? 57)%nat) || extra c.

Definition is_hex_or_colon (c : ascii) : bool :=
  let n := nat_of_ascii c in
  ((97 <=? n)%nat && (n <=? 102)%nat) || Ascii.eqb c ":".

(** Stand-in for [netip.ParseAddr] on addresses already in canonical
    form: digits and dots are IPv4, hexadecimal digits with a colon are
    IPv6, anything else is an error. *)
Definition ParseAddr (s : string) : option Addr :=
  if String.eqb s "" then None
  else if all_bytes (is_digit_or (fun c => Ascii.eqb c ".")) s then
    Some {| addr_family := V4; addr_String := s |}
  else if all_bytes (is_digit_or is_hex_or_colon) s then
    Some {| addr_family := V6; addr_String := s |}
  else None.

Definition digit_value (c : ascii) : option N :=
  let n := N_of_ascii c in
  if ((48 <=? n) && (n <=? 57))%N then Some (n - 48)%N else None.

Definition hex_value (c : ascii) : option N :=
  let n := N_of_ascii c in
  if ((48 <=? n) && (n <=? 57))%N then Some (n - 48)%N
  else if ((97 <=? n) && (n <=? 102))%N then Some (n - 87)%N
  else if ((65 <=? n) && (n <=? 70))%N then Some (n - 55)%N
  else None.

Fixpoint number (base : N) (value : ascii -> option N) (s : string) (acc : N)
  : option N :=
  match s with
  | EmptyString => Some acc
  | String c s' =>
      match value c with
      | Some d => number base value s' (acc * base + d)%N
      | None => None
      end
  end.

(** One decimal field of a dotted quad. *)
Definition dec_field (s : string) : option N :=
  if String.eqb s "" || (3 <? String.length s)%nat then None
  else
    match number 10 digit_value s 0 with
    | Some n => if (n <=? 255)%N then Some n else None
    | None => None
    end.

Definition dotted_quad (s : string) : option (list N) :=
  match GoString.Split s "." with
  | [a; b; c; d] =>
      match dec_field a, dec_field b, dec_field c, dec_field d with
      | Some a, Some b, Some c, Some d => Some [a; b; c; d]
      | _, _, _, _ => None
      end
  | _ => None
  end.

(** One hexadecimal group of an IPv6 text, as two bytes. *)
Definition hex_group (s : string) : option (list N) :=
  if String.eqb s "" || (4 <? String.length s)%nat then None
  else
    match number 16 hex_value s 0 with
    | Some n => Some [(n / 256)%N; (n mod 256)%N]
    | None => None
    end.

(** The bytes of colon-separated groups; the last one may be a dotted
    quad when [quad] allows it. *)
Fixpoint groups_bytes (quad : bool) (groups : list string) : option (list N) :=
  match groups with
  | [] => Some []
  | g :: rest =>
      let here :=
        match rest, (if quad then dotted_quad g else None) with
        | [], Some b => Some b
        | _, _ => hex_group g
        end in
      match here, groups_bytes quad rest with
      | Some a, Some b => Some (a ++ b)
      | _, _ => None
      end
  end.

(** The text before and after the first [::]. *)
Fixpoint cut_ellipsis (s left : string) : option (string * string) :=
  match s with
  | EmptyString => None
  | String c s' =>
      match s' with
      | String c' rest =>
          if Ascii.eqb c ":" && Ascii.eqb c' ":" then Some (left, rest)
          else cut_ellipsis s' (left +:+ String c "")
      | EmptyString => None
      end
  end.

Definition side_bytes (quad : bool) (s : string) : option (list N) :=
  if String.eqb s "" then Some [] else groups_bytes quad (GoString.Split s ":").

(** Stand-in for [net.ParseIP]: the sixteen bytes of a dotted quad (as an
    IPv4-mapped address) or of an IPv6 text with at most one [::]; the nil
    IP for anything else. *)
Definition ParseIP (s : string) : IP :=
  match dotted_quad s with
  | Some b => Some ([0; 0; 0; 0; 0; 0; 0; 0; 0; 0; 255; 255] ++ b)%N
  | None =>
      match cut_ellipsis s "" with
      | None =>
          match groups_bytes true (GoString.Split s ":") with
          | Some b => if (length b =? 16)%nat then Some b else None
          | None => None
          end
      | Some (l, r) =>
          match side_bytes false l, side_bytes true r with
          | Some a, Some b =>
              if (length a + length b <? 16)%nat then
                Some (a ++ repeat 0%N (16 - (length a + length b)) ++ b)
              else None
          | _, _ => None
          end
      end
  end.

(** The resolver knows no host. *)
Definition LookupIP (host : string) : option (list string) := None.

(** The most permissive [dns.IsDomainName]. *)
Definition IsDomainName (s : string) : bool := true.

Definition ip_address (value : string) : GatewayStatusAddress :=
  {| gsa_Type := Some IPAddressType; gsa_Value := value |}.

(** A gateway index with [infra/gw1] at 10.0.0.1 and [apps/gw2] at
    10.0.0.2. *)
Definition gatewayIndex (gwKey : string) : list gatewayapi_v1.Gateway :=
  if String.eqb gwKey "infra/gw1" then
    [ {| gw_GatewayClassName := "cilium"; gw_Addresses := [ip_address "10.0.0.1"] |} ]
  else if String.eqb gwKey "apps/gw2" then
    [ {| gw_GatewayClassName := "cilium"; gw_Addresses := [ip_address "10.0.0.2"] |} ]
  else [].

(** A route of namespace [apps] under two parents: [gw1] of namespace
    [infra], and [gw2] with no namespace of its own. *)
Definition parentRefs : list ParentReference :=
  [ {| pr_Namespace := Some "infra"; pr_Name := "gw1" |};
    {| pr_Namespace := None; pr_Name := "gw2" |} ].

Definition lb_ip (ip : string) : LoadBalancerIngress :=
  {| lb_Hostname := ""; lb_IP := ip |}.

(** An Ingress on [app.example.com] with no class name. *)
Definition classless : Ingress :=
  {| ing_Name := "app"; ing_Hosts := ["app.example.com"];
     ing_IngressClassName := None; ing_Ingress := [lb_ip "192.0.0.9"] |}.

Definition ingressIndex (key : string) : list Ingress :=
  if String.eqb key "app.example.com" then [classless] else [].

Definition service (n : string) (annotations : gmap string string)
  (externalIPs : list string) (status : list LoadBalancerIngress) : Service :=
  {| svc_Name := n; svc_Namespace := "ns1"; svc_Annotations := annotations;
     svc_Type := LoadBalancer; svc_ExternalIPs := externalIPs;
     svc_Ingress := status |}.

(** Three Services under one key: the first with a status address only,
    the second with external IPs, the third with a status address. *)
Definition serviceIndex (key : string) : list Service :=
  if String.eqb key "svc.ns1" then
    [ service "a" ∅ [] [lb_ip "192.0.1.1"];
      service "b" ∅ ["198.51.100.7"; "2001:db8::7"] [lb_ip "192.0.1.2"];
      service "c" ∅ ["198.51.100.8"] [lb_ip "192.0.1.3"] ]
  else [].

(** A Service whose [coredns.io/hostname] annotation is not a host name. *)
Definition misannotated : Service :=
  service "svc1" (<[hostnameAnnotationKey := "Not_A_Host"]>
                  (<[externalDnsHostnameAnnotationKey := "App.Example.Com, api.example.com"]> ∅))
    [] [].

End Fixture.

(** ** Auxiliary notions for the properties *)

(** No dot in a label. *)
Definition dot_free (l : string) : bool :=
  all_bytes (fun c => negb (Ascii.eqb c ".")) l.

Definition family_eqb (a b : Family) : bool :=
  match a, b with
  | V4, V4 | V6, V6 => true
  | _, _ => false
  end.

(** The canonical texts of the addresses of one family among [ips], in
    order; what does not parse is left out. *)
Definition parsed_of (ParseAddr : string -> option Addr) (fam : Family)
  (ips : list string) : list string :=
  flat_map (fun ip =>
              match ParseAddr ip with
              | Some addr => if family_eqb (addr_family addr) fam then [addr_String addr] else []
              | None => []
              end) ips.

(** The addresses of one family that one load-balancer status entry
    stands for: those its host name resolves to when it has a host name,
    else its IP. *)
Definition lb_addresses (ParseAddr : string -> option Addr)
  (LookupIP : string -> option (list string)) (fam : Family)
  (address : LoadBalancerIngress) : list string :=
  if negb (String.eqb (lb_Hostname address) "") then
    match LookupIP (lb_Hostname address) with
    | Some ips => parsed_of ParseAddr fam ips
    | None => []
    end
  else if negb (String.eqb (lb_IP address) "") then parsed_of ParseAddr fam [lb_IP address]
  else [].

(** The canonical texts of the targets that parse, whatever their family. *)
Definition parsed_any (ParseAddr : string -> option Addr) (targets : list string)
  : list string :=
  flat_map (fun target =>
              match ParseAddr target with
              | Some addr => [addr_String addr]
              | None => []
              end) targets.

(** What one target of an endpoint of record type [recordType] adds to
    the list under the key [k]. *)
Definition target_values (ParseAddr : string -> option Addr) (k recordType target : string)
  : list string :=
  if String.eqb recordType k then
    if String.eqb k "TXT" then [target]
    else if String.eqb k "A" || String.eqb k "AAAA" then parsed_any ParseAddr [target]
    else []
  else [].

Definition endpoint_values (ParseAddr : string -> option Addr) (k : string)
  (endpoint : Endpoint) : list string :=
  flat_map (target_values ParseAddr k (ep_RecordType endpoint)) (ep_Targets endpoint).

(** An Ingress that a class filter lets through. *)
Definition class_allowed (ingclasses : list string) (ingress : Ingress) : bool :=
  match ing_IngressClassName ingress with
  | Some class => slices_Contains ingclasses class
  | None => false
  end.

(** ** More fixtures *)

Module Sample.

Definition ingress (n class ip : string) : Ingress :=
  {| ing_Name := n; ing_Hosts := ["app.example.com"];
     ing_IngressClassName := Some class; ing_Ingress := [Fixture.lb_ip ip] |}.

(** Two Ingresses on one host, of the classes [nginx] and [traefik]. *)
Definition ingressIndex (key : string) : list Ingress :=
  if String.eqb key "app.example.com" then
    [ingress "web" "nginx" "192.0.0.10"; ingress "internal" "traefik" "192.0.0.11"]
  else [].

(** The DNSEndpoint object [default/test] of the repository's example
    manifest. *)
Definition dnsEndpoint : DNSEndpoint :=
  {| de_Name := "test";
     de_Endpoints :=
       [ {| ep_DNSName := "test.example.com"; ep_RecordType := "CNAME";
            ep_Targets := ["ipv4.example.com"] |};
         {| ep_DNSName := "test2.example.dev"; ep_RecordType := "A";
            ep_Targets := ["192.168.30.1"] |};
         {| ep_DNSName := "test3.example.dev"; ep_RecordType := "AAAA";
            ep_Targets := ["2001:0db8:85a3:0000:0000:8a2e:0370:7334"] |};
         {| ep_DNSName := "test4.example.dev"; ep_RecordType := "TXT";
            ep_Targets := ["challenge"] |} ] |}.

(** The informer's index over that one object. *)
Definition dnsEndpointIndex (key : string) : list DNSEndpoint :=
  if slices_Contains (dnsEndpointTargetIndexFunc dnsEndpoint) key then [dnsEndpoint]
  else [].

Definition query (qname : string) (qtype : QType) : Request :=
  {| QName := qname; Name := qname; QType_ := qtype; Zone := "" |}.

(** The test plugin before its controller has synced. *)
Definition unsynced : Gateway :=
  {| Zones := Zones gateway_test.testGateway;
     Resources := Resources gateway_test.testGateway;
     ttlLow := 60; ttlSOA := 60;
     Controller := {| hasSynced := false |};
     apex := "dns1.kube-system"; hostmaster := "hostmaster"; secondNS := "" |}.

(** A plugin whose Service kind knows its own address in both families. *)
Definition selfResource : resourceWithIndex :=
  {| name := "Service";
     lookup := gateway_test.testLookup
                 (<["dns1.kube-system" := <["A" := ["192.0.1.53"]]>
                                            (<["AAAA" := ["fd12:3456:789a:1::53"]]> ∅)]> ∅) |}.

Definition selfGateway : Gateway :=
  {| Zones := ["example.com."]; Resources := [selfResource];
     ttlLow := 60; ttlSOA := 60;
     Controller := {| hasSynced := true |};
     apex := "dns1.kube-system"; hostmaster := "hostmaster"; secondNS := "" |}.

Definition selfQuery : Request :=
  {| QName := "dns1.kube-system.example.com."; Name := "dns1.kube-system.example.com.";
     QType_ := TypeA; Zone := "example.com." |}.

End Sample.

(** A query that [ServeDNS] takes as far as the engine: its name is in a
    configured zone no longer than the name, the controller has synced,
    the loop over the zones ends without a name under the apex label
    ([isRootZoneQuery] tells whether it met the apex), and the engine
    returns [addrs] for its key sets. *)
Definition resolved (Matches : list string -> string -> string)
  (IsSubDomain : string -> string -> bool) (gw : Gateway) (state : Request)
  (isRootZoneQuery : bool) (addrs : Bundle) : Prop :=
  Matches (Zones gw) (QName state) <> ""
  /\ (String.length (Matches (Zones gw) (QName state)) <= String.length (QName state))%nat
  /\ HasSynced (Controller gw) = true
  /\ scan_zones IsSubDomain gw (Zones gw) (set_Zone (query_zone Matches gw state) state)
     = (if isRootZoneQuery then ApexQuery else NoApex)
  /\ exists indexKeySets,
      getQueryIndexKeySets (QName state) (query_zone Matches gw state) = Ret indexKeySets
      /\ fst (getMatchingAddresses (Resources gw) indexKeySets) = Ret addrs.

(** The position of a name in a list of names. *)
Fixpoint index_of (n : string) (names : list string) : option nat :=
  match names with
  | [] => None
  | x :: rest => if String.eqb x n then Some 0%nat else option_map S (index_of n rest)
  end.

(** No slash in a namespace. *)
Definition slash_free (s : string) : bool :=
  all_bytes (fun c => negb (Ascii.eqb c "/")) s.

(** A kind that is configured and that [lookupResource] finds. *)
Definition enabled (configuredResources : list string)
  (resources : list resourceWithIndex) (resourceName : string) : bool :=
  slices_Contains configuredResources resourceName
  && match lookupResource resources resourceName with
     | Some _ => true
     | None => false
     end.

(** * Properties *)

(** ** Strings *)

Lemma append_String (c : ascii) (a b : string) :
  String c a +:+ b = String c (a +:+ b).
Proof. reflexivity. Qed.

Lemma append_empty_l (s : string) : "" +:+ s = s.
Proof. reflexivity. Qed.

Lemma append_empty_r (s : string) : s +:+ "" = s.
Proof. induction s as [|c s IH]; [reflexivity|]. now rewrite append_String, IH. Qed.

Lemma append_assoc (a b c : string) : (a +:+ b) +:+ c = a +:+ (b +:+ c).
Proof.
  induction a as [|x a IH]; [reflexivity|].
  now rewrite !append_String, IH.
Qed.

Lemma append_length (a b : string) :
  String.length (a +:+ b) = String.length a + String.length b.
Proof.
  induction a as [|x a IH]; [reflexivity |].
  rewrite append_String. simpl. now rewrite IH.
Qed.

Lemma prefix_length (n : nat) (s : string) :
  String.length (GoString.prefix n s) = Nat.min n (String.length s).
Proof.
  revert s; induction n as [|n IH]; intros [|c s]; simpl; auto.
Qed.

Lemma from_length (n : nat) (s : string) :
  String.length (GoString.from n s) = String.length s - n.
Proof.
  revert s; induction n as [|n IH]; intros [|c s]; simpl; auto.
Qed.

Lemma prefix_from (n : nat) (s : string) :
  GoString.prefix n s +:+ GoString.from n s = s.
Proof.
  revert s; induction n as [|n IH]; intros [|c s]; simpl; auto.
  now rewrite append_String, IH.
Qed.

Lemma prefix_add (p k : nat) (s : string) :
  GoString.prefix (p + k) s = GoString.prefix p s +:+ GoString.prefix k (GoString.from p s).
Proof.
  revert s; induction p as [|p IH]; intros s; simpl; auto.
  destruct s as [|c s]; simpl; [now destruct k|].
  now rewrite append_String, IH.
Qed.

Lemma prefix_all (n : nat) (s : string) :
  String.length s <= n -> GoString.prefix n s = s.
Proof.
  revert s; induction n as [|n IH]; intros [|c s]; simpl; intros H; auto; try lia.
  rewrite IH; auto; lia.
Qed.

Lemma from_all (n : nat) (s : string) :
  String.length s <= n -> GoString.from n s = "".
Proof.
  revert s; induction n as [|n IH]; intros [|c s]; simpl; intros H; auto; try lia.
  apply IH; lia.
Qed.

Lemma concat_app (l1 l2 : list string) :
  GoString.concat (l1 ++ l2) = GoString.concat l1 +:+ GoString.concat l2.
Proof.
  induction l1 as [|x l1 IH]; simpl; auto.
  now rewrite IH, append_assoc.
Qed.

Lemma replicate_length (n : nat) (c : ascii) :
  String.length (GoString.replicate n c) = n.
Proof. induction n; simpl; auto. Qed.

(** ** [split255] *)

(** What the loop keeps true: the chunks taken so far are the first [p]
    bytes of [s], and [i] runs 255 ahead of [p]. *)
Lemma split255_loop_concat (s : string) (p i : nat) (sx : list string) :
  i = p + 255 -> p <= String.length s ->
  GoString.concat sx = GoString.prefix p s ->
  GoString.concat (split255_loop s p i sx) = s.
Proof.
  funelim (split255_loop s p i sx); intros Hi Hp Hsx.
  - apply H; auto; try lia.
    rewrite concat_app, Hsx. simpl. rewrite append_empty_r.
    unfold GoString.slice.
    replace (i - p) with 255 by lia.
    now rewrite prefix_add.
  - rewrite concat_app, Hsx. simpl. rewrite append_empty_r.
    apply prefix_from.
Qed.

(** The two ways through one round of the loop. *)
Lemma split255_loop_continue (s : string) (p i : nat) (sx : list string) :
  i <= String.length s ->
  split255_loop s p i sx
  = split255_loop s (p + 255) (i + 255) (sx ++ [GoString.slice p i s]).
Proof.
  intros Hi. rewrite split255_loop_equation_1.
  destruct (le_lt_dec i (String.length s)); simpl; [reflexivity | lia].
Qed.

Lemma split255_loop_stop (s : string) (p i : nat) (sx : list string) :
  String.length s < i ->
  split255_loop s p i sx = sx ++ [GoString.from p s].
Proof.
  intros Hi. rewrite split255_loop_equation_1.
  destruct (le_lt_dec i (String.length s)); simpl; [lia | reflexivity].
Qed.

Lemma split255_loop_bound (s : string) (p i : nat) (sx : list string) :
  i = p + 255 ->
  Forall (fun chunk => String.length chunk <= 255) sx ->
  Forall (fun chunk => String.length chunk <= 255) (split255_loop s p i sx).
Proof.
  funelim (split255_loop s p i sx); intros Hi Hsx.
  - apply H; [lia |].
    apply Forall_app; split; [assumption |].
    constructor; [| constructor].
    unfold GoString.slice. rewrite prefix_length. lia.
  - apply Forall_app; split; [assumption |].
    constructor; [| constructor].
    rewrite from_length. lia.
Qed.

(** Every string comes back whole, ... *)
Lemma split255_concat (s : string) : GoString.concat (split255 s) = s.
Proof.
  unfold split255. destruct (String.length s <? 255)%nat eqn:Hlt.
  - simpl. apply append_empty_r.
  - apply Nat.ltb_ge in Hlt.
    apply split255_loop_concat; simpl; auto; lia.
Qed.

(** ... in chunks of at most 255 bytes. *)
Lemma split255_bound (s : string) :
  Forall (fun chunk => String.length chunk <= 255) (split255 s).
Proof.
  unfold split255. destruct (String.length s <? 255)%nat eqn:Hlt.
  - apply Nat.ltb_lt in Hlt. constructor; [lia | constructor].
  - apply split255_loop_bound; [reflexivity | constructor].
Qed.

(** When the string ends exactly where a chunk ends, the round after the
    last full chunk still appends [s[p:]], which is empty. *)
Lemma split255_loop_last (s : string) (p i : nat) (sx : list string) :
  i = p + 255 -> String.length s = i ->
  split255_loop s p i sx = sx ++ [GoString.slice p i s; ""].
Proof.
  intros Hi Hlen.
  rewrite split255_loop_continue by lia.
  rewrite split255_loop_stop by lia.
  rewrite <- app_assoc. f_equal.
  rewrite from_all by lia. reflexivity.
Qed.

(** C8: a string of exactly 255 bytes is not returned as one chunk.  The
    first test lets only strings shorter than 255 bytes through; in the
    loop the first round takes [s[0:255]], and the second round, where
    [i = 510 > len(s)], appends [s[255:]], the empty string.  The result
    has two chunks and the second one is empty. *)
Theorem split255_exactly_255_bytes (s : string) :
  String.length s = 255 ->
  split255 s = [s; ""].
Proof.
  intros Hlen. unfold split255.
  replace (String.length s <? 255)%nat with false
    by (symmetry; apply Nat.ltb_ge; lia).
  rewrite (split255_loop_last s 0 255 []) by lia.
  unfold GoString.slice.
  rewrite prefix_all by (rewrite from_length; lia).
  reflexivity.
Qed.

Lemma split255_exactly_255_bytes_witness :
  String.length (GoString.replicate 255 "a") = 255 /\
  split255 (GoString.replicate 255 "a") = [GoString.replicate 255 "a"; ""].
Proof.
  split; [vm_compute; reflexivity |].
  apply split255_exactly_255_bytes. vm_compute; reflexivity.
Defined.

(** ** Key sets *)

Lemma Split_aux_cons (sep : ascii) (s cur : string) :
  exists first rest, GoString.Split_aux sep s cur = first :: rest.
Proof.
  revert cur; induction s as [|c s IH]; intros cur; simpl.
  - now exists cur, [].
  - destruct (Ascii.eqb c sep); [now exists cur, (GoString.Split_aux sep s "") | apply IH].
Qed.

Lemma Join_cons_cons (p q : string) (rest : list string) (sep : string) :
  GoString.Join (p :: q :: rest) sep = p +:+ sep +:+ GoString.Join (q :: rest) sep.
Proof. reflexivity. Qed.

Lemma Join_snoc_length (parts : list string) (zone sep : string) :
  String.length zone <= String.length (GoString.Join (parts ++ [zone]) sep).
Proof.
  induction parts as [|p ps IH]; [simpl; lia |].
  change ((p :: ps) ++ [zone]) with (p :: (ps ++ [zone])).
  destruct (ps ++ [zone]) as [|q rest] eqn:E.
  - now destruct ps.
  - rewrite Join_cons_cons, !append_length. lia.
Qed.

Lemma getQueryIndexKeys_returns (qName zone : string) :
  String.length zone <= String.length qName ->
  exists indexKeys, getQueryIndexKeys qName zone = Ret indexKeys.
Proof.
  intros Hlen. unfold getQueryIndexKeys, stripDomain.
  apply Nat.leb_le in Hlen. rewrite Hlen. simpl go_bind.
  match goal with |- context [if ?b then _ else _] => destruct b end; eauto.
Qed.

(** [strings.Split] never returns an empty slice, so the test
    [len(parts) == 0] never succeeds: the wildcard name always starts with
    ["*."] and ends with the zone. *)
Lemma toWildcardQName_returns (qName zone : string) :
  String.length zone <= String.length qName ->
  exists wildcardQName,
    toWildcardQName qName zone = Ret wildcardQName /\
    String.eqb wildcardQName "" = false /\
    String.length zone <= String.length wildcardQName.
Proof.
  intros Hlen. unfold toWildcardQName, stripDomain.
  apply Nat.leb_le in Hlen. rewrite Hlen. simpl go_bind.
  unfold GoString.Split.
  destruct (Split_aux_cons "." (stripClosingDot
    (GoString.prefix (String.length qName - String.length zone) qName)) "")
    as (first & rest & ->).
  simpl length. simpl Nat.eqb. cbv iota.
  eexists; split; [reflexivity |]. split.
  - simpl insert. change (("*" :: rest) ++ [zone]) with ("*" :: (rest ++ [zone])).
    destruct (rest ++ [zone]) as [|q r] eqn:E; [now destruct rest |].
    rewrite Join_cons_cons. reflexivity.
  - apply Join_snoc_length.
Qed.

(** Whenever the zone is not longer than the name, the engine gets two key
    sets. *)
Lemma getQueryIndexKeySets_two (qName zone : string) :
  String.length zone <= String.length qName ->
  exists specificIndexKeys wildcardIndexKeys,
    getQueryIndexKeySets qName zone = Ret [specificIndexKeys; wildcardIndexKeys].
Proof.
  intros Hlen. unfold getQueryIndexKeySets.
  destruct (getQueryIndexKeys_returns qName zone Hlen) as (specific & ->).
  destruct (toWildcardQName_returns qName zone Hlen) as (w & -> & Hne & Hw).
  simpl go_bind. rewrite Hne.
  destruct (getQueryIndexKeys_returns w zone Hw) as (wildcard & ->).
  simpl go_bind. eauto.
Qed.

(** C2: at the zone apex the wildcard key set is not left out.  The name
    without its zone is the empty string, [strings.Split] of the empty
    string is the one-element slice of the empty string, so
    [toWildcardQName] goes on to build ["*." + zone] and
    [getQueryIndexKeySets] returns two key sets: the specific one and the
    keys derived from ["*." + zone]. *)
Theorem getQueryIndexKeySets_apex_has_wildcard (zone : string) :
  toWildcardQName zone zone = Ret ("*." +:+ zone) /\
  exists wildcardIndexKeys,
    getQueryIndexKeys ("*." +:+ zone) zone = Ret wildcardIndexKeys /\
    getQueryIndexKeySets zone zone
    = Ret [[stripClosingDot zone]; wildcardIndexKeys].
Proof.
  assert (Hw : toWildcardQName zone zone = Ret ("*." +:+ zone)).
  { unfold toWildcardQName, stripDomain.
    rewrite Nat.leb_refl, Nat.sub_diag. reflexivity. }
  split; [exact Hw |].
  destruct (getQueryIndexKeys_returns ("*." +:+ zone) zone) as (wildcard & Hk).
  { rewrite append_length. lia. }
  exists wildcard. split; [exact Hk |].
  unfold getQueryIndexKeySets. rewrite Hw.
  unfold getQueryIndexKeys at 1. unfold stripDomain.
  rewrite Nat.leb_refl, Nat.sub_diag. simpl go_bind.
  change (String.eqb ("*." +:+ zone) "") with false. cbv iota.
  now rewrite Hk.
Qed.

(** The apex of [example.com.], evaluated. *)
Example getQueryIndexKeySets_example_com_apex :
  getQueryIndexKeySets "example.com." "example.com."
  = Ret [["example.com"]; ["*.example.com"; "*"]].
Proof. vm_compute. reflexivity. Qed.

(** Below the apex: the specific keys, and the keys of the name with its
    first label replaced by [*]. *)
Example getQueryIndexKeySets_example_com_host :
  getQueryIndexKeySets "svc1.ns1.example.com." "example.com."
  = Ret [["svc1.ns1.example.com"; "svc1.ns1"];
         ["*.ns1.example.com"; "*.ns1"]].
Proof. vm_compute. reflexivity. Qed.

(** ** The controller's flag *)

(** With the channel open the wait returns [true] at the first poll at
    which the informers have synced, and is still polling before it. *)
Lemma WaitForCacheSync_open (synced : nat -> bool) (now polls : nat) :
  (WaitForCacheSync (fun _ => false) synced now polls = Waiting
   /\ forall t, (now <= t < now + polls)%nat -> synced t = false)
  \/ (WaitForCacheSync (fun _ => false) synced now polls = WaitReturned true
      /\ exists t, (now <= t < now + polls)%nat /\ synced t = true).
Proof.
  revert now; induction polls as [|polls IH]; intros now; cbn [WaitForCacheSync].
  - left. split; [reflexivity |]. intros t Ht. lia.
  - destruct (synced now) eqn:E.
    + right. split; [reflexivity |]. exists now. split; [lia | exact E].
    + destruct (IH (S now)) as [[-> Hnone] | [-> (t & Ht & Hs)]].
      * left. split; [reflexivity |]. intros t Ht.
        destruct (Nat.eq_dec t now) as [-> | Hne]; [exact E | apply Hnone; lia].
      * right. split; [reflexivity |]. exists t. split; [lia | exact Hs].
Qed.

(** The flag after [run] has been followed through [polls] polls, for a
    controller that starts with the flag down: it is up exactly when the
    informers had synced at one of the polls. *)
Lemma run_HasSynced (synced : nat -> bool) (polls : nat) (ctrl : KubeController) :
  hasSynced ctrl = false ->
  HasSynced (run synced polls ctrl) = true
  <-> exists t, (t < polls)%nat /\ synced t = true.
Proof.
  intros Hctrl. unfold run, HasSynced.
  destruct (WaitForCacheSync_open synced 0 polls) as [[-> Hnone] | [-> (t & Ht & Hs)]].
  - rewrite Hctrl. split; [discriminate |].
    intros (t & Ht & Hs). rewrite Hnone in Hs by lia. discriminate.
  - cbn. split; [| reflexivity]. intros _. exists t. split; [lia | exact Hs].
Qed.



(** Once the informers have synced the flag goes up and stays up. *)
Example run_synced_at_third_poll :
  HasSynced (run (fun t => (2 <=? t)%nat) 2 {| hasSynced := false |}) = false
  /\ HasSynced (run (fun t => (2 <=? t)%nat) 3 {| hasSynced := false |}) = true
  /\ HasSynced (run (fun t => (2 <=? t)%nat) 50 {| hasSynced := false |}) = true.
Proof. repeat split. Qed.

(** X21: the sync gate.  A query whose name is in a configured zone,
    received while the flag is false, is answered with a server failure,
    whatever its type and whatever the lookups would return: the engine
    is not asked and the query does not fall through. *)
Lemma ServeDNS_not_synced ParseIP Matches IsSubDomain Through soa nameservers ExternalAddrFunc
  (gw : Gateway) (state : Request) :
  Matches (Zones gw) (QName state) <> "" ->
  (String.length (Matches (Zones gw) (QName state)) <= String.length (QName state))%nat ->
  HasSynced (Controller gw) = false ->
  ServeDNS ParseIP Matches IsSubDomain Through soa nameservers ExternalAddrFunc gw state
  = ServerFailure.
Proof.
  intros Hzone Hlen Hsync. unfold ServeDNS.
  destruct (String.eqb_spec (Matches (Zones gw) (QName state)) "") as [E | _];
    [contradiction |].
  rewrite (proj2 (Nat.leb_le _ _) Hlen). simpl negb. cbv iota.
  destruct (getQueryIndexKeySets_two (QName state) (query_zone Matches gw state))
    as (specific & wildcard & ->).
  { unfold query_zone. rewrite from_length. lia. }
  now rewrite Hsync.
Qed.

(** ** Bundles *)

Lemma default_ensure (k k' : string) (g : gmap string (list string)) :
  default [] (ensure k g !! k') = default [] (g !! k').
Proof.
  unfold ensure. destruct (g !! k) eqn:E; [reflexivity |].
  destruct (decide (k = k')) as [-> | Hne].
  - now rewrite lookup_insert_eq, E.
  - now rewrite lookup_insert_ne.
Qed.

Lemma ensure_is_Some (k : string) (g : gmap string (list string)) :
  is_Some (ensure k g !! k).
Proof.
  unfold ensure. destruct (g !! k) eqn:E.
  - rewrite E. eauto.
  - rewrite lookup_insert_eq. eauto.
Qed.

Lemma ensure_keeps (k k' : string) (g : gmap string (list string)) :
  is_Some (g !! k') -> is_Some (ensure k g !! k').
Proof.
  unfold ensure. destruct (g !! k) eqn:E; [auto |].
  destruct (decide (k = k')) as [-> | Hne].
  - rewrite lookup_insert_eq. eauto.
  - now rewrite lookup_insert_ne.
Qed.

Lemma append_at_is_Some (k : string) (vs : list string) (g : gmap string (list string)) :
  is_Some (append_at k vs g !! k).
Proof. unfold append_at. rewrite lookup_insert_eq. eauto. Qed.

Lemma append_at_keeps (k k' : string) (vs : list string) (g : gmap string (list string)) :
  is_Some (g !! k') -> is_Some (append_at k vs g !! k').
Proof.
  unfold append_at. destruct (decide (k = k')) as [-> | Hne].
  - rewrite lookup_insert_eq. eauto.
  - now rewrite lookup_insert_ne.
Qed.

(** Filling in the missing keys does not change what a caller reads. *)
Lemma mget_fill_keys (addrs : Bundle) (k : string) :
  mget (Some (fill_keys addrs)) k = mget addrs k.
Proof.
  unfold mget, fill_keys. rewrite !default_ensure.
  destruct addrs; [reflexivity |]. simpl. now rewrite lookup_empty.
Qed.

Lemma fill_keys_has_all_keys (addrs : Bundle) : has_all_keys (Some (fill_keys addrs)).
Proof.
  unfold has_all_keys, fill_keys. repeat split.
  - do 2 apply ensure_keeps. apply ensure_is_Some.
  - apply ensure_keeps. apply ensure_is_Some.
  - apply ensure_is_Some.
Qed.

Lemma appenddnsResults_has_all_keys (result fetchedResults : Bundle) :
  has_all_keys (appenddnsResults result fetchedResults).
Proof.
  unfold has_all_keys, appenddnsResults. repeat split.
  - do 2 (apply append_at_keeps, ensure_keeps). apply append_at_is_Some.
  - apply append_at_keeps, ensure_keeps. apply append_at_is_Some.
  - apply append_at_is_Some.
Qed.

(** ** The probe order *)

Lemma some_nonempty_false (addrs : Bundle) :
  some_nonempty addrs = false <-> all_empty addrs.
Proof.
  unfold some_nonempty, all_empty.
  destruct (mget addrs "A"), (mget addrs "AAAA"), (mget addrs "TXT");
    cbv; intuition congruence.
Qed.

Lemma search_app (l1 l2 : list (resourceWithIndex * list string)) (log : list Probe) :
  search (l1 ++ l2) log
  = match search l1 log with
    | (Finished, log') => search l2 log'
    | stopped => stopped
    end.
Proof.
  revert log; induction l1 as [|p l1 IH]; intros log; simpl; [reflexivity |].
  destruct (run_probe p) as [addrs |]; [| reflexivity].
  destruct (some_nonempty addrs); [reflexivity | apply IH].
Qed.

Lemma probe_resources_search (indexKeys : list string)
  (resources : list resourceWithIndex) (log : list Probe) :
  probe_resources indexKeys resources log
  = search (map (fun r => (r, indexKeys)) resources) log.
Proof.
  revert log; induction resources as [|r rs IH]; intros log; [reflexivity |].
  cbn [probe_resources map search]. unfold run_probe, probe_tag. cbn [fst snd].
  destruct (lookup r indexKeys) as [addrs |]; [| reflexivity].
  unfold some_nonempty. rewrite !mget_fill_keys.
  destruct (0 <? length (mget addrs "A"))%nat; [reflexivity |].
  destruct (0 <? length (mget addrs "AAAA"))%nat; [reflexivity |].
  destruct (0 <? length (mget addrs "TXT"))%nat; [reflexivity |].
  apply IH.
Qed.

Lemma probe_keysets_search (indexKeySets : list (list string))
  (resources : list resourceWithIndex) (log : list Probe) :
  probe_keysets indexKeySets resources log
  = search (all_probes resources indexKeySets) log.
Proof.
  revert log; induction indexKeySets as [|ks kss IH]; intros log; simpl; [reflexivity |].
  rewrite search_app, probe_resources_search.
  destruct (search _ log) as [[addrs | |] log']; auto.
Qed.

(** Calls that return nothing are passed over ... *)
Lemma search_skip (pre rest : list (resourceWithIndex * list string)) (log : list Probe) :
  Forall (fun q => exists b, run_probe q = Ret b /\ all_empty b) pre ->
  search (pre ++ rest) log = search rest (log ++ map probe_tag pre).
Proof.
  intros Hpre; revert log; induction Hpre as [|q pre (b & Hq & Hb) _ IH]; intros log.
  - simpl. now rewrite app_nil_r.
  - simpl. rewrite Hq. apply some_nonempty_false in Hb. rewrite Hb.
    rewrite IH. now rewrite <- app_assoc.
Qed.

(** ... and the first one that returns something ends the search. *)
Lemma search_hit (p : resourceWithIndex * list string)
  (post : list (resourceWithIndex * list string)) (log : list Probe) (addrs : Bundle) :
  run_probe p = Ret addrs -> ~ all_empty addrs ->
  search (p :: post) log = (Returned (Some (fill_keys addrs)), log ++ [probe_tag p]).
Proof.
  intros Hp Hne. simpl. rewrite Hp.
  destruct (some_nonempty addrs) eqn:E; [reflexivity |].
  now apply some_nonempty_false in E.
Qed.

(** When no call returns anything the search runs through every key set
    and every kind, and the engine returns the nil bundle. *)
Lemma getMatchingAddresses_none (resources : list resourceWithIndex)
  (indexKeySets : list (list string)) :
  Forall (fun q => exists b, run_probe q = Ret b /\ all_empty b)
    (all_probes resources indexKeySets) ->
  getMatchingAddresses resources indexKeySets
  = (Ret None, map probe_tag (all_probes resources indexKeySets)).
Proof.
  intros Hall. unfold getMatchingAddresses.
  rewrite probe_keysets_search.
  rewrite <- (app_nil_r (all_probes resources indexKeySets)) at 1.
  rewrite search_skip by assumption. reflexivity.
Qed.

(** C3: [getMatchingAddresses] calls the lookups key set by key set and,
    within a key set, kind by kind in registry order.  When the calls
    before [p] in that order all return bundles with empty A, AAAA and TXT
    lists and [p] returns a bundle [addrs] with a non-empty list, the
    engine returns the bundle of [p] alone (the lists a caller reads from
    it are those of [addrs], nothing of another call is merged in), and
    the calls made are exactly those up to [p]: none of [post] is made. *)
Theorem getMatchingAddresses_first_nonempty (resources : list resourceWithIndex)
  (indexKeySets : list (list string))
  (pre post : list (resourceWithIndex * list string))
  (p : resourceWithIndex * list string) (addrs : Bundle) :
  all_probes resources indexKeySets = pre ++ p :: post ->
  Forall (fun q => exists b, run_probe q = Ret b /\ all_empty b) pre ->
  run_probe p = Ret addrs ->
  ~ all_empty addrs ->
  getMatchingAddresses resources indexKeySets
  = (Ret (Some (fill_keys addrs)), map probe_tag (pre ++ [p]))
  /\ (forall k, mget (Some (fill_keys addrs)) k = mget addrs k).
Proof.
  intros Hsplit Hpre Hp Hne. split; [| intros k; apply mget_fill_keys].
  unfold getMatchingAddresses.
  rewrite probe_keysets_search, Hsplit.
  rewrite search_skip by assumption.
  rewrite (search_hit p post _ addrs Hp Hne).
  rewrite map_app. reflexivity.
Qed.

(** The query [svc2.ns1.example.com.] of the test table: the three route
    kinds return nothing, the Ingress kind answers, and neither the
    Service kind (which also knows [svc2.ns1]) nor the wildcard key set is
    tried. *)
Lemma getMatchingAddresses_first_nonempty_witness :
  getMatchingAddresses gateway_test.testResources
    [gateway_test.svc2_specific; gateway_test.svc2_wildcard]
  = (Ret (Some (fill_keys
                  (gateway_test.two_keys (Some (<["A" := ["192.0.0.2"]]> ∅))))),
     [("HTTPRoute", gateway_test.svc2_specific);
      ("TLSRoute", gateway_test.svc2_specific);
      ("GRPCRoute", gateway_test.svc2_specific);
      ("Ingress", gateway_test.svc2_specific)])
  /\ (forall k,
        mget (Some (fill_keys
                      (gateway_test.two_keys (Some (<["A" := ["192.0.0.2"]]> ∅))))) k
        = mget (gateway_test.two_keys (Some (<["A" := ["192.0.0.2"]]> ∅))) k).
Proof.
  pose proof (getMatchingAddresses_first_nonempty gateway_test.testResources
    [gateway_test.svc2_specific; gateway_test.svc2_wildcard]
    (map (fun r => (r, gateway_test.svc2_specific))
       (firstn 3 gateway_test.testResources))
    (map (fun r => (r, gateway_test.svc2_specific))
       (skipn 4 gateway_test.testResources)
     ++ map (fun r => (r, gateway_test.svc2_wildcard)) gateway_test.testResources)
    (nth 3 gateway_test.testResources {| name := ""; lookup := noop |},
     gateway_test.svc2_specific)
    (gateway_test.two_keys (Some (<["A" := ["192.0.0.2"]]> ∅)))) as H.
  apply H.
  - reflexivity.
  - repeat constructor; exists (gateway_test.two_keys None);
      (split; [vm_compute; reflexivity |]);
      (split; [| split]); vm_compute; reflexivity.
  - vm_compute. reflexivity.
  - intros (HA & _). vm_compute in HA. discriminate HA.
Defined.

(** ** What the returned bundles hold *)

Lemma search_returns_filled (probes : list (resourceWithIndex * list string))
  (log : list Probe) :
  match fst (search probes log) with
  | Returned b => has_all_keys b
  | _ => True
  end.
Proof.
  revert log; induction probes as [|p rest IH]; intros log; simpl; [exact I |].
  destruct (run_probe p) as [addrs |]; [| exact I].
  destruct (some_nonempty addrs); [apply fill_keys_has_all_keys | apply IH].
Qed.

Lemma getMatchingAddresses_nil_or_all_keys (resources : list resourceWithIndex)
  (indexKeySets : list (list string)) :
  nil_or_all_keys (fst (getMatchingAddresses resources indexKeySets)).
Proof.
  unfold getMatchingAddresses. rewrite probe_keysets_search.
  pose proof (search_returns_filled (all_probes resources indexKeySets) []) as H.
  destruct (search _ []) as [[[g |] | |] log]; simpl in *; auto.
Qed.

Lemma lookupIngressIndex_loop_keys ParseAddr LookupIP (ingclasses : list string)
  (objs : list Ingress) (result : Bundle) :
  nil_or_all_keys (Ret result) ->
  nil_or_all_keys (lookupIngressIndex_loop ParseAddr LookupIP ingclasses objs result).
Proof.
  revert result; induction objs as [|ingress rest IH]; intros result Hres; [exact Hres |].
  cbn [lookupIngressIndex_loop].
  destruct (0 <? length ingclasses)%nat.
  - destruct (ing_IngressClassName ingress) as [class |]; [| exact I].
    cbn [go_bind]. destruct (negb (slices_Contains ingclasses class)).
    + now apply IH.
    + apply IH. pose proof (appenddnsResults_has_all_keys result
        (fetchIngressLoadBalancerIPs ParseAddr LookupIP (ing_Ingress ingress))) as H.
      destruct (appenddnsResults _ _); [exact H | exact I].
  - cbn [go_bind]. apply IH.
    pose proof (appenddnsResults_has_all_keys result
      (fetchIngressLoadBalancerIPs ParseAddr LookupIP (ing_Ingress ingress))) as H.
    destruct (appenddnsResults _ _); [exact H | exact I].
Qed.

Lemma lookupRouteIndex_loop_keys ParseAddr LookupIP
  (gw : string -> list gatewayapi_v1.Gateway) (gwclasses : list string)
  (objs : list Route) (result : Bundle) :
  nil_or_all_keys (Ret result) ->
  nil_or_all_keys (lookupRouteIndex_loop ParseAddr LookupIP gw gwclasses objs result).
Proof.
  revert result; induction objs as [|route rest IH]; intros result Hres; [exact Hres |].
  cbn [lookupRouteIndex_loop].
  destruct (lookupGateways ParseAddr LookupIP gw (rt_ParentRefs route)
              (rt_Namespace route) gwclasses) as [fetched |]; [| exact I].
  cbn [go_bind]. apply IH.
  pose proof (appenddnsResults_has_all_keys result fetched) as H.
  destruct (appenddnsResults _ _); [exact H | exact I].
Qed.

(** ** Routes and their parents *)

(** C4: a parent without a namespace of its own is not always resolved
    in the route's namespace.  [lookupGateways] assigns the override of a
    parent to its parameter [ns] and never restores it, so the next parent
    without an override is looked up under the previous parent's
    namespace: after the parent [other/n1], the parent [n2] is looked up
    as [other/n2], not as [ns/n2].  In the index of the fixture, where
    [apps/gw2] exists at 10.0.0.2, the route of namespace [apps] gets the
    address of [infra/gw1] only. *)
Theorem lookupGateways_namespace_carried_over :
  (forall ParseAddr LookupIP (gw : string -> list gatewayapi_v1.Gateway)
          (gwclasses : list string) (ns other n1 n2 : string),
      lookupGateways ParseAddr LookupIP gw
        [ {| pr_Namespace := Some other; pr_Name := n1 |};
          {| pr_Namespace := None; pr_Name := n2 |} ] ns gwclasses
      = let! result := lookupGateways_objs ParseAddr LookupIP gwclasses
                         (gw (other +:+ "/" +:+ n1)) None in
        lookupGateways_objs ParseAddr LookupIP gwclasses
          (gw (other +:+ "/" +:+ n2)) result)
  /\ (exists b,
        lookupGateways Fixture.ParseAddr Fixture.LookupIP Fixture.gatewayIndex
          Fixture.parentRefs "apps" [] = Ret b
        /\ mget b "A" = ["10.0.0.1"] /\ mget b "AAAA" = [] /\ mget b "TXT" = []).
Proof.
  split.
  - intros. unfold lookupGateways. cbn [lookupGateways_refs pr_Namespace pr_Name].
    destruct (lookupGateways_objs ParseAddr LookupIP gwclasses
                (gw (other +:+ "/" +:+ n1)) None) as [r |]; [| reflexivity].
    cbn [go_bind].
    destruct (lookupGateways_objs ParseAddr LookupIP gwclasses
                (gw (other +:+ "/" +:+ n2)) r); reflexivity.
  - eexists. split; [vm_compute; reflexivity |].
    repeat split; vm_compute; reflexivity.
Qed.

(** With the two parents in the other order the same route gets both
    addresses: the order of [parentRefs] decides. *)
Example lookupGateways_parents_swapped :
  exists b,
    lookupGateways Fixture.ParseAddr Fixture.LookupIP Fixture.gatewayIndex
      (rev Fixture.parentRefs) "apps" [] = Ret b
    /\ mget b "A" = ["10.0.0.2"; "10.0.0.1"].
Proof.
  eexists. split; [vm_compute; reflexivity |]. vm_compute; reflexivity.
Qed.

(** ** The Ingress class filter *)

Lemma lookupIngressIndex_loop_panics ParseAddr LookupIP (ingclasses : list string)
  (objs : list Ingress) (ingress : Ingress) (result : Bundle) :
  ingclasses <> [] ->
  In ingress objs ->
  ing_IngressClassName ingress = None ->
  lookupIngressIndex_loop ParseAddr LookupIP ingclasses objs result = Panic.
Proof.
  intros Hcls Hin Hnil.
  assert (Hlen : (0 <? length ingclasses)%nat = true)
    by (destruct ingclasses; [contradiction | reflexivity]).
  revert result; induction objs as [|o rest IH]; intros result; [destruct Hin |].
  cbn [lookupIngressIndex_loop]. rewrite Hlen.
  destruct Hin as [-> | Hin].
  - now rewrite Hnil.
  - destruct (ing_IngressClassName o) as [class |]; [| reflexivity].
    cbn [go_bind]. destruct (negb (slices_Contains ingclasses class)); now apply IH.
Qed.

(** C5: the lookup does crash.  With a non-empty ingress-class filter,
    any matched Ingress whose [spec.ingressClassName] is unset makes the
    closure dereference a nil pointer: the lookup panics, it neither skips
    that object nor goes on to the others. *)
Theorem lookupIngressIndex_unset_class_panics ParseAddr LookupIP
  (ctrl : string -> list Ingress) (ingclasses indexKeys : list string)
  (ingress : Ingress) :
  ingclasses <> [] ->
  In ingress (matched ctrl indexKeys) ->
  ing_IngressClassName ingress = None ->
  lookupIngressIndex ParseAddr LookupIP ctrl ingclasses indexKeys = Panic.
Proof.
  intros. unfold lookupIngressIndex.
  now apply lookupIngressIndex_loop_panics with (ingress := ingress).
Qed.

Lemma lookupIngressIndex_unset_class_panics_witness :
  lookupIngressIndex Fixture.ParseAddr Fixture.LookupIP Fixture.ingressIndex
    ["nginx"] ["app.example.com"] = Panic.
Proof.
  apply (lookupIngressIndex_unset_class_panics Fixture.ParseAddr Fixture.LookupIP
           Fixture.ingressIndex ["nginx"] ["app.example.com"] Fixture.classless).
  - discriminate.
  - left. reflexivity.
  - reflexivity.
Defined.

(** ** Services with external addresses *)

Lemma lookupServiceIndex_loop_stop ParseAddr LookupIP (pre post : list Service)
  (service : Service) (result : gmap string (list string)) :
  Forall (fun s => svc_ExternalIPs s = []) pre ->
  svc_ExternalIPs service <> [] ->
  lookupServiceIndex_loop ParseAddr LookupIP (pre ++ service :: post) result
  = classify_all ParseAddr (svc_ExternalIPs service)
      (lookupServiceIndex_loop ParseAddr LookupIP pre result).
Proof.
  intros Hpre Hext. revert result.
  induction Hpre as [|s pre Hs _ IH]; intros result.
  - cbn [app lookupServiceIndex_loop].
    destruct (svc_ExternalIPs service); [contradiction | reflexivity].
  - cbn [app lookupServiceIndex_loop]. rewrite Hs. cbn [length Nat.ltb Nat.leb].
    apply IH.
Qed.

(** ** The keys of a Service *)

Lemma fold_left_valid (valid : string -> bool) (l acc : list string) :
  fold_left (fun hostnames hostname =>
               if valid hostname then hostnames ++ [hostname] else hostnames) l acc
  = acc ++ List.filter valid l.
Proof.
  revert acc; induction l as [|h l IH]; intros acc; simpl.
  - now rewrite app_nil_r.
  - rewrite IH. destruct (valid h); [now rewrite <- app_assoc | reflexivity].
Qed.

(** C7, as the code has it: the second and third source of keys are
    tried only when the [coredns.io/hostname] annotation is absent.  For a
    LoadBalancer Service the keys are: when that annotation is present,
    its lower-cased value if valid and no key at all if not; else, when
    the [external-dns] annotation is present, the valid ones among its
    lower-cased, space-stripped, comma-separated entries; else
    ["<name>.<namespace>"]. *)
Theorem serviceHostnameIndexFunc_keys (IsDomainName : string -> bool)
  (service : Service) :
  svc_Type service = LoadBalancer ->
  serviceHostnameIndexFunc IsDomainName (ObjService service)
  = match svc_Annotations service !! hostnameAnnotationKey with
    | Some v =>
        if checkDomainValid IsDomainName (GoString.ToLower v)
        then [GoString.ToLower v] else []
    | None =>
        match svc_Annotations service !! externalDnsHostnameAnnotationKey with
        | Some v =>
            List.filter (checkDomainValid IsDomainName)
              (splitHostnameAnnotation (GoString.ToLower v))
        | None => [svc_Name service +:+ "." +:+ svc_Namespace service]
        end
    end.
Proof.
  intros Htype. unfold serviceHostnameIndexFunc, checkServiceAnnotation.
  rewrite Htype.
  destruct (svc_Annotations service !! hostnameAnnotationKey) as [v |]; [reflexivity |].
  destruct (svc_Annotations service !! externalDnsHostnameAnnotationKey) as [v |];
    [| reflexivity].
  apply fold_left_valid.
Qed.

Lemma serviceHostnameIndexFunc_keys_witness :
  svc_Type (Fixture.service "svc1"
              (<[externalDnsHostnameAnnotationKey
                 := "App.Example.Com, bad_host,api.example.com"]> ∅) [] [])
  = LoadBalancer
  /\ serviceHostnameIndexFunc Fixture.IsDomainName
       (ObjService (Fixture.service "svc1"
                      (<[externalDnsHostnameAnnotationKey
                         := "App.Example.Com, bad_host,api.example.com"]> ∅) [] []))
     = ["app.example.com"; "api.example.com"].
Proof.
  split; [reflexivity |].
  etransitivity.
  - apply (serviceHostnameIndexFunc_keys Fixture.IsDomainName
             (Fixture.service "svc1"
                (<[externalDnsHostnameAnnotationKey
                   := "App.Example.Com, bad_host,api.example.com"]> ∅) [] [])).
    reflexivity.
  - vm_compute. reflexivity.
Defined.

(** Where the first annotation is absent, or present and valid, the keys
    are those of the chain of fall-backs. *)
Lemma serviceHostnameIndexFunc_chained (IsDomainName : string -> bool)
  (service : Service) :
  svc_Type service = LoadBalancer ->
  match svc_Annotations service !! hostnameAnnotationKey with
  | Some v => checkDomainValid IsDomainName (GoString.ToLower v) = true
  | None => True
  end ->
  serviceHostnameIndexFunc IsDomainName (ObjService service)
  = chained_serviceHostnameKeys IsDomainName service.
Proof.
  intros Htype Hfirst.
  unfold serviceHostnameIndexFunc, chained_serviceHostnameKeys, checkServiceAnnotation.
  rewrite Htype.
  destruct (svc_Annotations service !! hostnameAnnotationKey) as [v |];
    [now rewrite Hfirst |].
  destruct (svc_Annotations service !! externalDnsHostnameAnnotationKey) as [v |];
    [| reflexivity].
  apply fold_left_valid.
Qed.

(** A Service annotated [coredns.io/hostname: Not_A_Host] and
    [external-dns...: App.Example.Com, api.example.com]: the chain of
    fall-backs names two keys, the index function none. *)
Lemma invalid_annotation_stops_the_chain :
  serviceHostnameIndexFunc Fixture.IsDomainName (ObjService Fixture.misannotated) = []
  /\ chained_serviceHostnameKeys Fixture.IsDomainName Fixture.misannotated
     = ["app.example.com"; "api.example.com"].
Proof. split; vm_compute; reflexivity. Qed.

(** ** AAAA queries for names that have A records only *)

(** C9: an AAAA query in a configured zone, for a name whose bundle has
    A addresses and no AAAA address, is answered NOERROR with the SOA in
    the authority section and an empty answer section, whether or not the
    name is the zone apex.  The bundle is resolved only for queries that
    get that far: the controller has synced and the name is not under the
    apex label. *)
Theorem ServeDNS_AAAA_with_A_only ParseIP Matches IsSubDomain Through soa nameservers
  ExternalAddrFunc (gw : Gateway) (state : Request)
  (indexKeySets : list (list string)) (addrs : Bundle) :
  QType_ state = TypeAAAA ->
  Matches (Zones gw) (QName state) <> "" ->
  (String.length (Matches (Zones gw) (QName state)) <= String.length (QName state))%nat ->
  HasSynced (Controller gw) = true ->
  scan_zones IsSubDomain gw (Zones gw) (set_Zone (query_zone Matches gw state) state)
  <> SubApexQuery ->
  getQueryIndexKeySets (QName state) (query_zone Matches gw state) = Ret indexKeySets ->
  fst (getMatchingAddresses (Resources gw) indexKeySets) = Ret addrs ->
  mget addrs "AAAA" = [] ->
  mget addrs "A" <> [] ->
  exists m,
    ServeDNS ParseIP Matches IsSubDomain Through soa nameservers ExternalAddrFunc gw state
    = Replied m
    /\ Rcode m = RcodeSuccess
    /\ Ns m = [soa gw (set_Zone (query_zone Matches gw state) state)]
    /\ Answer m = []
    /\ Authoritative m = true.
Proof.
  intros Hq Hzone Hlen Hsync Hscan Hkeys Haddrs H6 H4.
  unfold ServeDNS.
  destruct (String.eqb_spec (Matches (Zones gw) (QName state)) "") as [E | _];
    [contradiction |].
  apply Nat.leb_le in Hlen. rewrite Hlen. cbn [negb].
  rewrite Hkeys, Hsync. cbn [negb]. rewrite Haddrs.
  assert (H4' : (length (mget addrs "A") =? 0)%nat = false)
    by (destruct (mget addrs "A"); [contradiction | reflexivity]).
  assert (H4'' : (0 <? length (mget addrs "A"))%nat = true)
    by (destruct (mget addrs "A"); [contradiction | reflexivity]).
  rewrite H4'. cbn [andb].
  unfold build_reply. cbn [QType_ set_Zone]. rewrite Hq, H6, H4''. cbn [length Nat.eqb].
  destruct (scan_zones IsSubDomain gw (Zones gw)
              (set_Zone (query_zone Matches gw state) state));
    [| contradiction |]; eexists; (split; [reflexivity |]); repeat split.
Qed.

(** Test 15 of the table: [svc2.ns1.example.com.] has an A record from
    the Ingress kind and no AAAA record. *)
Lemma ServeDNS_AAAA_with_A_only_witness :
  exists m,
    ServeDNS Fixture.ParseIP Fixture.Matches Fixture.IsSubDomain Fixture.Through Fixture.soa
      Fixture.nameservers Fixture.ExternalAddrFunc
      gateway_test.testGateway (gateway_test.svc2_query TypeAAAA)
    = Replied m
    /\ Rcode m = RcodeSuccess
    /\ Ns m = [Fixture.soa gateway_test.testGateway
                 (set_Zone (query_zone Fixture.Matches gateway_test.testGateway
                              (gateway_test.svc2_query TypeAAAA))
                    (gateway_test.svc2_query TypeAAAA))]
    /\ Answer m = []
    /\ Authoritative m = true.
Proof.
  pose proof (ServeDNS_AAAA_with_A_only Fixture.ParseIP Fixture.Matches Fixture.IsSubDomain
    Fixture.Through Fixture.soa Fixture.nameservers Fixture.ExternalAddrFunc
    gateway_test.testGateway (gateway_test.svc2_query TypeAAAA)
    [gateway_test.svc2_specific; gateway_test.svc2_wildcard]
    (Some (fill_keys (gateway_test.two_keys (Some (<["A" := ["192.0.0.2"]]> ∅)))))) as H.
  apply H.
  - reflexivity.
  - vm_compute. discriminate.
  - vm_compute. lia.
  - reflexivity.
  - vm_compute. discriminate.
  - vm_compute. reflexivity.
  - vm_compute. reflexivity.
  - vm_compute. reflexivity.
  - vm_compute. discriminate.
Defined.

(** At the apex: [example.com.] has an A record (192.0.0.3) and no AAAA
    record. *)
Example ServeDNS_AAAA_apex :
  ServeDNS Fixture.ParseIP Fixture.Matches Fixture.IsSubDomain Fixture.Through Fixture.soa
    Fixture.nameservers Fixture.ExternalAddrFunc gateway_test.testGateway
    {| QName := "example.com."; Name := "example.com."; QType_ := TypeAAAA; Zone := "" |}
  = Replied {| Rcode := RcodeSuccess; Authoritative := true; Answer := [];
               Ns := [RR_SOA "example.com." 60 "dns1.kube-system.example.com."
                        "hostmaster.dns1.kube-system.example.com."];
               Extra := [] |}.
Proof. vm_compute. reflexivity. Qed.

(** ** Names, zones and key sets *)

Lemma TrimSuffixDot_snoc (s : string) : GoString.TrimSuffixDot (s +:+ ".") = s.
Proof.
  induction s as [|c s IH]; [reflexivity |].
  rewrite append_String. cbn [GoString.TrimSuffixDot].
  destruct (s +:+ ".") as [|d t] eqn:E; [now destruct s |].
  now rewrite IH.
Qed.

Lemma stripClosingDot_snoc (s : string) :
  s <> "" -> stripClosingDot (s +:+ ".") = s.
Proof.
  intros Hs. unfold stripClosingDot. rewrite append_length.
  destruct s as [|c s]; [contradiction |].
  replace (1 <? String.length (String c s) + String.length ".")%nat with true
    by (symmetry; apply Nat.ltb_lt; simpl; lia).
  apply TrimSuffixDot_snoc.
Qed.

Lemma prefix_append (a b : string) :
  GoString.prefix (String.length a) (a +:+ b) = a.
Proof.
  induction a as [|c a IH]; [now destruct b |].
  rewrite append_String. simpl. now rewrite IH.
Qed.

Lemma stripDomain_host (h zone : string) :
  h <> "" -> stripDomain (h +:+ "." +:+ zone) zone = Ret h.
Proof.
  intros Hh. unfold stripDomain.
  rewrite <- append_assoc, append_length.
  replace (String.length zone <=? String.length (h +:+ ".") + String.length zone)%nat
    with true by (symmetry; apply Nat.leb_le; lia).
  replace (String.length (h +:+ ".") + String.length zone - String.length zone)
    with (String.length (h +:+ ".")) by lia.
  rewrite prefix_append. now rewrite stripClosingDot_snoc.
Qed.

Lemma getQueryIndexKeys_host (h z : string) :
  h <> "" ->
  getQueryIndexKeys (h +:+ "." +:+ z +:+ ".") (z +:+ ".")
  = Ret [h +:+ "." +:+ z; h].
Proof.
  intros Hh. unfold getQueryIndexKeys.
  rewrite stripDomain_host by assumption. cbn [go_bind].
  replace (h +:+ "." +:+ z +:+ ".") with ((h +:+ "." +:+ z) +:+ ".")
    by now rewrite !append_assoc.
  rewrite stripClosingDot_snoc by (destruct h; [contradiction | discriminate]).
  destruct h as [|c h]; [contradiction |].
  cbn [String.length Nat.eqb negb andb].
  destruct (String.eqb_spec (String c h) (String c h +:+ "." +:+ z)) as [E | _];
    [| reflexivity].
  apply (f_equal String.length) in E. rewrite !append_length in E. simpl in E. lia.
Qed.

Lemma Split_aux_label (l rest cur : string) :
  dot_free l = true ->
  GoString.Split_aux "." (l +:+ "." +:+ rest) cur
  = (cur +:+ l) :: GoString.Split_aux "." rest "".
Proof.
  revert cur; induction l as [|c l IH]; intros cur Hl.
  - rewrite append_empty_l, append_empty_r. reflexivity.
  - unfold dot_free in Hl. cbn [all_bytes] in Hl.
    apply andb_prop in Hl as [Hc Hl].
    rewrite append_String. cbn [GoString.Split_aux].
    destruct (Ascii.eqb c "."); [discriminate |].
    rewrite IH by exact Hl. now rewrite append_assoc.
Qed.

Lemma Split_aux_single (l cur : string) :
  dot_free l = true -> GoString.Split_aux "." l cur = [cur +:+ l].
Proof.
  revert cur; induction l as [|c l IH]; intros cur Hl.
  - now rewrite append_empty_r.
  - unfold dot_free in Hl. cbn [all_bytes] in Hl.
    apply andb_prop in Hl as [Hc Hl].
    cbn [GoString.Split_aux]. destruct (Ascii.eqb c "."); [discriminate |].
    rewrite IH by exact Hl. now rewrite append_assoc.
Qed.

(** Joining the pieces of a split gives the string back. *)
Lemma Join_Split_aux (sep : ascii) (s cur : string) :
  GoString.Join (GoString.Split_aux sep s cur) (String sep "") = cur +:+ s.
Proof.
  revert cur; induction s as [|c s IH]; intros cur.
  - now rewrite append_empty_r.
  - cbn [GoString.Split_aux]. destruct (Ascii.eqb_spec c sep) as [-> | Hne].
    + destruct (Split_aux_cons sep s "") as (x & r & E).
      rewrite E, Join_cons_cons, <- E, IH. reflexivity.
    + rewrite IH, append_assoc. reflexivity.
Qed.

Lemma Join_snoc (l : list string) (z sep : string) :
  l <> [] -> GoString.Join (l ++ [z]) sep = GoString.Join l sep +:+ sep +:+ z.
Proof.
  induction l as [|x l IH]; [contradiction |]. intros _.
  destruct l as [|y l]; [reflexivity |].
  change ((x :: y :: l) ++ [z]) with (x :: (y :: l) ++ [z]).
  change ((y :: l) ++ [z]) with (y :: (l ++ [z])) at 1.
  rewrite Join_cons_cons.
  change (y :: l ++ [z]) with ((y :: l) ++ [z]).
  rewrite IH by discriminate. rewrite Join_cons_cons.
  now rewrite !append_assoc.
Qed.

Lemma toWildcardQName_label (l rest zone : string) :
  dot_free l = true ->
  toWildcardQName (l +:+ "." +:+ rest +:+ "." +:+ zone) zone
  = Ret ("*" +:+ "." +:+ rest +:+ "." +:+ zone).
Proof.
  intros Hl. unfold toWildcardQName.
  replace (l +:+ "." +:+ rest +:+ "." +:+ zone)
    with ((l +:+ "." +:+ rest) +:+ "." +:+ zone) by now rewrite !append_assoc.
  rewrite stripDomain_host by (destruct l; discriminate).
  cbn [go_bind]. unfold GoString.Split.
  rewrite Split_aux_label by exact Hl.
  cbn [length Nat.eqb]. cbn [insert list_insert].
  change ((("*" : string) :: GoString.Split_aux "." rest "") ++ [zone])
    with (("*" :: GoString.Split_aux "." rest "") ++ [zone]).
  rewrite Join_snoc by discriminate.
  destruct (Split_aux_cons "." rest "") as (x & r & E).
  rewrite E, Join_cons_cons, <- E.
  rewrite (Join_Split_aux "." rest ""). now rewrite append_empty_l, !append_assoc.
Qed.

Lemma toWildcardQName_single (l zone : string) :
  dot_free l = true -> l <> "" ->
  toWildcardQName (l +:+ "." +:+ zone) zone = Ret ("*" +:+ "." +:+ zone).
Proof.
  intros Hl Hne. unfold toWildcardQName.
  rewrite stripDomain_host by assumption.
  cbn [go_bind]. unfold GoString.Split.
  rewrite Split_aux_single by exact Hl. reflexivity.
Qed.

(** X1: the key sets of a name below the zone.  For a first label [l]
    without a dot, the name [l.rest.z.] in the zone [z.] gives the specific
    keys [l.rest.z] and [l.rest] and the wildcard keys [*.rest.z] and
    [*.rest]; a name of one label, [l.z.], gives [l.z], [l] and [*.z],
    [*]. *)
Theorem getQueryIndexKeySets_below_zone (l z : string) :
  dot_free l = true ->
  l <> "" ->
  getQueryIndexKeySets (l +:+ "." +:+ z +:+ ".") (z +:+ ".")
  = Ret [[l +:+ "." +:+ z; l]; ["*" +:+ "." +:+ z; "*"]]
  /\ forall rest,
      getQueryIndexKeySets (l +:+ "." +:+ rest +:+ "." +:+ z +:+ ".") (z +:+ ".")
      = Ret [[l +:+ "." +:+ rest +:+ "." +:+ z; l +:+ "." +:+ rest];
             ["*" +:+ "." +:+ rest +:+ "." +:+ z; "*" +:+ "." +:+ rest]].
Proof.
  intros Hl Hne. split; [| intros rest]; unfold getQueryIndexKeySets.
  - rewrite getQueryIndexKeys_host by assumption. cbn [go_bind].
    rewrite toWildcardQName_single by assumption. cbn [go_bind].
    change (String.eqb ("*" +:+ "." +:+ z +:+ ".") "") with false. cbv iota.
    rewrite getQueryIndexKeys_host by discriminate. reflexivity.
  - replace (l +:+ "." +:+ rest +:+ "." +:+ z +:+ ".")
      with ((l +:+ "." +:+ rest) +:+ "." +:+ z +:+ ".") by now rewrite !append_assoc.
    rewrite getQueryIndexKeys_host by (destruct l; discriminate). cbn [go_bind].
    replace ((l +:+ "." +:+ rest) +:+ "." +:+ z +:+ ".")
      with (l +:+ "." +:+ rest +:+ "." +:+ z +:+ ".") by now rewrite !append_assoc.
    rewrite toWildcardQName_label by assumption. cbn [go_bind].
    change (String.eqb ("*" +:+ "." +:+ rest +:+ "." +:+ z +:+ ".") "") with false.
    cbv iota.
    replace ("*" +:+ "." +:+ rest +:+ "." +:+ z +:+ ".")
      with (("*" +:+ "." +:+ rest) +:+ "." +:+ z +:+ ".") by now rewrite !append_assoc.
    rewrite getQueryIndexKeys_host by discriminate. cbn [go_bind].
    now rewrite !append_assoc.
Qed.

Lemma getQueryIndexKeySets_below_zone_witness :
  getQueryIndexKeySets "svc1.example.com." "example.com."
  = Ret [["svc1.example.com"; "svc1"]; ["*.example.com"; "*"]]
  /\ forall rest,
      getQueryIndexKeySets ("svc1" +:+ "." +:+ rest +:+ "." +:+ "example.com" +:+ ".")
        "example.com."
      = Ret [["svc1" +:+ "." +:+ rest +:+ "." +:+ "example.com"; "svc1" +:+ "." +:+ rest];
             ["*" +:+ "." +:+ rest +:+ "." +:+ "example.com"; "*" +:+ "." +:+ rest]].
Proof.
  apply (getQueryIndexKeySets_below_zone "svc1" "example.com").
  - reflexivity.
  - discriminate.
Defined.

(** X2: stripping the zone.  [stripDomain] gives a non-empty host part
    back from [host.zone], and over all inputs it panics exactly when the
    zone is longer than the name. *)
Theorem stripDomain_round_trip (h zone : string) :
  h <> "" ->
  stripDomain (h +:+ "." +:+ zone) zone = Ret h
  /\ (forall qname z,
        stripDomain qname z = Panic <-> String.length qname < String.length z).
Proof.
  intros Hh. split; [now apply stripDomain_host |].
  intros qname z. unfold stripDomain.
  destruct (String.length z <=? String.length qname)%nat eqn:E.
  - apply Nat.leb_le in E. split; [discriminate | lia].
  - apply Nat.leb_gt in E. split; auto.
Qed.

Lemma stripDomain_round_trip_witness :
  stripDomain "svc1.ns1.example.com." "example.com." = Ret "svc1.ns1"
  /\ (forall qname z,
        stripDomain qname z = Panic <-> String.length qname < String.length z).
Proof.
  apply (stripDomain_round_trip "svc1.ns1" "example.com.").
  discriminate.
Defined.

(** ** Lists read from bundles *)

Lemma mget_append_at_ensure (k k' : string) (vs : list string)
  (g : gmap string (list string)) :
  mget (Some (append_at k vs (ensure k g))) k'
  = if decide (k = k') then mget (Some g) k ++ vs else mget (Some g) k'.
Proof.
  unfold mget, append_at. destruct (decide (k = k')) as [<- | Hne].
  - rewrite lookup_insert_eq. cbn [default]. now rewrite default_ensure.
  - rewrite lookup_insert_ne by assumption. apply default_ensure.
Qed.

Lemma mget_make_if_nil (result : Bundle) (k : string) :
  mget (Some (make_if_nil result)) k = mget result k.
Proof. destruct result; [reflexivity |]. unfold mget. cbn. now rewrite lookup_empty. Qed.

Lemma appenddnsResults_mget (result fetched : Bundle) (k : string) :
  mget (appenddnsResults result fetched) k
  = if bool_decide (k ∈ ["A"; "AAAA"; "TXT"]) then mget result k ++ mget fetched k
    else mget result k.
Proof.
  unfold appenddnsResults. rewrite !mget_append_at_ensure, !mget_make_if_nil.
  repeat destruct (decide (_ = k)) as [<- | ?]; try reflexivity; try discriminate.
  rewrite bool_decide_eq_false_2; [reflexivity |].
  rewrite !elem_of_cons, elem_of_nil. intros [-> | [-> | [-> | []]]]; congruence.
Qed.

(** X3: [appenddnsResults] appends list by list.  Under each of the keys
    A, AAAA and TXT the merged bundle holds the list of [result] followed
    by the list of [fetchedResults]; any other key of [result] is kept as
    it is and any other key of [fetchedResults] is dropped; either
    argument may be the nil map. *)
Theorem appenddnsResults_concatenates (result fetchedResults : Bundle) :
  mget (appenddnsResults result fetchedResults) "A"
  = mget result "A" ++ mget fetchedResults "A"
  /\ mget (appenddnsResults result fetchedResults) "AAAA"
     = mget result "AAAA" ++ mget fetchedResults "AAAA"
  /\ mget (appenddnsResults result fetchedResults) "TXT"
     = mget result "TXT" ++ mget fetchedResults "TXT"
  /\ (forall k, k ∉ ["A"; "AAAA"; "TXT"] ->
        mget (appenddnsResults result fetchedResults) k = mget result k).
Proof.
  repeat split; try (rewrite appenddnsResults_mget; reflexivity).
  intros k Hk. rewrite appenddnsResults_mget.
  now rewrite bool_decide_eq_false_2.
Qed.

(** ** Addresses by family *)

Section Families.

Variable ParseAddr : string -> option Addr.
Variable LookupIP : string -> option (list string).

Lemma classify_mget (addr : Addr) (g : gmap string (list string)) (k : string) :
  mget (Some (classify addr g)) k
  = mget (Some g) k
    ++ (if decide (k = "A") then parsed_of (fun _ => Some addr) V4 [""]
        else if decide (k = "AAAA") then parsed_of (fun _ => Some addr) V6 [""]
        else []).
Proof.
  unfold classify, Is4, Is6, parsed_of. cbn [flat_map].
  destruct (addr_family addr); cbn [family_eqb]; rewrite mget_append_at_ensure;
    repeat destruct (decide _); subst; try discriminate; try congruence;
    now rewrite ?app_nil_r.
Qed.

Lemma classify_all_mget (ips : list string) (g : gmap string (list string)) (k : string) :
  mget (Some (classify_all ParseAddr ips g)) k
  = mget (Some g) k
    ++ (if decide (k = "A") then parsed_of ParseAddr V4 ips
        else if decide (k = "AAAA") then parsed_of ParseAddr V6 ips
        else []).
Proof.
  revert g; induction ips as [|ip ips IH]; intros g.
  - cbn. repeat destruct (decide _); now rewrite app_nil_r.
  - cbn [classify_all]. unfold parsed_of in *. cbn [flat_map].
    destruct (ParseAddr ip) as [addr |]; [| apply IH].
    rewrite IH, classify_mget. unfold parsed_of. cbn [flat_map].
    repeat destruct (decide _); rewrite ?app_nil_r, <- ?app_assoc; reflexivity.
Qed.

Lemma fetchLoadBalancerIPs_loop_mget (ingresses : list LoadBalancerIngress)
  (g : gmap string (list string)) (k : string) :
  mget (Some (fetchLoadBalancerIPs_loop ParseAddr LookupIP ingresses g)) k
  = mget (Some g) k
    ++ (if decide (k = "A") then flat_map (lb_addresses ParseAddr LookupIP V4) ingresses
        else if decide (k = "AAAA") then flat_map (lb_addresses ParseAddr LookupIP V6) ingresses
        else []).
Proof.
  revert g; induction ingresses as [|address rest IH]; intros g.
  - cbn. repeat destruct (decide _); now rewrite app_nil_r.
  - cbn [fetchLoadBalancerIPs_loop flat_map]. unfold lb_addresses at 1 3.
    destruct (negb (String.eqb (lb_Hostname address) "")).
    + destruct (LookupIP (lb_Hostname address)) as [ips |].
      * rewrite IH, classify_all_mget.
        repeat destruct (decide _); rewrite ?app_nil_r, <- ?app_assoc; reflexivity.
      * rewrite IH. repeat destruct (decide _); reflexivity.
    + destruct (negb (String.eqb (lb_IP address) "")).
      * unfold parsed_of. cbn [flat_map].
        destruct (ParseAddr (lb_IP address)) as [addr |].
        -- rewrite IH, classify_mget. unfold parsed_of. cbn [flat_map].
           repeat destruct (decide _); rewrite ?app_nil_r, <- ?app_assoc; reflexivity.
        -- rewrite IH. repeat destruct (decide _); reflexivity.
      * rewrite IH. repeat destruct (decide _); reflexivity.
Qed.

End Families.

(** X4: the addresses of a load-balancer status.  The A list of
    [fetchServiceLoadBalancerIPs] is, entry by entry in order, the IPv4
    addresses an entry stands for, the AAAA list the IPv6 ones, and no
    other key has a value; [fetchIngressLoadBalancerIPs] does the same on
    the status of an Ingress.  An entry with a host name stands for what
    the name resolves to: its IP field plays no part in the result, and
    when the resolver fails on the name the entry gives nothing. *)
Theorem fetchLoadBalancerIPs_by_family ParseAddr LookupIP
  (ingresses : list LoadBalancerIngress) :
  (mget (fetchServiceLoadBalancerIPs ParseAddr LookupIP ingresses) "A"
   = flat_map (lb_addresses ParseAddr LookupIP V4) ingresses
   /\ mget (fetchServiceLoadBalancerIPs ParseAddr LookupIP ingresses) "AAAA"
      = flat_map (lb_addresses ParseAddr LookupIP V6) ingresses
   /\ forall k, k <> "A" -> k <> "AAAA" ->
        mget (fetchServiceLoadBalancerIPs ParseAddr LookupIP ingresses) k = [])
  /\ (mget (fetchIngressLoadBalancerIPs ParseAddr LookupIP ingresses) "A"
      = flat_map (lb_addresses ParseAddr LookupIP V4) ingresses
      /\ mget (fetchIngressLoadBalancerIPs ParseAddr LookupIP ingresses) "AAAA"
         = flat_map (lb_addresses ParseAddr LookupIP V6) ingresses
      /\ forall k, k <> "A" -> k <> "AAAA" ->
           mget (fetchIngressLoadBalancerIPs ParseAddr LookupIP ingresses) k = [])
  /\ (forall host ip ip',
        host <> "" ->
        fetchServiceLoadBalancerIPs ParseAddr LookupIP
          ({| lb_Hostname := host; lb_IP := ip |} :: ingresses)
        = fetchServiceLoadBalancerIPs ParseAddr LookupIP
            ({| lb_Hostname := host; lb_IP := ip' |} :: ingresses)
        /\ fetchIngressLoadBalancerIPs ParseAddr LookupIP
             ({| lb_Hostname := host; lb_IP := ip |} :: ingresses)
           = fetchIngressLoadBalancerIPs ParseAddr LookupIP
               ({| lb_Hostname := host; lb_IP := ip' |} :: ingresses))
  /\ (forall host ip k,
        host <> "" ->
        LookupIP host = None ->
        mget (fetchServiceLoadBalancerIPs ParseAddr LookupIP
                ({| lb_Hostname := host; lb_IP := ip |} :: ingresses)) k
        = mget (fetchServiceLoadBalancerIPs ParseAddr LookupIP ingresses) k).
Proof.
  unfold fetchServiceLoadBalancerIPs, fetchIngressLoadBalancerIPs.
  assert (Hother : forall k, k <> "A" -> k <> "AAAA" ->
            mget (Some (fetchLoadBalancerIPs_loop ParseAddr LookupIP ingresses ∅)) k = []).
  { intros k HA H6. rewrite fetchLoadBalancerIPs_loop_mget.
    unfold mget at 1. rewrite lookup_empty. cbn [default app].
    destruct (decide (k = "A")); [contradiction |].
    destruct (decide (k = "AAAA")); [contradiction | reflexivity]. }
  assert (Hhost : forall host ip ip',
            host <> "" ->
            fetchLoadBalancerIPs_loop ParseAddr LookupIP
              ({| lb_Hostname := host; lb_IP := ip |} :: ingresses) ∅
            = fetchLoadBalancerIPs_loop ParseAddr LookupIP
                ({| lb_Hostname := host; lb_IP := ip' |} :: ingresses) ∅).
  { intros host ip ip' Hhost. cbn [fetchLoadBalancerIPs_loop lb_Hostname].
    destruct (String.eqb_spec host "") as [E | _]; [contradiction | reflexivity]. }
  split; [| split; [| split]].
  - split; [| split; [| exact Hother]]; rewrite fetchLoadBalancerIPs_loop_mget; reflexivity.
  - split; [| split; [| exact Hother]]; rewrite fetchLoadBalancerIPs_loop_mget; reflexivity.
  - intros host ip ip' Hh. split; f_equal; now apply Hhost.
  - intros host ip k Hh Hfail. cbn [fetchLoadBalancerIPs_loop lb_Hostname].
    destruct (String.eqb_spec host "") as [E | _]; [contradiction |].
    cbn [negb]. now rewrite Hfail.
Qed.

(** A resolver that knows [lb.example.net]. *)
Example fetchServiceLoadBalancerIPs_resolved_host :
  let LookupIP host :=
    if String.eqb host "lb.example.net" then Some ["203.0.113.5"; "2001:db8::5"]
    else None in
  mget (fetchServiceLoadBalancerIPs Fixture.ParseAddr LookupIP
          [{| lb_Hostname := "lb.example.net"; lb_IP := "192.0.2.1" |};
           {| lb_Hostname := "gone.example.net"; lb_IP := "192.0.2.2" |};
           Fixture.lb_ip "192.0.1.1"]) "A"
  = ["203.0.113.5"; "192.0.1.1"]
  /\ mget (fetchServiceLoadBalancerIPs Fixture.ParseAddr LookupIP
             [{| lb_Hostname := "lb.example.net"; lb_IP := "192.0.2.1" |};
              {| lb_Hostname := "gone.example.net"; lb_IP := "192.0.2.2" |};
              Fixture.lb_ip "192.0.1.1"]) "AAAA"
     = ["2001:db8::5"].
Proof. split; vm_compute; reflexivity. Qed.

(** The two families of the fixture, evaluated. *)
Example fetchServiceLoadBalancerIPs_two_families :
  mget (fetchServiceLoadBalancerIPs Fixture.ParseAddr Fixture.LookupIP
          [Fixture.lb_ip "192.0.1.1"; Fixture.lb_ip "2001:db8::1"]) "A" = ["192.0.1.1"]
  /\ mget (fetchServiceLoadBalancerIPs Fixture.ParseAddr Fixture.LookupIP
             [Fixture.lb_ip "192.0.1.1"; Fixture.lb_ip "2001:db8::1"]) "AAAA"
     = ["2001:db8::1"].
Proof. split; vm_compute; reflexivity. Qed.

(** ** Services without external addresses *)

Lemma lookupServiceIndex_loop_mget ParseAddr LookupIP (objs : list Service)
  (g : gmap string (list string)) (k : string) :
  Forall (fun s => svc_ExternalIPs s = []) objs ->
  mget (Some (lookupServiceIndex_loop ParseAddr LookupIP objs g)) k
  = mget (Some g) k
    ++ flat_map (fun s => mget (fetchServiceLoadBalancerIPs ParseAddr LookupIP
                                  (svc_Ingress s)) k) objs.
Proof.
  intros Hobjs; revert g; induction Hobjs as [|s objs Hs _ IH]; intros g.
  - cbn. now rewrite app_nil_r.
  - cbn [lookupServiceIndex_loop flat_map]. rewrite Hs. cbn [length Nat.ltb Nat.leb].
    rewrite IH, mget_make_if_nil, appenddnsResults_mget.
    case_bool_decide as Hk.
    + now rewrite <- app_assoc.
    + f_equal.
      assert (Hnil : mget (fetchServiceLoadBalancerIPs ParseAddr LookupIP (svc_Ingress s)) k = []).
      { unfold fetchServiceLoadBalancerIPs. rewrite fetchLoadBalancerIPs_loop_mget.
        unfold mget at 1. rewrite lookup_empty. cbn.
        repeat destruct (decide _); subst; try reflexivity;
          exfalso; apply Hk; rewrite !elem_of_cons; auto. }
      now rewrite Hnil.
Qed.

(** X5: Services without external IPs are merged.  When none of the
    matched Services has external IPs, the closure returns, under each
    key, the lists of the load-balancer statuses of all matched Services
    one after the other, in the order the Services were matched. *)
Theorem lookupServiceIndex_merges_statuses ParseAddr LookupIP
  (ctrl : string -> list Service) (indexKeys : list string) :
  Forall (fun s => svc_ExternalIPs s = []) (matched ctrl indexKeys) ->
  exists b,
    lookupServiceIndex ParseAddr LookupIP ctrl indexKeys = Ret b
    /\ forall k,
        mget b k
        = flat_map (fun s => mget (fetchServiceLoadBalancerIPs ParseAddr LookupIP
                                      (svc_Ingress s)) k)
            (matched ctrl indexKeys).
Proof.
  intros Hobjs. eexists. split; [reflexivity |]. intros k.
  rewrite lookupServiceIndex_loop_mget by assumption.
  unfold mget at 1. now rewrite lookup_empty.
Qed.

Lemma lookupServiceIndex_merges_statuses_witness :
  exists b,
    lookupServiceIndex Fixture.ParseAddr Fixture.LookupIP
      (fun _ => [Fixture.service "a" ∅ [] [Fixture.lb_ip "192.0.1.1"];
                 Fixture.service "d" ∅ [] [Fixture.lb_ip "192.0.1.4"]])
      ["svc.ns1"] = Ret b
    /\ forall k,
        mget b k
        = flat_map (fun s => mget (fetchServiceLoadBalancerIPs Fixture.ParseAddr
                                      Fixture.LookupIP (svc_Ingress s)) k)
            (matched (fun _ => [Fixture.service "a" ∅ [] [Fixture.lb_ip "192.0.1.1"];
                                Fixture.service "d" ∅ [] [Fixture.lb_ip "192.0.1.4"]])
               ["svc.ns1"]).
Proof.
  apply (lookupServiceIndex_merges_statuses Fixture.ParseAddr Fixture.LookupIP
           (fun _ => [Fixture.service "a" ∅ [] [Fixture.lb_ip "192.0.1.1"];
                      Fixture.service "d" ∅ [] [Fixture.lb_ip "192.0.1.4"]])
           ["svc.ns1"]).
  repeat constructor.
Defined.

(** ** Services with external addresses, list by list *)

(** C10: the first matched Service with external IPs ends the lookup.
    When the Services matched before [service] have no external IPs and
    [service] has some, the closure returns a bundle whose A list is the
    IPv4 addresses of the load-balancer statuses of those earlier
    Services followed by the external IPs of [service] that parse as
    IPv4, in their canonical text and in order; whose AAAA list is the
    same with IPv6; and which has no value under any other key.  The
    Services after it ([post]) do not enter the result, nor does the
    load-balancer status of [service] itself. *)
Theorem lookupServiceIndex_externalIPs_end_lookup ParseAddr LookupIP
  (ctrl : string -> list Service) (indexKeys : list string)
  (pre post : list Service) (service : Service) :
  matched ctrl indexKeys = pre ++ service :: post ->
  Forall (fun s => svc_ExternalIPs s = []) pre ->
  svc_ExternalIPs service <> [] ->
  exists b,
    lookupServiceIndex ParseAddr LookupIP ctrl indexKeys = Ret b
    /\ mget b "A"
       = flat_map (fun s => flat_map (lb_addresses ParseAddr LookupIP V4) (svc_Ingress s)) pre
         ++ parsed_of ParseAddr V4 (svc_ExternalIPs service)
    /\ mget b "AAAA"
       = flat_map (fun s => flat_map (lb_addresses ParseAddr LookupIP V6) (svc_Ingress s)) pre
         ++ parsed_of ParseAddr V6 (svc_ExternalIPs service)
    /\ forall k, k <> "A" -> k <> "AAAA" -> mget b k = [].
Proof.
  intros Hsplit Hpre Hext. unfold lookupServiceIndex.
  rewrite Hsplit, lookupServiceIndex_loop_stop by assumption.
  eexists. split; [reflexivity |].
  assert (Hlist : forall k,
            mget (Some (classify_all ParseAddr (svc_ExternalIPs service)
                          (lookupServiceIndex_loop ParseAddr LookupIP pre ∅))) k
            = flat_map (fun s =>
                          if decide (k = "A")
                          then flat_map (lb_addresses ParseAddr LookupIP V4) (svc_Ingress s)
                          else if decide (k = "AAAA")
                          then flat_map (lb_addresses ParseAddr LookupIP V6) (svc_Ingress s)
                          else []) pre
              ++ (if decide (k = "A") then parsed_of ParseAddr V4 (svc_ExternalIPs service)
                  else if decide (k = "AAAA")
                  then parsed_of ParseAddr V6 (svc_ExternalIPs service)
                  else [])).
  { intros k. rewrite classify_all_mget, lookupServiceIndex_loop_mget by assumption.
    unfold mget at 1. rewrite lookup_empty. cbn [default app]. f_equal.
    apply flat_map_ext. intros s. unfold fetchServiceLoadBalancerIPs.
    rewrite fetchLoadBalancerIPs_loop_mget. unfold mget at 1.
    now rewrite lookup_empty. }
  split; [| split].
  - rewrite Hlist. reflexivity.
  - rewrite Hlist. reflexivity.
  - intros k HA H6. rewrite Hlist.
    destruct (decide (k = "A")); [contradiction |].
    destruct (decide (k = "AAAA")); [contradiction |].
    rewrite app_nil_r. generalize pre as l. clear.
    intros l; induction l as [|s l IH]; [reflexivity | exact IH].
Qed.

(** Three Services under [svc.ns1]: the status address of the first and
    the two external IPs of the second are returned; the third Service and
    the status address of the second are not. *)
Lemma lookupServiceIndex_externalIPs_end_lookup_witness :
  exists b,
    lookupServiceIndex Fixture.ParseAddr Fixture.LookupIP Fixture.serviceIndex ["svc.ns1"]
    = Ret b
    /\ mget b "A" = ["192.0.1.1"; "198.51.100.7"]
    /\ mget b "AAAA" = ["2001:db8::7"]
    /\ mget b "TXT" = [].
Proof.
  pose proof (lookupServiceIndex_externalIPs_end_lookup Fixture.ParseAddr
    Fixture.LookupIP Fixture.serviceIndex ["svc.ns1"]
    [Fixture.service "a" ∅ [] [Fixture.lb_ip "192.0.1.1"]]
    [Fixture.service "c" ∅ ["198.51.100.8"] [Fixture.lb_ip "192.0.1.3"]]
    (Fixture.service "b" ∅ ["198.51.100.7"; "2001:db8::7"]
       [Fixture.lb_ip "192.0.1.2"])) as H.
  destruct H as (b & Hb & HA & H6 & Hk).
  - reflexivity.
  - repeat constructor.
  - discriminate.
  - exists b. split; [exact Hb |]. split; [exact HA |]. split; [exact H6 |].
    apply Hk; discriminate.
Defined.

(** ** Gateways *)

Lemma fetchGatewayIPs_loop_panics ParseAddr LookupIP
  (addrs : list GatewayStatusAddress) (g : gmap string (list string)) :
  fetchGatewayIPs_loop ParseAddr LookupIP addrs g = Panic
  <-> Exists (fun a => gsa_Type a = None) addrs.
Proof.
  revert g; induction addrs as [|a addrs IH]; intros g.
  - split; [discriminate | intros H; inversion H].
  - cbn [fetchGatewayIPs_loop]. rewrite Exists_cons.
    destruct (gsa_Type a) as [[| |] |].
    + destruct (ParseAddr (gsa_Value a)); rewrite IH; intuition discriminate.
    + destruct (LookupIP (gsa_Value a)); rewrite IH; intuition discriminate.
    + rewrite IH; intuition discriminate.
    + intuition.
Qed.

(** X6: when the Gateway extractor panics.  [fetchGatewayIPs] panics
    exactly when one of the status addresses of the Gateway, at any
    position, has no type; otherwise it returns a non-nil bundle. *)
Theorem fetchGatewayIPs_panics_iff ParseAddr LookupIP (gw : gatewayapi_v1.Gateway) :
  (fetchGatewayIPs ParseAddr LookupIP gw = Panic
   <-> Exists (fun a => gsa_Type a = None) (gw_Addresses gw))
  /\ (fetchGatewayIPs ParseAddr LookupIP gw = Panic
      \/ exists g, fetchGatewayIPs ParseAddr LookupIP gw = Ret (Some g)).
Proof.
  unfold fetchGatewayIPs.
  pose proof (fetchGatewayIPs_loop_panics ParseAddr LookupIP (gw_Addresses gw) ∅) as H.
  destruct (fetchGatewayIPs_loop ParseAddr LookupIP (gw_Addresses gw) ∅) as [g |];
    cbn [go_bind].
  - split; [| right; eauto]. rewrite <- H. intuition discriminate.
  - split; [| left; reflexivity]. rewrite <- H. intuition.
Qed.

Lemma lookupGateways_objs_filter ParseAddr LookupIP (gwclasses : list string)
  (gwObjs : list gatewayapi_v1.Gateway) (result : Bundle) :
  gwclasses <> [] ->
  lookupGateways_objs ParseAddr LookupIP gwclasses gwObjs result
  = lookupGateways_objs ParseAddr LookupIP []
      (List.filter (fun g => slices_Contains gwclasses (gw_GatewayClassName g)) gwObjs)
      result.
Proof.
  intros Hcls.
  assert (Hlen : (0 <? length gwclasses)%nat = true)
    by (destruct gwclasses; [contradiction | reflexivity]).
  revert result; induction gwObjs as [|g rest IH]; intros result; [reflexivity |].
  cbn [lookupGateways_objs List.filter]. rewrite Hlen. cbn [andb].
  destruct (slices_Contains gwclasses (gw_GatewayClassName g)); cbn [negb].
  - cbn [lookupGateways_objs length Nat.ltb Nat.leb andb].
    destruct (fetchGatewayIPs ParseAddr LookupIP g); cbn [go_bind]; [apply IH | reflexivity].
  - apply IH.
Qed.

(** X7: the gateway-class filter.  With a non-empty filter,
    [lookupGateways] returns what it returns without a filter over an
    index holding only the Gateways of the listed classes: a Gateway of
    another class adds no address, and is not even read, so an untyped
    status address on it causes no panic. *)
Theorem lookupGateways_class_filter ParseAddr LookupIP
  (gw : string -> list gatewayapi_v1.Gateway) (refs : list ParentReference)
  (ns : string) (gwclasses : list string) :
  gwclasses <> [] ->
  lookupGateways ParseAddr LookupIP gw refs ns gwclasses
  = lookupGateways ParseAddr LookupIP
      (fun gwKey =>
         List.filter (fun g => slices_Contains gwclasses (gw_GatewayClassName g))
           (gw gwKey))
      refs ns [].
Proof.
  intros Hcls. unfold lookupGateways. generalize (@None (gmap string (list string))).
  revert ns; induction refs as [|gwRef rest IH]; intros ns result; [reflexivity |].
  cbn [lookupGateways_refs]. rewrite lookupGateways_objs_filter by assumption.
  destruct (lookupGateways_objs _ _ _ _ result); cbn [go_bind]; [apply IH | reflexivity].
Qed.

Lemma lookupGateways_class_filter_witness :
  lookupGateways Fixture.ParseAddr Fixture.LookupIP Fixture.gatewayIndex
    Fixture.parentRefs "apps" ["istio"]
  = lookupGateways Fixture.ParseAddr Fixture.LookupIP
      (fun gwKey =>
         List.filter (fun g => slices_Contains ["istio"] (gw_GatewayClassName g))
           (Fixture.gatewayIndex gwKey))
      Fixture.parentRefs "apps" [].
Proof.
  apply (lookupGateways_class_filter Fixture.ParseAddr Fixture.LookupIP
           Fixture.gatewayIndex Fixture.parentRefs "apps" ["istio"]).
  discriminate.
Defined.

(** ** Ingresses with a class *)

Lemma lookupIngressIndex_loop_unfiltered ParseAddr LookupIP (objs : list Ingress)
  (result : Bundle) :
  exists b, lookupIngressIndex_loop ParseAddr LookupIP [] objs result = Ret b.
Proof.
  revert result; induction objs as [|i rest IH]; intros result; [now exists result |].
  cbn [lookupIngressIndex_loop length Nat.ltb Nat.leb go_bind]. apply IH.
Qed.

Lemma lookupIngressIndex_loop_filter ParseAddr LookupIP (ingclasses : list string)
  (objs : list Ingress) (result : Bundle) :
  ingclasses <> [] ->
  Forall (fun i => ing_IngressClassName i <> None) objs ->
  lookupIngressIndex_loop ParseAddr LookupIP ingclasses objs result
  = lookupIngressIndex_loop ParseAddr LookupIP []
      (List.filter (class_allowed ingclasses) objs) result.
Proof.
  intros Hcls Hobjs.
  assert (Hlen : (0 <? length ingclasses)%nat = true)
    by (destruct ingclasses; [contradiction | reflexivity]).
  revert result; induction Hobjs as [|i rest Hi _ IH]; intros result; [reflexivity |].
  cbn [lookupIngressIndex_loop List.filter]. rewrite Hlen. unfold class_allowed at 1.
  destruct (ing_IngressClassName i) as [class |]; [| contradiction].
  cbn [go_bind]. destruct (slices_Contains ingclasses class); cbn [negb].
  - cbn [lookupIngressIndex_loop length Nat.ltb Nat.leb go_bind]. apply IH.
  - apply IH.
Qed.

Lemma matched_filter {T : Type} (f : T -> bool) (ctrl : string -> list T)
  (indexKeys : list string) :
  matched (fun key => List.filter f (ctrl key)) indexKeys
  = List.filter f (matched ctrl indexKeys).
Proof.
  unfold matched. induction indexKeys as [|key rest IH]; [reflexivity |].
  cbn [flat_map]. rewrite IH. symmetry. apply List.filter_app.
Qed.

(** X8: the ingress-class filter on Ingresses that have a class.  With a
    non-empty filter, when every matched Ingress has a class name the
    lookup does not panic and returns what it returns without a filter
    over an index holding only the Ingresses of the listed classes. *)
Theorem lookupIngressIndex_class_filter ParseAddr LookupIP
  (ctrl : string -> list Ingress) (ingclasses indexKeys : list string) :
  ingclasses <> [] ->
  Forall (fun i => ing_IngressClassName i <> None) (matched ctrl indexKeys) ->
  lookupIngressIndex ParseAddr LookupIP ctrl ingclasses indexKeys
  = lookupIngressIndex ParseAddr LookupIP
      (fun key => List.filter (class_allowed ingclasses) (ctrl key)) [] indexKeys
  /\ exists b, lookupIngressIndex ParseAddr LookupIP ctrl ingclasses indexKeys = Ret b.
Proof.
  intros Hcls Hobjs. unfold lookupIngressIndex.
  rewrite lookupIngressIndex_loop_filter by assumption.
  rewrite matched_filter. split; [reflexivity |].
  apply lookupIngressIndex_loop_unfiltered.
Qed.

Lemma lookupIngressIndex_class_filter_witness :
  lookupIngressIndex Fixture.ParseAddr Fixture.LookupIP Sample.ingressIndex
    ["nginx"] ["app.example.com"]
  = lookupIngressIndex Fixture.ParseAddr Fixture.LookupIP
      (fun key => List.filter (class_allowed ["nginx"]) (Sample.ingressIndex key))
      [] ["app.example.com"]
  /\ exists b,
      lookupIngressIndex Fixture.ParseAddr Fixture.LookupIP Sample.ingressIndex
        ["nginx"] ["app.example.com"] = Ret b.
Proof.
  apply (lookupIngressIndex_class_filter Fixture.ParseAddr Fixture.LookupIP
           Sample.ingressIndex ["nginx"] ["app.example.com"]).
  - discriminate.
  - repeat constructor; discriminate.
Defined.

(** ** DNSEndpoint objects *)

Section EndpointValues.

Variable ParseAddr : string -> option Addr.

Lemma lookupDNSEndpoint_target_mget (recordType target k : string)
  (g : gmap string (list string)) :
  mget (Some (lookupDNSEndpoint_target ParseAddr recordType target g)) k
  = mget (Some g) k ++ target_values ParseAddr k recordType target.
Proof.
  assert (E1 : String.eqb "A" "AAAA" = false) by reflexivity.
  assert (E2 : String.eqb "A" "TXT" = false) by reflexivity.
  assert (E3 : String.eqb "AAAA" "TXT" = false) by reflexivity.
  assert (E4 : String.eqb "AAAA" "A" = false) by reflexivity.
  assert (E5 : String.eqb "TXT" "TXT" = true) by reflexivity.
  assert (E6 : String.eqb "A" "A" = true) by reflexivity.
  assert (E7 : String.eqb "AAAA" "AAAA" = true) by reflexivity.
  unfold lookupDNSEndpoint_target, target_values, parsed_any. cbn [flat_map].
  destruct (String.eqb_spec recordType "A") as [-> | HA].
  - rewrite E1, E2.
    destruct (ParseAddr target) as [addr |].
    + rewrite mget_append_at_ensure.
      destruct (decide ("A" = k)) as [<- | Hk].
      * rewrite E6, E2. cbn [orb]. now rewrite app_nil_r.
      * destruct (String.eqb_spec "A" k); [contradiction | now rewrite app_nil_r].
    + destruct (String.eqb_spec "A" k) as [<- | Hk];
        rewrite ?E2, ?E6; now rewrite ?app_nil_r.
  - destruct (String.eqb_spec recordType "AAAA") as [-> | HAAAA].
    + rewrite E3.
      destruct (ParseAddr target) as [addr |].
      * rewrite mget_append_at_ensure.
        destruct (decide ("AAAA" = k)) as [<- | Hk].
        -- rewrite E7, E3, E4. cbn [orb]. now rewrite app_nil_r.
        -- destruct (String.eqb_spec "AAAA" k); [contradiction | now rewrite app_nil_r].
      * destruct (String.eqb_spec "AAAA" k) as [<- | Hk];
          rewrite ?E3, ?E4, ?E7; now rewrite ?app_nil_r.
    + destruct (String.eqb_spec recordType "TXT") as [-> | HTXT].
      * rewrite mget_append_at_ensure.
        destruct (decide ("TXT" = k)) as [<- | Hk].
        -- now rewrite E5.
        -- destruct (String.eqb_spec "TXT" k); [contradiction | now rewrite app_nil_r].
      * destruct (String.eqb_spec recordType k) as [<- | Hk]; [| now rewrite app_nil_r].
        destruct (String.eqb_spec recordType "TXT"); [contradiction |].
        destruct (String.eqb_spec recordType "A"); [contradiction |].
        destruct (String.eqb_spec recordType "AAAA"); [contradiction |].
        now rewrite app_nil_r.
Qed.

Lemma lookupDNSEndpoint_endpoint_mget (endpoint : Endpoint) (k : string)
  (g : gmap string (list string)) :
  mget (Some (lookupDNSEndpoint_endpoint ParseAddr endpoint g)) k
  = mget (Some g) k ++ endpoint_values ParseAddr k endpoint.
Proof.
  unfold lookupDNSEndpoint_endpoint, endpoint_values.
  generalize (ep_RecordType endpoint) as rt. intros rt.
  revert g; induction (ep_Targets endpoint) as [|t ts IH]; intros g.
  - cbn. now rewrite app_nil_r.
  - cbn [fold_left flat_map]. rewrite IH, lookupDNSEndpoint_target_mget.
    now rewrite <- app_assoc.
Qed.

Lemma lookupDNSEndpoint_object_mget (dnsEndpoint : DNSEndpoint) (k : string)
  (g : gmap string (list string)) :
  mget (Some (lookupDNSEndpoint_object ParseAddr dnsEndpoint g)) k
  = mget (Some g) k ++ flat_map (endpoint_values ParseAddr k) (de_Endpoints dnsEndpoint).
Proof.
  unfold lookupDNSEndpoint_object.
  revert g; induction (de_Endpoints dnsEndpoint) as [|e es IH]; intros g.
  - cbn. now rewrite app_nil_r.
  - cbn [fold_left flat_map]. rewrite IH, lookupDNSEndpoint_endpoint_mget.
    now rewrite <- app_assoc.
Qed.

End EndpointValues.

(** X9: what a DNSEndpoint lookup returns.  The bundle is never nil, and
    under each key it lists, object by object and endpoint by endpoint in
    order, the targets of every endpoint of every matched object whose
    record type is that key: raw for TXT, in the canonical text of the
    parsed address for A and AAAA, with targets that do not parse left
    out.  The [dnsName] of an endpoint plays no part: all endpoints of a
    matched object contribute, also those declared for other names; and
    the record type alone chooses the list, not the family of the
    address. *)
Theorem lookupDNSEndpoint_lists ParseAddr (ctrl : string -> list DNSEndpoint)
  (indexKeys : list string) :
  exists g,
    lookupDNSEndpoint ParseAddr ctrl indexKeys = Ret (Some g)
    /\ forall k,
        mget (Some g) k
        = flat_map (endpoint_values ParseAddr k)
            (flat_map de_Endpoints (matched ctrl indexKeys)).
Proof.
  eexists. split; [reflexivity |]. intros k.
  generalize (matched ctrl indexKeys) as objs. intros objs.
  assert (H : forall g0,
             mget (Some (fold_left (fun result dnsEndpoint =>
                                      lookupDNSEndpoint_object ParseAddr dnsEndpoint result)
                           objs g0)) k
             = mget (Some g0) k
               ++ flat_map (endpoint_values ParseAddr k) (flat_map de_Endpoints objs)).
  { induction objs as [|o os IH]; intros g0.
    - cbn. now rewrite app_nil_r.
    - cbn [fold_left flat_map]. rewrite IH, lookupDNSEndpoint_object_mget.
      rewrite flat_map_app. now rewrite <- app_assoc. }
  rewrite H. unfold mget at 1. now rewrite lookup_empty.
Qed.

(** The example manifest, asked for [test2.example.dev]: the TXT value
    declared for [test4.example.dev] comes back too. *)
Example lookupDNSEndpoint_example_manifest :
  exists b,
    lookupDNSEndpoint Fixture.ParseAddr Sample.dnsEndpointIndex ["test2.example.dev"]
    = Ret b
    /\ mget b "A" = ["192.168.30.1"]
    /\ mget b "TXT" = ["challenge"]
    /\ mget b "CNAME" = [].
Proof.
  eexists. split; [reflexivity |]. repeat split; vm_compute; reflexivity.
Qed.

(** ** The keys of a returned bundle *)

Lemma lookup_append_at_ensure (k k' : string) (vs : list string)
  (g : gmap string (list string)) :
  append_at k vs (ensure k g) !! k'
  = if decide (k = k') then Some (default [] (g !! k) ++ vs) else g !! k'.
Proof.
  unfold append_at. destruct (decide (k = k')) as [<- | Hne].
  - rewrite lookup_insert_eq. now rewrite default_ensure.
  - rewrite lookup_insert_ne by assumption.
    unfold ensure. destruct (g !! k); [reflexivity |].
    now rewrite lookup_insert_ne.
Qed.

Lemma only_filled_empty : only_filled_keys ∅.
Proof.
  intros k. unfold mget. rewrite lookup_empty. cbn [default]. split.
  - intros [x Hx]. discriminate Hx.
  - intros H. now contradiction H.
Qed.

Lemma only_filled_append (k : string) (vs : list string)
  (g : gmap string (list string)) :
  vs <> [] ->
  only_filled_keys g ->
  only_filled_keys (append_at k vs (ensure k g)).
Proof.
  intros Hvs Hg k'. unfold mget. rewrite lookup_append_at_ensure.
  destruct (decide (k = k')) as [<- | Hne].
  - cbn [default]. split; [| eauto].
    intros _ E. apply app_eq_nil in E as [_ E]. contradiction.
  - apply Hg.
Qed.

Lemma only_filled_classify (addr : Addr) (g : gmap string (list string)) :
  only_filled_keys g -> only_filled_keys (classify addr g).
Proof.
  intros Hg. unfold classify.
  destruct (Is4 addr), (Is6 addr);
    repeat (apply only_filled_append; [discriminate |]); exact Hg.
Qed.

Lemma only_filled_classify_all ParseAddr (ips : list string)
  (g : gmap string (list string)) :
  only_filled_keys g -> only_filled_keys (classify_all ParseAddr ips g).
Proof.
  revert g; induction ips as [|ip ips IH]; intros g Hg; [exact Hg |].
  cbn [classify_all]. destruct (ParseAddr ip) as [addr |]; [| now apply IH].
  apply IH. now apply only_filled_classify.
Qed.

Lemma only_filled_target ParseAddr (recordType target : string)
  (g : gmap string (list string)) :
  only_filled_keys g ->
  only_filled_keys (lookupDNSEndpoint_target ParseAddr recordType target g).
Proof.
  intros Hg. unfold lookupDNSEndpoint_target.
  assert (Htxt : forall g', only_filled_keys g' ->
            only_filled_keys (if String.eqb recordType "TXT"
                              then append_at "TXT" [target] (ensure "TXT" g') else g')).
  { intros g' Hg'. destruct (String.eqb recordType "TXT"); [| exact Hg'].
    apply only_filled_append; [discriminate | exact Hg']. }
  assert (H6 : forall g', only_filled_keys g' ->
            only_filled_keys
              (match (if String.eqb recordType "AAAA"
                      then match ParseAddr target with
                           | Some addr =>
                               Some (append_at "AAAA" [addr_String addr] (ensure "AAAA" g'))
                           | None => None
                           end
                      else Some g') with
               | Some result =>
                   if String.eqb recordType "TXT"
                   then append_at "TXT" [target] (ensure "TXT" result) else result
               | None => g'
               end)).
  { intros g' Hg'. destruct (String.eqb recordType "AAAA"); [| now apply Htxt].
    destruct (ParseAddr target); [| exact Hg'].
    apply Htxt. apply only_filled_append; [discriminate | exact Hg']. }
  destruct (String.eqb recordType "A"); [| now apply H6].
  destruct (ParseAddr target); [| exact Hg].
  apply H6. apply only_filled_append; [discriminate | exact Hg].
Qed.

Lemma only_filled_endpoint ParseAddr (endpoint : Endpoint)
  (g : gmap string (list string)) :
  only_filled_keys g ->
  only_filled_keys (lookupDNSEndpoint_endpoint ParseAddr endpoint g).
Proof.
  unfold lookupDNSEndpoint_endpoint.
  revert g; induction (ep_Targets endpoint) as [|t ts IH]; intros g Hg; [exact Hg |].
  cbn [fold_left]. apply IH. now apply only_filled_target.
Qed.

Lemma only_filled_object ParseAddr (dnsEndpoint : DNSEndpoint)
  (g : gmap string (list string)) :
  only_filled_keys g ->
  only_filled_keys (lookupDNSEndpoint_object ParseAddr dnsEndpoint g).
Proof.
  unfold lookupDNSEndpoint_object.
  revert g; induction (de_Endpoints dnsEndpoint) as [|e es IH]; intros g Hg; [exact Hg |].
  cbn [fold_left]. apply IH. now apply only_filled_endpoint.
Qed.

Lemma classify_keeps (addr : Addr) (k : string) (g : gmap string (list string)) :
  is_Some (g !! k) -> is_Some (classify addr g !! k).
Proof.
  intros Hk. unfold classify.
  destruct (Is4 addr), (Is6 addr);
    repeat (apply append_at_keeps, ensure_keeps); exact Hk.
Qed.

Lemma classify_all_keeps ParseAddr (ips : list string) (k : string)
  (g : gmap string (list string)) :
  is_Some (g !! k) -> is_Some (classify_all ParseAddr ips g !! k).
Proof.
  revert g; induction ips as [|ip ips IH]; intros g Hk; [exact Hk |].
  cbn [classify_all]. destruct (ParseAddr ip) as [addr |]; [| now apply IH].
  apply IH. now apply classify_keeps.
Qed.

Lemma lookupServiceIndex_loop_all_keys ParseAddr LookupIP (objs : list Service)
  (g : gmap string (list string)) :
  has_all_keys (Some g) ->
  has_all_keys (Some (lookupServiceIndex_loop ParseAddr LookupIP objs g)).
Proof.
  revert g; induction objs as [|service rest IH]; intros g Hg; [exact Hg |].
  cbn [lookupServiceIndex_loop].
  destruct (0 <? length (svc_ExternalIPs service))%nat.
  - destruct Hg as (HA & H6 & HT).
    repeat split; now apply classify_all_keeps.
  - apply IH.
    apply (appenddnsResults_has_all_keys (Some g)
             (fetchServiceLoadBalancerIPs ParseAddr LookupIP (svc_Ingress service))).
Qed.

(** C6, as the code has it: a returned bundle is not always a map with
    three keys.  What [getMatchingAddresses], the Ingress closure and the
    three route closures return is the nil bundle or a bundle with all
    three keys; the no-op lookup returns the nil bundle.  The Service and
    DNSEndpoint closures never return the nil bundle.  The bundle of the
    DNSEndpoint closure has a key exactly where it has a value, and no
    key at all when no object was matched.  The bundle of the Service
    closure has no key when no object was matched, all three keys when
    the first matched Service has no external IPs, and otherwise a key
    exactly where it has a value. *)
Theorem returned_bundles_keys :
  (forall resources indexKeySets,
      nil_or_all_keys (fst (getMatchingAddresses resources indexKeySets)))
  /\ (forall ParseAddr LookupIP ctrl ingclasses indexKeys,
        nil_or_all_keys (lookupIngressIndex ParseAddr LookupIP ctrl ingclasses indexKeys))
  /\ (forall ParseAddr LookupIP routes gw gwclasses indexKeys,
        nil_or_all_keys (lookupHttpRouteIndex ParseAddr LookupIP routes gw gwclasses indexKeys)
        /\ nil_or_all_keys (lookupTLSRouteIndex ParseAddr LookupIP routes gw gwclasses indexKeys)
        /\ nil_or_all_keys (lookupGRPCRouteIndex ParseAddr LookupIP routes gw gwclasses indexKeys))
  /\ (forall indexKeys, noop indexKeys = Ret None)
  /\ (forall ParseAddr LookupIP ctrl indexKeys,
        exists g,
          lookupServiceIndex ParseAddr LookupIP ctrl indexKeys = Ret (Some g)
          /\ match matched ctrl indexKeys with
             | [] => g = ∅
             | service :: _ =>
                 if (0 <? length (svc_ExternalIPs service))%nat then only_filled_keys g
                 else has_all_keys (Some g)
             end)
  /\ (forall ParseAddr ctrl indexKeys,
        exists g,
          lookupDNSEndpoint ParseAddr ctrl indexKeys = Ret (Some g)
          /\ only_filled_keys g
          /\ (matched ctrl indexKeys = [] -> g = ∅)).
Proof.
  split; [apply getMatchingAddresses_nil_or_all_keys |].
  split; [intros; apply lookupIngressIndex_loop_keys; exact I |].
  split; [intros; repeat split; apply lookupRouteIndex_loop_keys; exact I |].
  split; [reflexivity |].
  split.
  - intros ParseAddr LookupIP ctrl indexKeys. unfold lookupServiceIndex.
    eexists. split; [reflexivity |].
    destruct (matched ctrl indexKeys) as [|service rest]; [reflexivity |].
    cbn [lookupServiceIndex_loop].
    destruct (0 <? length (svc_ExternalIPs service))%nat.
    + apply only_filled_classify_all, only_filled_empty.
    + apply lookupServiceIndex_loop_all_keys.
      apply (appenddnsResults_has_all_keys (Some ∅)
               (fetchServiceLoadBalancerIPs ParseAddr LookupIP (svc_Ingress service))).
  - intros ParseAddr ctrl indexKeys. unfold lookupDNSEndpoint.
    eexists. split; [reflexivity |]. split.
    + generalize (only_filled_empty).
      generalize (∅ : gmap string (list string)) as g.
      induction (matched ctrl indexKeys) as [|o os IH]; intros g Hg; [exact Hg |].
      cbn [fold_left]. apply IH. now apply only_filled_object.
    + intros ->. reflexivity.
Qed.

(** The no-op lookup of a kind that is not enabled hands its caller the
    nil bundle, and so does the engine over a registry with the route
    kind alone, left with its no-op lookup; a Service with one IPv4
    external address gives a bundle with the key A only; a DNSEndpoint
    lookup that matches nothing gives a bundle without keys. *)
Lemma noop_returns_nil_bundle :
  noop ["svc1.ns1"] = Ret None
  /\ fst (getMatchingAddresses (entries declared (updateResources declared ["HTTPRoute"]))
            [["svc1.ns1.example.com"; "svc1.ns1"]])
     = Ret None
  /\ ~ has_all_keys None
  /\ (exists g,
        lookupServiceIndex Fixture.ParseAddr Fixture.LookupIP
          (fun _ => [Fixture.service "c" ∅ ["198.51.100.8"] []]) ["c.ns1"] = Ret (Some g)
        /\ g !! "AAAA" = None /\ ~ has_all_keys (Some g))
  /\ (exists g,
        lookupDNSEndpoint Fixture.ParseAddr (fun _ => []) ["test.example.com"]
        = Ret (Some g)
        /\ g !! "A" = None /\ ~ has_all_keys (Some g)).
Proof.
  split; [reflexivity |]. split; [reflexivity |]. split; [intros [] |].
  split.
  - eexists. split; [reflexivity |].
    split; [vm_compute; reflexivity |].
    intros (_ & [x Hx] & _). vm_compute in Hx. discriminate Hx.
  - eexists. split; [reflexivity |].
    split; [vm_compute; reflexivity |].
    intros ([x Hx] & _). vm_compute in Hx. discriminate Hx.
Qed.

(** ** Records without duplicates *)

Lemma dedup_records_first_seen (mk : string -> RR) (results : list string)
  (dup : gset string) (records : list RR) :
  dedup_records mk results dup records = records ++ map mk (first_seen results dup).
Proof.
  revert dup records; induction results as [|x rest IH]; intros dup records.
  - cbn. now rewrite app_nil_r.
  - cbn [dedup_records first_seen]. destruct (bool_decide (x ∈ dup)); [apply IH |].
    rewrite IH. cbn [map]. now rewrite <- app_assoc.
Qed.

Lemma first_seen_elem_of (l : list string) (seen : gset string) (x : string) :
  x ∈ first_seen l seen <-> x ∈ l /\ x ∉ seen.
Proof.
  revert seen; induction l as [|y l IH]; intros seen; cbn [first_seen].
  - rewrite !elem_of_nil. tauto.
  - case_bool_decide as Hy.
    + rewrite IH, elem_of_cons. split; [tauto |].
      intros [[-> | Hx] Hns]; [contradiction | tauto].
    + rewrite !elem_of_cons, IH. split.
      * intros [-> | [Hx Hns]]; [tauto |]. split; [tauto |].
        intros Hs. apply Hns, elem_of_union. now right.
      * intros [[-> | Hx] Hns]; [tauto |].
        destruct (decide (x = y)) as [-> | Hne]; [tauto |]. right. split; [tauto |].
        rewrite elem_of_union, elem_of_singleton. tauto.
Qed.

Lemma first_seen_NoDup (l : list string) (seen : gset string) :
  NoDup (first_seen l seen).
Proof.
  revert seen; induction l as [|y l IH]; intros seen; cbn [first_seen].
  - constructor.
  - case_bool_decide as Hy; [apply IH |].
    constructor; [| apply IH].
    rewrite first_seen_elem_of. intros [_ Hn].
    apply Hn, elem_of_union. left. now apply elem_of_singleton.
Qed.

Lemma first_seen_sublist (l : list string) (seen : gset string) :
  sublist (first_seen l seen) l.
Proof.
  revert seen; induction l as [|y l IH]; intros seen; cbn [first_seen].
  - constructor.
  - case_bool_decide; [apply sublist_cons, IH | apply sublist_skip, IH].
Qed.

Lemma first_seen_head (x : string) (l : list string) :
  exists tl, first_seen (x :: l) ∅ = x :: tl.
Proof.
  cbn [first_seen]. rewrite bool_decide_eq_false_2 by apply not_elem_of_empty. eauto.
Qed.

(** X10: one answer record per distinct text.  [A], [AAAA] and [TXT]
    build one record for each distinct string of their input, in the order
    in which the strings first occur: the strings kept are free of
    duplicates, they are exactly the strings of the input, and they form a
    subsequence of it that starts with its first string.  An A or AAAA
    record carries [net.ParseIP] of its string, a TXT record its string cut
    by [split255].  The strings are compared, not the addresses: the
    records number as many as the distinct strings, whatever [net.ParseIP]
    makes of them. *)
Theorem answers_one_record_per_distinct_text (ParseIP : string -> IP) (gw : Gateway)
  (n : string) (results : list string) :
  A ParseIP gw n results
  = map (fun v => RR_A n (ttlLow gw) (ParseIP v)) (first_seen results ∅)
  /\ AAAA ParseIP gw n results
     = map (fun v => RR_AAAA n (ttlLow gw) (ParseIP v)) (first_seen results ∅)
  /\ TXT gw n results
     = map (fun v => RR_TXT n (ttlLow gw) (split255 v)) (first_seen results ∅)
  /\ length (A ParseIP gw n results) = length (first_seen results ∅)
  /\ length (AAAA ParseIP gw n results) = length (first_seen results ∅)
  /\ NoDup (first_seen results ∅)
  /\ (forall v, v ∈ first_seen results ∅ <-> v ∈ results)
  /\ sublist (first_seen results ∅) results
  /\ (forall x rest, results = x :: rest -> exists tl, first_seen results ∅ = x :: tl).
Proof.
  unfold A, AAAA, TXT. rewrite !dedup_records_first_seen. cbn [app].
  rewrite !length_map.
  repeat split; try reflexivity.
  - apply first_seen_NoDup.
  - rewrite first_seen_elem_of. tauto.
  - intros Hv. rewrite first_seen_elem_of. split; [assumption | apply not_elem_of_empty].
  - apply first_seen_sublist.
  - intros x rest ->. apply first_seen_head.
Qed.

Example A_drops_the_repeated_address :
  A Fixture.ParseIP gateway_test.testGateway "svc1.ns1.example.com."
    ["192.0.1.1"; "192.0.1.2"; "192.0.1.1"]
  = [RR_A "svc1.ns1.example.com." 60
       (Some [0; 0; 0; 0; 0; 0; 0; 0; 0; 0; 255; 255; 192; 0; 1; 1]%N);
     RR_A "svc1.ns1.example.com." 60
       (Some [0; 0; 0; 0; 0; 0; 0; 0; 0; 0; 255; 255; 192; 0; 1; 2]%N)].
Proof. vm_compute. reflexivity. Qed.

(** Two texts of one address give two records with that address, and a
    text with a zone gives a record with the nil IP. *)
Example A_keeps_two_texts_of_one_address :
  A Fixture.ParseIP gateway_test.testGateway "svc1.ns1.example.com."
    ["1.2.3.4"; "::ffff:1.2.3.4"; "fe80::1%eth0"]
  = [RR_A "svc1.ns1.example.com." 60
       (Some [0; 0; 0; 0; 0; 0; 0; 0; 0; 0; 255; 255; 1; 2; 3; 4]%N);
     RR_A "svc1.ns1.example.com." 60
       (Some [0; 0; 0; 0; 0; 0; 0; 0; 0; 0; 255; 255; 1; 2; 3; 4]%N);
     RR_A "svc1.ns1.example.com." 60 None].
Proof. vm_compute. reflexivity. Qed.

(** ** Key sets in order *)

Lemma all_probes_app (resources : list resourceWithIndex)
  (ks more : list (list string)) :
  all_probes resources (ks ++ more)
  = all_probes resources ks ++ all_probes resources more.
Proof. unfold all_probes. apply flat_map_app. Qed.

(** X11: an earlier key set that answers hides the later ones.  When
    the engine, run on some key sets, does not come back with the nil
    bundle, running it with further key sets appended gives the same
    bundle and makes the same calls: the wildcard keys are consulted only
    when the specific keys gave nothing. *)
Theorem getMatchingAddresses_earlier_key_sets_win (resources : list resourceWithIndex)
  (indexKeySets more : list (list string)) :
  fst (getMatchingAddresses resources indexKeySets) <> Ret None ->
  getMatchingAddresses resources (indexKeySets ++ more)
  = getMatchingAddresses resources indexKeySets.
Proof.
  unfold getMatchingAddresses. rewrite !probe_keysets_search, all_probes_app, search_app.
  pose proof (search_returns_filled (all_probes resources indexKeySets) []) as Hfilled.
  destruct (search (all_probes resources indexKeySets) []) as [[addrs | |] log];
    cbn [fst] in *; intros H; try reflexivity.
  now contradiction H.
Qed.

Lemma getMatchingAddresses_earlier_key_sets_win_witness :
  getMatchingAddresses gateway_test.testResources
    ([gateway_test.svc2_specific] ++ [gateway_test.svc2_wildcard])
  = getMatchingAddresses gateway_test.testResources [gateway_test.svc2_specific].
Proof.
  pose proof (getMatchingAddresses_earlier_key_sets_win gateway_test.testResources
                [gateway_test.svc2_specific] [gateway_test.svc2_wildcard]) as H.
  apply H. vm_compute. discriminate.
Defined.

(** ** Replies *)

Section Replies.

Variable ParseIP : string -> IP.
Variable Matches : list string -> string -> string.
Variable IsSubDomain : string -> string -> bool.
Variable Through : string -> bool.
Variable soa : Gateway -> Request -> RR.
Variable nameservers : Gateway -> Request -> list RR.
Variable ExternalAddrFunc : Request -> list RR.

(** What [ServeDNS] does with a query it takes as far as the engine. *)
Lemma ServeDNS_resolved (gw : Gateway) (state : Request) (isRootZoneQuery : bool)
  (addrs : Bundle) :
  resolved Matches IsSubDomain gw state isRootZoneQuery addrs ->
  ServeDNS ParseIP Matches IsSubDomain Through soa nameservers ExternalAddrFunc gw state
  = if (length (mget addrs "A") =? 0)%nat && (length (mget addrs "AAAA") =? 0)%nat
       && (length (mget addrs "TXT") =? 0)%nat && Through (QName state)
    then NextOrFailure
    else Replied (build_reply ParseIP soa nameservers ExternalAddrFunc gw
                    (set_Zone (query_zone Matches gw state) state)
                    isRootZoneQuery addrs).
Proof.
  intros (Hzone & Hlen & Hsync & Hscan & keys & Hkeys & Haddrs).
  unfold ServeDNS.
  destruct (String.eqb_spec (Matches (Zones gw) (QName state)) "") as [E | _];
    [contradiction |].
  rewrite (proj2 (Nat.leb_le _ _) Hlen). cbn [negb].
  rewrite Hkeys, Hsync. cbn [negb]. rewrite Hscan, Haddrs.
  destruct isRootZoneQuery; reflexivity.
Qed.

End Replies.

(** X12: when the answer is NXDOMAIN.  The reply built for a query has
    the Authoritative flag set and the code NOERROR or NXDOMAIN.  It is
    NXDOMAIN exactly when the name is not the apex and the query is an A
    query for a bundle without A, an AAAA query for a bundle without AAAA
    and without A, or a TXT query for a bundle without TXT; never for
    another query type; and an NXDOMAIN reply has no answer and the SOA
    as its authority section. *)
Theorem build_reply_NXDOMAIN ParseIP soa nameservers ExternalAddrFunc (gw : Gateway)
  (state : Request) (isRootZoneQuery : bool) (addrs : Bundle) :
  Authoritative (build_reply ParseIP soa nameservers ExternalAddrFunc gw state
                   isRootZoneQuery addrs) = true
  /\ (Rcode (build_reply ParseIP soa nameservers ExternalAddrFunc gw state
               isRootZoneQuery addrs) = RcodeNameError
      <-> isRootZoneQuery = false
          /\ ((QType_ state = TypeA /\ mget addrs "A" = [])
              \/ (QType_ state = TypeAAAA /\ mget addrs "AAAA" = [] /\ mget addrs "A" = [])
              \/ (QType_ state = TypeTXT /\ mget addrs "TXT" = [])))
  /\ (Rcode (build_reply ParseIP soa nameservers ExternalAddrFunc gw state
               isRootZoneQuery addrs) = RcodeSuccess
      \/ (Rcode (build_reply ParseIP soa nameservers ExternalAddrFunc gw state
                   isRootZoneQuery addrs) = RcodeNameError
          /\ Answer (build_reply ParseIP soa nameservers ExternalAddrFunc gw state
                       isRootZoneQuery addrs) = []
          /\ Ns (build_reply ParseIP soa nameservers ExternalAddrFunc gw state
                   isRootZoneQuery addrs) = [soa gw state]
          /\ Extra (build_reply ParseIP soa nameservers ExternalAddrFunc gw state
                      isRootZoneQuery addrs) = [])).
Proof.
  unfold build_reply.
  destruct (QType_ state), isRootZoneQuery,
    (mget addrs "A") as [|a la], (mget addrs "AAAA") as [|b lb],
    (mget addrs "TXT") as [|c lc];
    cbn; unfold RcodeNameError, RcodeSuccess;
    intuition (try discriminate; try congruence; auto).
Qed.

(** X13: an A query for a name without A addresses.  For a query that
    gets as far as the engine and does not fall through, when the bundle
    has no A address the reply has no answer and the SOA as authority,
    with the code NOERROR at the apex and NXDOMAIN below it, also when the
    bundle holds AAAA addresses: the RFC 4074 rule is applied to AAAA
    queries only. *)
Theorem ServeDNS_A_without_A ParseIP Matches IsSubDomain Through soa nameservers
  ExternalAddrFunc (gw : Gateway) (state : Request) (isRootZoneQuery : bool)
  (addrs : Bundle) :
  resolved Matches IsSubDomain gw state isRootZoneQuery addrs ->
  QType_ state = TypeA ->
  mget addrs "A" = [] ->
  mget addrs "AAAA" <> [] \/ mget addrs "TXT" <> [] \/ Through (QName state) = false ->
  ServeDNS ParseIP Matches IsSubDomain Through soa nameservers ExternalAddrFunc gw state
  = Replied {| Rcode := if isRootZoneQuery then RcodeSuccess else RcodeNameError;
               Authoritative := true;
               Answer := [];
               Ns := [soa gw (set_Zone (query_zone Matches gw state) state)];
               Extra := [] |}.
Proof.
  intros Hres Hq HA Hnofall.
  rewrite (ServeDNS_resolved ParseIP Matches IsSubDomain Through soa nameservers
             ExternalAddrFunc gw state isRootZoneQuery addrs Hres).
  assert (Hcond : (length (mget addrs "A") =? 0)%nat
                  && (length (mget addrs "AAAA") =? 0)%nat
                  && (length (mget addrs "TXT") =? 0)%nat && Through (QName state)
                  = false).
  { destruct Hnofall as [H | [H | H]].
    - destruct (mget addrs "AAAA"); [contradiction |]. cbn. now rewrite andb_false_r.
    - destruct (mget addrs "TXT"); [contradiction |]. cbn. now rewrite !andb_false_r.
    - rewrite H. now rewrite andb_false_r. }
  rewrite Hcond. unfold build_reply. cbn [QType_ set_Zone]. rewrite Hq, HA.
  destruct isRootZoneQuery; reflexivity.
Qed.

(** [svc3.ns1.example.com.] of the test table (Test with an empty
    Service): NXDOMAIN with the SOA. *)
Lemma ServeDNS_A_without_A_witness :
  ServeDNS Fixture.ParseIP Fixture.Matches Fixture.IsSubDomain Fixture.Through Fixture.soa
    Fixture.nameservers Fixture.ExternalAddrFunc gateway_test.testGateway
    (Sample.query "svc3.ns1.example.com." TypeA)
  = Replied {| Rcode := RcodeNameError;
               Authoritative := true;
               Answer := [];
               Ns := [Fixture.soa gateway_test.testGateway
                        (set_Zone (query_zone Fixture.Matches gateway_test.testGateway
                                     (Sample.query "svc3.ns1.example.com." TypeA))
                           (Sample.query "svc3.ns1.example.com." TypeA))];
               Extra := [] |}.
Proof.
  pose proof (ServeDNS_A_without_A Fixture.ParseIP Fixture.Matches Fixture.IsSubDomain Fixture.Through
    Fixture.soa Fixture.nameservers Fixture.ExternalAddrFunc gateway_test.testGateway
    (Sample.query "svc3.ns1.example.com." TypeA) false None) as H.
  apply H.
  - split; [vm_compute; discriminate |].
    split; [vm_compute; lia |].
    split; [reflexivity |].
    split; [vm_compute; reflexivity |].
    exists [["svc3.ns1.example.com"; "svc3.ns1"]; ["*.ns1.example.com"; "*.ns1"]].
    split; vm_compute; reflexivity.
  - reflexivity.
  - reflexivity.
  - right. right. reflexivity.
Defined.

(** X14: when a query falls through.  A query that gets as far as the
    engine is handed to the next plugin exactly when its bundle is empty
    for A, AAAA and TXT and the fallthrough zones cover its name; with any
    address or text in the bundle it is answered here. *)
Theorem ServeDNS_falls_through_iff ParseIP Matches IsSubDomain Through soa nameservers
  ExternalAddrFunc (gw : Gateway) (state : Request) (isRootZoneQuery : bool)
  (addrs : Bundle) :
  resolved Matches IsSubDomain gw state isRootZoneQuery addrs ->
  ServeDNS ParseIP Matches IsSubDomain Through soa nameservers ExternalAddrFunc gw state
  = NextOrFailure
  <-> all_empty addrs /\ Through (QName state) = true.
Proof.
  intros Hres.
  rewrite (ServeDNS_resolved ParseIP Matches IsSubDomain Through soa nameservers
             ExternalAddrFunc gw state isRootZoneQuery addrs Hres).
  unfold all_empty.
  destruct (mget addrs "A"), (mget addrs "AAAA"), (mget addrs "TXT"),
    (Through (QName state)); cbn; intuition discriminate.
Qed.

(** With every name covered by the fallthrough zones, the unknown name
    [non-existent.example.com.] goes to the next plugin. *)
Lemma ServeDNS_falls_through_iff_witness :
  ServeDNS Fixture.ParseIP Fixture.Matches Fixture.IsSubDomain (fun _ => true) Fixture.soa
    Fixture.nameservers Fixture.ExternalAddrFunc gateway_test.testGateway
    (Sample.query "non-existent.example.com." TypeA)
  = NextOrFailure
  <-> all_empty None /\ true = true.
Proof.
  pose proof (ServeDNS_falls_through_iff Fixture.ParseIP Fixture.Matches Fixture.IsSubDomain
    (fun _ => true) Fixture.soa Fixture.nameservers Fixture.ExternalAddrFunc
    gateway_test.testGateway (Sample.query "non-existent.example.com." TypeA)
    false None) as H.
  apply H.
  split; [vm_compute; discriminate |].
  split; [vm_compute; lia |].
  split; [reflexivity |].
  split; [vm_compute; reflexivity |].
  exists [["non-existent.example.com"; "non-existent"]; ["*.example.com"; "*"]].
  split; vm_compute; reflexivity.
Defined.

(** ** The chunks of a TXT value *)

Lemma split255_loop_shape (s : string) (p i : nat) (sx : list string) :
  i = p + 255 ->
  Forall (fun chunk => String.length chunk = 255) sx ->
  exists full last,
    split255_loop s p i sx = full ++ [last]
    /\ Forall (fun chunk => String.length chunk = 255) full
    /\ String.length last < 255.
Proof.
  funelim (split255_loop s p i sx); intros Hi Hsx.
  - apply H; [lia |].
    apply Forall_app; split; [assumption |].
    constructor; [| constructor].
    unfold GoString.slice. rewrite prefix_length, from_length. lia.
  - exists sx, (GoString.from p s). split; [reflexivity |]. split; [assumption |].
    rewrite from_length. lia.
Qed.

(** X15: the shape of [split255].  The chunks put together give the
    string back; all chunks but the last have exactly 255 bytes and the
    last has fewer than 255, possibly none. *)
Theorem split255_shape (s : string) :
  GoString.concat (split255 s) = s
  /\ Forall (fun chunk => String.length chunk <= 255) (split255 s)
  /\ exists full last,
      split255 s = full ++ [last]
      /\ Forall (fun chunk => String.length chunk = 255) full
      /\ String.length last < 255.
Proof.
  split; [apply split255_concat |]. split; [apply split255_bound |].
  unfold split255. destruct (String.length s <? 255)%nat eqn:Hlt.
  - apply Nat.ltb_lt in Hlt. exists [], s. repeat split; [constructor | assumption].
  - apply split255_loop_shape; [reflexivity | constructor].
Qed.

(** ** The sync gate *)

Lemma ServeDNS_not_synced_witness :
  ServeDNS Fixture.ParseIP Fixture.Matches Fixture.IsSubDomain Fixture.Through Fixture.soa
    Fixture.nameservers Fixture.ExternalAddrFunc Sample.unsynced
    (Sample.query "svc1.ns1.example.com." TypeA)
  = ServerFailure.
Proof.
  pose proof (ServeDNS_not_synced Fixture.ParseIP Fixture.Matches Fixture.IsSubDomain Fixture.Through
    Fixture.soa Fixture.nameservers Fixture.ExternalAddrFunc Sample.unsynced
    (Sample.query "svc1.ns1.example.com." TypeA)) as H.
  apply H.
  - vm_compute. discriminate.
  - vm_compute. lia.
  - reflexivity.
Defined.

(** ** The registry *)

Lemma lookupResource_name (resources : list resourceWithIndex) (n : string)
  (r : resourceWithIndex) :
  lookupResource resources n = Some r -> name r = n /\ In r resources.
Proof.
  unfold lookupResource. intros H. apply List.find_some in H as [Hin Heq].
  apply String.eqb_eq in Heq. now split.
Qed.

(** The map that [updateResources] builds takes a name to the pointer of
    the entry declared with it. *)
Lemma resourceLookup_index_of (cells : Cells) (n : string) :
  map name cells = map name declared ->
  fold_left (fun (m : gmap string ResourcePtr) resource =>
               match cells !! resource with
               | Some r => <[name r := resource]> m
               | None => m
               end) staticResources ∅ !! n
  = index_of n (map name declared).
Proof.
  intros Hnames.
  destruct cells as [|c0 [|c1 [|c2 [|c3 [|c4 [|c5 [|c6 cells]]]]]]]; try discriminate.
  cbn [map declared name] in Hnames.
  injection Hnames as H0 H1 H2 H3 H4 H5.
  unfold staticResources. cbn [fold_left base.lookup list_lookup].
  rewrite H0, H1, H2, H3, H4, H5.
  unfold declared. cbn [map name index_of].
  repeat match goal with
         | |- context [<[?k := _]> _ !! n] =>
             destruct (decide (k = n)) as [<- | ?];
             [rewrite ?lookup_insert_eq;
              repeat (rewrite lookup_insert_ne by discriminate);
              rewrite ?lookup_insert_eq; reflexivity
             | rewrite lookup_insert_ne by assumption]
         end.
  rewrite lookup_empty.
  repeat match goal with
         | H : ?k <> n |- context [String.eqb ?k n] =>
             rewrite (proj2 (String.eqb_neq k n) H)
         end.
  reflexivity.
Qed.

Lemma updateResources_flat_map (cells : Cells) (newResources : list string) :
  map name cells = map name declared ->
  updateResources cells newResources
  = flat_map (fun n => match index_of n (map name declared) with
                       | Some resource => [resource]
                       | None => []
                       end) newResources.
Proof.
  intros Hnames. unfold updateResources.
  assert (H : forall acc,
             fold_left (fun resources n =>
                          match fold_left (fun (m : gmap string ResourcePtr) resource =>
                                             match cells !! resource with
                                             | Some r => <[name r := resource]> m
                                             | None => m
                                             end) staticResources ∅ !! n with
                          | Some resource => resources ++ [resource]
                          | None => resources
                          end) newResources acc
             = acc ++ flat_map (fun n => match index_of n (map name declared) with
                                         | Some resource => [resource]
                                         | None => []
                                         end) newResources).
  { induction newResources as [|n rest IH]; intros acc.
    - cbn. now rewrite app_nil_r.
    - cbn [fold_left flat_map]. rewrite IH, resourceLookup_index_of by assumption.
      destruct (index_of n (map name declared));
        now rewrite <- ?app_assoc, ?app_nil_l. }
  apply (H []).
Qed.

Lemma index_of_lookup (n : string) (names : list string) (p : nat) :
  index_of n names = Some p -> names !! p = Some n.
Proof.
  revert p; induction names as [|x rest IH]; intros p; cbn [index_of]; [discriminate |].
  destruct (String.eqb_spec x n) as [-> | _].
  - intros [= <-]. reflexivity.
  - destruct (index_of n rest) as [q |]; [| discriminate].
    intros [= <-]. now apply IH.
Qed.

Lemma index_of_None (n : string) (names : list string) :
  index_of n names = None -> slices_Contains names n = false.
Proof.
  unfold slices_Contains.
  induction names as [|x rest IH]; cbn [index_of existsb]; [reflexivity |].
  destruct (String.eqb_spec x n) as [-> | Hne]; [discriminate |].
  destruct (index_of n rest); [discriminate |]. intros _.
  rewrite (IH eq_refl), Bool.orb_false_r.
  apply String.eqb_neq. congruence.
Qed.

Lemma index_of_Some (n : string) (names : list string) (p : nat) :
  index_of n names = Some p -> slices_Contains names n = true.
Proof.
  intros H. apply index_of_lookup in H. unfold slices_Contains.
  apply existsb_exists. exists n. split; [| apply String.eqb_refl].
  apply list_elem_of_In. now apply list_elem_of_lookup_2 in H.
Qed.

(** Where every pointer leads to a value, the values are read pointer by
    pointer. *)
Lemma entries_lookup (cells : Cells) (resources : list ResourcePtr) (i : nat) :
  Forall (fun p => is_Some (cells !! p)) resources ->
  entries cells resources !! i = resources !! i ≫= (fun p => cells !! p).
Proof.
  intros Hvalid; revert i; induction Hvalid as [|p rest [r Hp] _ IH]; intros i.
  - reflexivity.
  - unfold entries. cbn [flat_map]. rewrite Hp. fold (entries cells rest).
    destruct i as [|i]; [cbn; now rewrite Hp | apply IH].
Qed.

Lemma set_lookup_length (cells : Cells) (p : ResourcePtr) (f : lookupFunc) :
  length (set_lookup cells p f) = length cells.
Proof.
  unfold set_lookup. destruct (cells !! p); [apply length_insert | reflexivity].
Qed.

Lemma set_lookup_names (cells : Cells) (p : ResourcePtr) (f : lookupFunc) :
  map name (set_lookup cells p f) = map name cells.
Proof.
  unfold set_lookup. destruct (cells !! p) as [r |] eqn:E; [| reflexivity].
  revert p E; induction cells as [|c cells IH]; intros [|p] E; try discriminate.
  - cbn in E. injection E as ->. reflexivity.
  - cbn in *. f_equal. now apply IH.
Qed.

(** X16: the registry follows the configuration and shares the entries
    of the catalog.  In a store whose six entries have the names they
    were declared with, [updateResources] sets the registry to, for each
    configured name in the configured order (a name given twice appears
    twice), the pointer of the catalog entry of that name; names the
    catalog does not have are left out.  The names read through the
    registry are therefore the configured names that the catalog knows,
    in order.  The registry holds pointers of [staticResources] and no
    copies: it is the same whatever lookups the entries have, and a
    lookup assigned to an entry through its pointer is the lookup read
    through the registry wherever that pointer stands. *)
Theorem updateResources_follows_configuration (cells : Cells)
  (newResources : list string) :
  map name cells = map name declared ->
  updateResources cells newResources
  = flat_map (fun n => match index_of n (map name declared) with
                       | Some resource => [resource]
                       | None => []
                       end) newResources
  /\ map name (entries cells (updateResources cells newResources))
     = List.filter (fun n => slices_Contains (map name declared) n) newResources
  /\ Forall (fun resource => In resource staticResources)
       (updateResources cells newResources)
  /\ (forall resource f,
        updateResources (set_lookup cells resource f) newResources
        = updateResources cells newResources)
  /\ (forall resource f i,
        updateResources cells newResources !! i = Some resource ->
        lookup <$> (entries (set_lookup cells resource f)
                      (updateResources cells newResources) !! i)
        = Some f).
Proof.
  intros Hnames.
  assert (Hlen : forall c : Cells, map name c = map name declared -> length c = 6%nat).
  { intros c Hc. apply (f_equal (@length string)) in Hc. now rewrite !length_map in Hc. }
  assert (Hptr : forall p, In p (updateResources cells newResources) -> (p < 6)%nat).
  { intros p Hp. rewrite updateResources_flat_map in Hp by assumption.
    apply in_flat_map in Hp as (n & _ & Hp).
    destruct (index_of n (map name declared)) as [q |] eqn:E; [| destruct Hp].
    destruct Hp as [<- | []]. apply index_of_lookup in E.
    apply lookup_lt_Some in E. exact E. }
  split; [now apply updateResources_flat_map |].
  split; [| split; [| split]].
  - rewrite updateResources_flat_map by assumption.
    induction newResources as [|n rest IH]; [reflexivity |].
    cbn [flat_map List.filter]. unfold entries in *. rewrite flat_map_app, map_app, IH.
    + destruct (index_of n (map name declared)) as [p |] eqn:E.
      * rewrite (index_of_Some _ _ _ E). apply index_of_lookup in E.
        rewrite <- Hnames, list_lookup_fmap in E. cbn [flat_map].
        destruct (cells !! p) as [r |]; [| discriminate].
        cbn in E. injection E as <-. reflexivity.
      * now rewrite (index_of_None _ _ E).
    + intros p Hp. apply Hptr. rewrite updateResources_flat_map by assumption.
      cbn [flat_map]. apply in_app_iff. right.
      now rewrite updateResources_flat_map in Hp by assumption.
  - apply Forall_forall. intros p Hp. apply list_elem_of_In in Hp.
    apply Hptr in Hp. unfold staticResources. cbn [In]. lia.
  - intros resource f.
    rewrite !updateResources_flat_map; [reflexivity | assumption |].
    now rewrite set_lookup_names.
  - intros resource f i Hi.
    rewrite entries_lookup.
    + rewrite Hi. cbn.
      assert (Hlt : (resource < length cells)%nat).
      { rewrite (Hlen cells Hnames). apply Hptr. apply list_elem_of_In.
        now apply list_elem_of_lookup_2 in Hi. }
      unfold set_lookup. destruct (lookup_lt_is_Some_2 cells resource Hlt) as [r Hr].
      rewrite Hr. rewrite list_lookup_insert_eq by assumption. reflexivity.
    + apply Forall_forall. intros p Hp. apply list_elem_of_In in Hp.
      apply lookup_lt_is_Some_2. rewrite set_lookup_length, (Hlen cells Hnames).
      now apply Hptr.
Qed.

(** The configuration [Ingress Pod Service Ingress] over the catalog
    after [setupLookupFuncs]: the registry holds the pointer of the
    Ingress entry twice, and a lookup assigned to that entry afterwards
    is read at both places. *)
Lemma updateResources_follows_configuration_witness :
  updateResources gateway_test.testResources ["Ingress"; "Pod"; "Service"; "Ingress"]
  = [3; 4; 3]%nat
  /\ map name (entries gateway_test.testResources
                 (updateResources gateway_test.testResources
                    ["Ingress"; "Pod"; "Service"; "Ingress"]))
     = ["Ingress"; "Service"; "Ingress"]
  /\ lookup <$> (entries (set_lookup gateway_test.testResources 3 noop)
                   (updateResources gateway_test.testResources
                      ["Ingress"; "Pod"; "Service"; "Ingress"]) !! 2%nat)
     = Some noop.
Proof.
  pose proof (updateResources_follows_configuration gateway_test.testResources
                ["Ingress"; "Pod"; "Service"; "Ingress"]) as H.
  destruct H as (Hptrs & Hnames & _ & _ & Hshared); [reflexivity |].
  split; [exact Hptrs |]. split; [exact Hnames |].
  apply Hshared. rewrite Hptrs. reflexivity.
Defined.

(** ** The gateway keys *)

Lemma slash_key_inj (a a' b b' : string) :
  slash_free a = true -> slash_free a' = true ->
  a +:+ "/" +:+ b = a' +:+ "/" +:+ b' -> a = a' /\ b = b'.
Proof.
  revert a'; induction a as [|c a IH]; intros [|c' a'] Ha Ha' E.
  - change (String "/" b = String "/" b') in E. injection E as ->. now split.
  - change (String "/" b = String c' (a' +:+ "/" +:+ b')) in E. injection E as <- _.
    unfold slash_free in Ha'. cbn in Ha'. discriminate.
  - change (String c (a +:+ "/" +:+ b) = String "/" b') in E. injection E as -> _.
    unfold slash_free in Ha. cbn in Ha. discriminate.
  - change (String c (a +:+ "/" +:+ b) = String c' (a' +:+ "/" +:+ b')) in E.
    injection E as -> E.
    unfold slash_free in Ha, Ha'. cbn [all_bytes] in Ha, Ha'.
    apply andb_prop in Ha as [_ Ha]. apply andb_prop in Ha' as [_ Ha'].
    destruct (IH a' Ha Ha' E) as [-> ->]. now split.
Qed.

(** X17: the gateway key tells Gateways apart.  Two objects whose
    namespaces hold no slash get the same key from [gatewayIndexFunc] only
    if they have the same namespace and the same name; and the key of an
    object with metadata is never the empty key that an object without
    metadata gets. *)
Theorem gatewayIndexFunc_injective (m1 m2 : ObjectMeta) :
  slash_free (meta_Namespace m1) = true ->
  slash_free (meta_Namespace m2) = true ->
  (fst (gatewayIndexFunc (Some m1)) = fst (gatewayIndexFunc (Some m2)) -> m1 = m2)
  /\ fst (gatewayIndexFunc (Some m1)) <> fst (gatewayIndexFunc None).
Proof.
  intros H1 H2. split.
  - destruct m1 as [ns1 n1], m2 as [ns2 n2]. cbn in *. intros E.
    injection E as E. destruct (slash_key_inj ns1 ns2 n1 n2 H1 H2 E) as [-> ->].
    reflexivity.
  - cbn. intros E. injection E as E.
    apply (f_equal String.length) in E. rewrite !append_length in E. cbn in E. lia.
Qed.

Lemma gatewayIndexFunc_injective_witness :
  (fst (gatewayIndexFunc (Some {| meta_Namespace := "infra"; meta_Name := "gw1" |}))
   = fst (gatewayIndexFunc (Some {| meta_Namespace := "infra"; meta_Name := "gw1" |}))
   -> {| meta_Namespace := "infra"; meta_Name := "gw1" |}
      = {| meta_Namespace := "infra"; meta_Name := "gw1" |})
  /\ fst (gatewayIndexFunc (Some {| meta_Namespace := "infra"; meta_Name := "gw1" |}))
     <> fst (gatewayIndexFunc None).
Proof.
  apply (gatewayIndexFunc_injective
           {| meta_Namespace := "infra"; meta_Name := "gw1" |}
           {| meta_Namespace := "infra"; meta_Name := "gw1" |}).
  - reflexivity.
  - reflexivity.
Defined.

(** ** Valid names are in lower case *)

Lemma all_bytes_append (f : ascii -> bool) (a b : string) :
  all_bytes f (a +:+ b) = all_bytes f a && all_bytes f b.
Proof.
  induction a as [|c a IH]; [reflexivity |].
  rewrite append_String. cbn [all_bytes]. now rewrite IH, andb_assoc.
Qed.

Lemma dns1123Label_bytes (l : string) :
  dns1123Label l = true -> all_bytes is_label_byte l = true.
Proof.
  destruct l as [|c rest]; [discriminate |]. unfold dns1123Label. cbn [all_bytes].
  intros H. apply andb_prop in H as [H _]. apply andb_prop in H as [Hc Hrest].
  unfold is_label_byte at 1. now rewrite Hc, Hrest.
Qed.

Lemma Split_aux_bytes (f : ascii -> bool) (sep : ascii) (s cur : string) :
  forallb (all_bytes f) (GoString.Split_aux sep s cur) = true ->
  all_bytes f cur = true
  /\ all_bytes (fun c => f c || Ascii.eqb c sep) s = true.
Proof.
  revert cur; induction s as [|c s IH]; intros cur; cbn [GoString.Split_aux].
  - cbn. rewrite andb_true_r. auto.
  - destruct (Ascii.eqb c sep) eqn:Ec.
    + cbn [forallb all_bytes]. intros H. apply andb_prop in H as [Hcur Hrest].
      apply IH in Hrest as [_ Hs]. rewrite Ec, orb_true_r. auto.
    + intros H. apply IH in H as [Hcur Hs].
      rewrite all_bytes_append in Hcur. apply andb_prop in Hcur as [Hcur Hc].
      cbn in Hc. rewrite andb_true_r in Hc.
      cbn [all_bytes]. rewrite Hc, Hs. auto.
Qed.

Lemma label_byte_lower (c : ascii) :
  is_label_byte c || Ascii.eqb c "." = true -> GoString.lower_byte c = c.
Proof.
  destruct c as [b0 b1 b2 b3 b4 b5 b6 b7].
  destruct b0, b1, b2, b3, b4, b5, b6, b7; vm_compute;
    intros H; first [reflexivity | discriminate H].
Qed.

Lemma ToLower_fixed (s : string) :
  all_bytes (fun c => is_label_byte c || Ascii.eqb c ".") s = true ->
  GoString.ToLower s = s.
Proof.
  induction s as [|c s IH]; [reflexivity |]. cbn [all_bytes GoString.ToLower].
  intros H. apply andb_prop in H as [Hc Hs].
  now rewrite (label_byte_lower c Hc), IH.
Qed.

Lemma isdns1123Hostname_lower (value : string) :
  isdns1123Hostname value = true ->
  GoString.ToLower value = value /\ value <> "".
Proof.
  unfold isdns1123Hostname, GoString.Split. intros H. split.
  - apply ToLower_fixed.
    apply (Split_aux_bytes is_label_byte "." value "").
    rewrite forallb_forall in *. intros l Hl. apply dns1123Label_bytes. auto.
  - intros ->. cbn in H. discriminate.
Qed.

Lemma checkDomainValid_lower (IsDomainName : string -> bool) (domain : string) :
  checkDomainValid IsDomainName domain = true ->
  GoString.ToLower domain = domain /\ domain <> "".
Proof.
  unfold checkDomainValid. destruct (IsDomainName domain); [| discriminate].
  destruct (isdns1123Hostname domain) eqn:E; [| discriminate].
  intros _. now apply isdns1123Hostname_lower.
Qed.

(** X18: the keys taken from annotations are valid names in lower
    case.  When a Service carries one of the two host name annotations,
    every key its index function returns has passed [checkDomainValid], is
    not empty and is unchanged by lower-casing (a name with an upper-case
    letter never passes the RFC 1123 test), so it can be found by the
    lower-cased keys of the lookups. *)
Theorem serviceHostnameIndexFunc_annotation_keys (IsDomainName : string -> bool)
  (service : Service) (key : string) :
  svc_Annotations service !! hostnameAnnotationKey <> None
  \/ svc_Annotations service !! externalDnsHostnameAnnotationKey <> None ->
  In key (serviceHostnameIndexFunc IsDomainName (ObjService service)) ->
  checkDomainValid IsDomainName key = true
  /\ GoString.ToLower key = key
  /\ key <> "".
Proof.
  intros Hann Hkey.
  assert (Hvalid : checkDomainValid IsDomainName key = true).
  { revert Hkey. unfold serviceHostnameIndexFunc, checkServiceAnnotation.
    destruct (svc_Type service); try (intros []).
    destruct (svc_Annotations service !! hostnameAnnotationKey) as [v |].
    - destruct (checkDomainValid IsDomainName (GoString.ToLower v)) eqn:E;
        [intros [<- | []]; exact E | intros []].
    - destruct (svc_Annotations service !! externalDnsHostnameAnnotationKey) as [v |].
      + rewrite fold_left_valid. cbn [app]. intros H.
        now apply List.filter_In in H as [_ H].
      + destruct Hann as [H | H]; contradiction. }
  split; [exact Hvalid |]. now apply checkDomainValid_lower with IsDomainName.
Qed.

Lemma serviceHostnameIndexFunc_annotation_keys_witness :
  checkDomainValid Fixture.IsDomainName "app.example.com" = true
  /\ GoString.ToLower "app.example.com" = "app.example.com"
  /\ "app.example.com" <> "".
Proof.
  apply (serviceHostnameIndexFunc_annotation_keys Fixture.IsDomainName
           (Fixture.service "svc1"
              (<[externalDnsHostnameAnnotationKey := "App.Example.Com"]> ∅) [] [])
           "app.example.com").
  - right. vm_compute. discriminate.
  - vm_compute. left. reflexivity.
Defined.

(** ** The informers of the controller *)

Lemma build_kinds_fold (informerOf : string -> option Informer)
  (configuredResources : list string) (resources : list resourceWithIndex)
  (names : list string) (b : Built) :
  Forall (fun n => informerOf n <> None) names ->
  assigned (build_kinds informerOf configuredResources resources names b)
  = assigned b ++ List.filter (enabled configuredResources resources) names
  /\ length (controllers (build_kinds informerOf configuredResources resources names b))
     = length (controllers b)
       + length (List.filter (enabled configuredResources resources) names).
Proof.
  intros Hnames; revert b; induction Hnames as [|n names Hn _ IH]; intros b.
  - cbn. rewrite app_nil_r. split; [reflexivity | lia].
  - unfold build_kinds in *. cbn [fold_left List.filter].
    destruct (slices_Contains configuredResources n) eqn:E1; cbn [negb].
    + destruct (lookupResource resources n) eqn:E2.
      * assert (Hen : enabled configuredResources resources n = true)
          by (unfold enabled; now rewrite E1, E2).
        rewrite Hen. destruct (informerOf n) as [i |]; [| contradiction].
        destruct (IH {| controllers := controllers b ++ [i];
                        assigned := assigned b ++ [n] |}) as [Ha Hc].
        rewrite Ha, Hc. cbn [assigned controllers].
        rewrite length_app, <- app_assoc. cbn [length app].
        split; [reflexivity | lia].
      * assert (Hen : enabled configuredResources resources n = false)
          by (unfold enabled; now rewrite E1, E2).
        rewrite Hen. apply IH.
    + assert (Hen : enabled configuredResources resources n = false)
        by (unfold enabled; now rewrite E1).
      rewrite Hen. apply IH.
Qed.

(** X19: which kinds get a lookup.  [newKubeController] assigns a
    lookup to a route kind only when the Gateway CRD is there, to
    DNSEndpoint only when its CRD is there, and to any kind only when the
    kind is configured and in the registry; the kinds assigned are, in
    this order, the enabled ones among HTTPRoute, TLSRoute, GRPCRoute (if
    the Gateway CRD is there), Ingress, Service, and DNSEndpoint (if its
    CRD is there).  It starts one informer per assigned kind, and the
    Gateway informer besides when the Gateway CRD is there and a route
    kind is configured. *)
Theorem newKubeController_assigned (crdGatewayClasses crdDNSEndpoints : bool)
  (configuredResources : list string) (resources : list resourceWithIndex) :
  assigned (newKubeController crdGatewayClasses crdDNSEndpoints
              configuredResources resources)
  = List.filter (fun n => crdGatewayClasses && enabled configuredResources resources n)
      ["HTTPRoute"; "TLSRoute"; "GRPCRoute"]
    ++ List.filter (enabled configuredResources resources) ["Ingress"; "Service"]
    ++ List.filter (fun n => crdDNSEndpoints && enabled configuredResources resources n)
         ["DNSEndpoint"]
  /\ length (controllers (newKubeController crdGatewayClasses crdDNSEndpoints
                            configuredResources resources))
     = length (assigned (newKubeController crdGatewayClasses crdDNSEndpoints
                           configuredResources resources))
       + (if crdGatewayClasses
             && existsb (fun r => slices_Contains configuredResources r)
                  ["HTTPRoute"; "TLSRoute"; "GRPCRoute"]
          then 1 else 0).
Proof.
  assert (Hroutes : Forall (fun n => routeInformer n <> None)
                      ["HTTPRoute"; "TLSRoute"; "GRPCRoute"])
    by (repeat constructor; discriminate).
  assert (Hcore : Forall (fun n => coreInformer n <> None) ["Ingress"; "Service"])
    by (repeat constructor; discriminate).
  unfold newKubeController.
  set (routing := ["HTTPRoute"; "TLSRoute"; "GRPCRoute"]) in *.
  set (core := ["Ingress"; "Service"]) in *.
  set (should := existsb (fun r => slices_Contains configuredResources r) routing).
  set (en := enabled configuredResources resources).
  assert (Hnone : should = false -> List.filter en routing = []).
  { unfold should, routing, en, enabled. cbn [existsb List.filter].
    intros H. apply orb_false_elim in H as [H1 H].
    apply orb_false_elim in H as [H2 H]. apply orb_false_elim in H as [H3 _].
    now rewrite H1, H2, H3. }
  assert (Hdns : List.filter (fun n => crdDNSEndpoints && en n) ["DNSEndpoint"]
                 = if crdDNSEndpoints && slices_Contains configuredResources "DNSEndpoint"
                   then match lookupResource resources "DNSEndpoint" with
                        | Some _ => ["DNSEndpoint"]
                        | None => []
                        end
                   else []).
  { unfold en, enabled. cbn [List.filter].
    destruct crdDNSEndpoints, (slices_Contains configuredResources "DNSEndpoint"),
      (lookupResource resources "DNSEndpoint"); reflexivity. }
  rewrite Hdns. clear Hdns.
  assert (Hfinish : forall (b : Built) (pre : list string) (extra : nat),
             assigned b = pre ->
             length (controllers b) = length pre + extra ->
             assigned
               (if crdDNSEndpoints && slices_Contains configuredResources "DNSEndpoint"
                then match lookupResource resources "DNSEndpoint" with
                     | Some _ => {| controllers := controllers b ++ [DNSEndpointInformer];
                                    assigned := assigned b ++ ["DNSEndpoint"] |}
                     | None => b
                     end
                else b)
             = pre ++ (if crdDNSEndpoints && slices_Contains configuredResources "DNSEndpoint"
                       then match lookupResource resources "DNSEndpoint" with
                            | Some _ => ["DNSEndpoint"]
                            | None => []
                            end
                       else [])
             /\ length (controllers
                          (if crdDNSEndpoints
                              && slices_Contains configuredResources "DNSEndpoint"
                           then match lookupResource resources "DNSEndpoint" with
                                | Some _ =>
                                    {| controllers := controllers b ++ [DNSEndpointInformer];
                                       assigned := assigned b ++ ["DNSEndpoint"] |}
                                | None => b
                                end
                           else b))
                = length (assigned
                            (if crdDNSEndpoints
                                && slices_Contains configuredResources "DNSEndpoint"
                             then match lookupResource resources "DNSEndpoint" with
                                  | Some _ =>
                                      {| controllers := controllers b ++ [DNSEndpointInformer];
                                         assigned := assigned b ++ ["DNSEndpoint"] |}
                                  | None => b
                                  end
                             else b))
                  + extra).
  { intros b pre extra Hb Hc.
    destruct (crdDNSEndpoints && slices_Contains configuredResources "DNSEndpoint");
      [destruct (lookupResource resources "DNSEndpoint") |];
      cbn [assigned controllers]; rewrite ?length_app, ?Hb, ?Hc, ?app_nil_r;
      cbn [length]; (split; [reflexivity | lia]). }
  destruct crdGatewayClasses; cbn [andb].
  - replace (List.filter (fun n => en n) routing) with (List.filter en routing)
      by reflexivity.
    destruct should eqn:Hs.
    + destruct (build_kinds_fold routeInformer configuredResources resources routing
                  {| controllers := [GatewayInformer]; assigned := [] |} Hroutes)
        as [Ha Hc].
      destruct (build_kinds_fold coreInformer configuredResources resources core
                  (build_kinds routeInformer configuredResources resources routing
                     {| controllers := [GatewayInformer]; assigned := [] |}) Hcore)
        as [Ha2 Hc2].
      cbn [assigned controllers app length] in Ha, Hc.
      fold en in Ha, Hc, Ha2, Hc2.
      rewrite Ha in Ha2. rewrite Hc in Hc2.
      rewrite app_assoc. apply Hfinish.
      * exact Ha2.
      * etransitivity; [exact Hc2 |]. rewrite length_app. lia.
    + rewrite (Hnone eq_refl).
      destruct (build_kinds_fold coreInformer configuredResources resources core
                  {| controllers := []; assigned := [] |} Hcore) as [Ha2 Hc2].
      cbn [assigned controllers app length] in Ha2, Hc2.
      fold en in Ha2, Hc2.
      cbn [app]. apply Hfinish.
      * exact Ha2.
      * etransitivity; [exact Hc2 |]. lia.
  - replace (List.filter (fun _ => false) routing) with (@nil string) by reflexivity.
    destruct (build_kinds_fold coreInformer configuredResources resources core
                {| controllers := []; assigned := [] |} Hcore) as [Ha2 Hc2].
    cbn [assigned controllers app length] in Ha2, Hc2.
    fold en in Ha2, Hc2.
    cbn [app]. apply Hfinish.
    + exact Ha2.
    + etransitivity; [exact Hc2 |]. lia.
Qed.

(** All six kinds configured in a cluster without the Gateway API: the
    route kinds keep their no-op lookup. *)
Example newKubeController_without_gateway_crd :
  assigned (newKubeController false true
              ["HTTPRoute"; "TLSRoute"; "GRPCRoute"; "Ingress"; "Service"; "DNSEndpoint"]
              (entries declared staticResources))
  = ["Ingress"; "Service"; "DNSEndpoint"].
Proof. vm_compute. reflexivity. Qed.

(** ** The plugin's own address records *)

Lemma SelfAddress_loop_addrs1 (gw : Gateway) (resources : list resourceWithIndex)
  (addrs1 addrs2 addrs1' addrs2' : list string) :
  SelfAddress_loop gw resources addrs1 addrs2 = Ret (addrs1', addrs2') ->
  (forall y, In y addrs1 -> In y addrs1')
  /\ (forall r b x, In r resources -> lookup r [apex gw] = Ret b ->
        In x (mget b "A") \/ In x (mget b "AAAA") -> In x addrs1').
Proof.
  revert addrs1 addrs2; induction resources as [|r0 rest IH]; intros addrs1 addrs2.
  - cbn. intros [= <- <-]. split; [auto | intros r b x []].
  - cbn [SelfAddress_loop].
    destruct (lookup r0 [apex gw]) as [b1 |] eqn:E1; [| discriminate]. cbn [go_bind].
    destruct (lookup r0 [secondNS gw]) as [b2 |]; [| discriminate]. cbn [go_bind].
    intros H. apply IH in H as [Hsub Hrest]. split.
    + intros y Hy. apply Hsub.
      destruct (0 <? length (mget b1 "A"))%nat, (0 <? length (mget b1 "AAAA"))%nat;
        rewrite ?in_app_iff; auto.
    + intros r b x [<- | Hr] Hb Hx; [| now apply (Hrest r b x)].
      rewrite E1 in Hb. injection Hb as <-. apply Hsub.
      destruct Hx as [Hx | Hx].
      * assert (HA : (0 <? length (mget b1 "A"))%nat = true)
          by (destruct (mget b1 "A"); [destruct Hx | reflexivity]).
        rewrite HA.
        destruct (0 <? length (mget b1 "AAAA"))%nat; rewrite ?in_app_iff; auto.
      * assert (HA : (0 <? length (mget b1 "AAAA"))%nat = true)
          by (destruct (mget b1 "AAAA"); [destruct Hx | reflexivity]).
        rewrite HA. rewrite in_app_iff. auto.
Qed.

Lemma A_records (ParseIP : string -> IP) (gw : Gateway) (n : string)
  (results : list string) :
  (forall rr, In rr (A ParseIP gw n results) ->
     exists x, In x results /\ rr = RR_A n (ttlLow gw) (ParseIP x))
  /\ forall x, In x results -> In (RR_A n (ttlLow gw) (ParseIP x)) (A ParseIP gw n results).
Proof.
  unfold A. rewrite dedup_records_first_seen. cbn [app]. split.
  - intros rr Hrr. apply in_map_iff in Hrr as (x & <- & Hx). exists x. split; [| reflexivity].
    apply list_elem_of_In in Hx. apply first_seen_elem_of in Hx as [Hx _].
    now apply list_elem_of_In.
  - intros x Hx.
    apply (in_map (fun v => RR_A n (ttlLow gw) (ParseIP v))). apply list_elem_of_In.
    apply first_seen_elem_of. split; [now apply list_elem_of_In | apply not_elem_of_empty].
Qed.

(** X20: the plugin's own addresses are published as A records, IPv6
    ones included.  Whenever [SelfAddress] returns, every record it
    returns is an A record with the low TTL that carries [net.ParseIP] of
    an address text, named [<apex>.<zone>] or, for an NS query only,
    [<secondNS>.<zone>]; and every address text that a registered lookup
    returns for the apex label, under A or under AAAA, has its
    [net.ParseIP] in an A record named [<apex>.<zone>]. *)
Theorem SelfAddress_only_A_records (ParseIP : string -> IP) (gw : Gateway)
  (state : Request) (records : list RR) :
  SelfAddress ParseIP gw state = Ret records ->
  Forall (fun rr => match rr with RR_A _ _ _ => True | _ => False end) records
  /\ (forall rr, In rr records ->
        exists n x,
          rr = RR_A n (ttlLow gw) (ParseIP x)
          /\ (n = apex gw +:+ "." +:+ Zone state
              \/ (QType_ state = TypeNS /\ n = secondNS gw +:+ "." +:+ Zone state)))
  /\ (forall r b x,
        In r (Resources gw) ->
        lookup r [apex gw] = Ret b ->
        In x (mget b "A") \/ In x (mget b "AAAA") ->
        In (RR_A (apex gw +:+ "." +:+ Zone state) (ttlLow gw) (ParseIP x)) records).
Proof.
  unfold SelfAddress. intros Hrec.
  destruct (SelfAddress_loop gw (Resources gw) [] []) as [[addrs1 addrs2] |] eqn:E;
    [| discriminate].
  cbn [go_bind] in Hrec.
  apply SelfAddress_loop_addrs1 in E as [_ Hin].
  destruct (A_records ParseIP gw (apex gw +:+ "." +:+ Zone state) addrs1) as [HA1 Hin1].
  destruct (A_records ParseIP gw (secondNS gw +:+ "." +:+ Zone state) addrs2) as [HA2 _].
  assert (Hform : forall rr, In rr records ->
            exists n x,
              rr = RR_A n (ttlLow gw) (ParseIP x)
              /\ (n = apex gw +:+ "." +:+ Zone state
                  \/ (QType_ state = TypeNS /\ n = secondNS gw +:+ "." +:+ Zone state))).
  { intros rr Hrr.
    destruct (QType_ state) eqn:Hq; injection Hrec as <-;
      try (apply HA1 in Hrr as (x & _ & ->); exists (apex gw +:+ "." +:+ Zone state), x;
           split; [reflexivity | now left]).
    apply in_app_iff in Hrr as [Hrr | Hrr].
    - apply HA1 in Hrr as (x & _ & ->). exists (apex gw +:+ "." +:+ Zone state), x.
      split; [reflexivity | now left].
    - apply HA2 in Hrr as (x & _ & ->). exists (secondNS gw +:+ "." +:+ Zone state), x.
      split; [reflexivity | right; now split]. }
  split; [| split; [exact Hform |]].
  - apply Forall_forall. intros rr Hrr. apply list_elem_of_In in Hrr.
    apply Hform in Hrr as (n & x & -> & _). exact I.
  - intros r b x Hr Hb Hx. specialize (Hin r b x Hr Hb Hx). apply Hin1 in Hin.
    destruct (QType_ state); injection Hrec as <-; try exact Hin.
    apply in_app_iff. now left.
Qed.

Lemma SelfAddress_only_A_records_witness :
  In (RR_A "dns1.kube-system.example.com." 60
        (Some [253; 18; 52; 86; 120; 154; 0; 1; 0; 0; 0; 0; 0; 0; 0; 83]%N))
    [RR_A "dns1.kube-system.example.com." 60
       (Some [0; 0; 0; 0; 0; 0; 0; 0; 0; 0; 255; 255; 192; 0; 1; 53]%N);
     RR_A "dns1.kube-system.example.com." 60
       (Some [253; 18; 52; 86; 120; 154; 0; 1; 0; 0; 0; 0; 0; 0; 0; 83]%N)].
Proof.
  pose proof (SelfAddress_only_A_records Fixture.ParseIP Sample.selfGateway
    Sample.selfQuery
    [RR_A "dns1.kube-system.example.com." 60
       (Some [0; 0; 0; 0; 0; 0; 0; 0; 0; 0; 255; 255; 192; 0; 1; 53]%N);
     RR_A "dns1.kube-system.example.com." 60
       (Some [253; 18; 52; 86; 120; 154; 0; 1; 0; 0; 0; 0; 0; 0; 0; 83]%N)]) as H.
  destruct H as (_ & _ & H); [vm_compute; reflexivity |].
  pose proof (H Sample.selfResource
    (appenddnsResults None
       (Some (<["A" := ["192.0.1.53"]]> (<["AAAA" := ["fd12:3456:789a:1::53"]]> ∅))))
    "fd12:3456:789a:1::53") as H'.
  apply H'.
  - left. reflexivity.
  - vm_compute. reflexivity.
  - right. vm_compute. left. reflexivity.
Defined.
